(** * MumbleClient: the protocol engine of the voip-mumble component

    A shallow embedding of [code/components/voip-mumble/src/MumbleClient.cpp]:
    the idle-timer reconciler, the UDP voice path and the ping handling,
    followed by the properties of the specification that were checked
    against it.

    Conventions of the embedding.
    - Fixed-width integers are [Z] with the wrap-around written out
      ([u32], [u64]); [std::chrono::milliseconds] values are [Z].
    - [msec()] is an input of every handler ([now]); the clock reads made
      inside one handler invocation are taken in the same millisecond.
    - [float] values that the code computes are kept as the exact rational
      ([Q]) the expression denotes before rounding to binary32; [float]
      values that are only moved around are kept as their 32-bit pattern.
    - What the client hands to the TLS session, to the UDP socket and to the
      audio sink is appended to logs kept in the client record, oldest
      first.
    - Dereferencing a null [m_tlsClient] is undefined behaviour in the
      source; handlers return [None] there. *)

From Stdlib Require Import ZArith List String Ascii Bool Lia QArith Sorted.
From Stdlib Require Import Orders OrdersEx.
Import ListNotations.
Local Open Scope Z_scope.
Local Open Scope list_scope.

(** ** Machine integers and clock constants *)

Definition u32 (z : Z) : Z := z mod 2 ^ 32.
Definition u64 (z : Z) : Z := z mod 2 ^ 64.

(** [uint32_t] to [int], as [std::vector<int>::push_back] does with a
    channel id. *)
Definition int_of_u32 (z : Z) : Z := if z <? 2 ^ 31 then z else z - 2 ^ 32.

(** [constexpr auto kPingInterval = 1000ms] *)
Definition kPingInterval : Z := 1000.
(** [constexpr uint16_t kMaxUdpPacket = 1024] *)
Definition kMaxUdpPacket : Z := 1024.
(** [20s] in milliseconds *)
Definition k20s : Z := 20000.

Definition size_of {A} (buf : list A) : Z := Z.of_nat (List.length buf).

(** ** A small error monad: [None] is a crashed handler *)

Definition bind {A B} (m : option A) (k : A -> option B) : option B :=
  match m with
  | Some a => k a
  | None => None
  end.

Notation "'do' x <- m ; k" := (bind m (fun x => k))
  (at level 10, x name, m at level 100, k at level 200).

(** ** [std::set<std::string>] *)

Definition str_ltb (a b : string) : bool :=
  match String_as_OT.compare a b with
  | Lt => true
  | _ => false
  end.

Definition str_lt (a b : string) : Prop := String_as_OT.lt a b.

(** Modelled from the spec: [m_curChannelListens] and [m_lastChannelListens]
    are declared in MumbleClientImpl.h, which is not under src/. The spec
    has them as sets of names, and the code applies [std::set_difference]
    and [insert] and [erase] by key to them: ordered sets, kept as strictly
    increasing lists in the order [std::set<std::string>] iterates. *)
Definition StrSet := list string.

Definition set_ok (l : StrSet) : Prop := StronglySorted str_lt l.

Fixpoint set_insert (x : string) (l : StrSet) : StrSet :=
  match l with
  | [] => [x]
  | y :: r =>
      match String_as_OT.compare x y with
      | Lt => x :: l
      | Eq => l
      | Gt => y :: set_insert x r
      end
  end.

Fixpoint set_erase (x : string) (l : StrSet) : StrSet :=
  match l with
  | [] => []
  | y :: r =>
      match String_as_OT.compare x y with
      | Lt => l
      | Eq => r
      | Gt => y :: set_erase x r
      end
  end.

(** [std::set_difference] on two sorted ranges, written to a
    [back_inserter]: the merge loop of the standard algorithm. *)
Fixpoint set_difference (a b : list string) : list string :=
  match a with
  | [] => []
  | x :: a' =>
      (fix scan (b : list string) : list string :=
         match b with
         | [] => a
         | y :: b' =>
             if str_ltb x y then x :: set_difference a' b
             else if str_ltb y x then scan b'
             else set_difference a' b'
         end) b
  end.

(** ** [std::map<int, VoiceTargetConfig>] *)

(** Modelled from the spec: [VoiceTargetConfig] is declared in a header
    that is not under src/. A config has the names of the users and the
    names of the channels, here in the order the code iterates them. *)
Record VoiceTargetConfig := {
  users : list string;
  channels : list string
}.

(** Modelled from the spec: [m_pendingVoiceTargetUpdates] is declared in
    MumbleClientImpl.h, which is not under src/; it is a map from target
    ids to configs, kept in key order. This is [m[idx] = config]. *)
Fixpoint map_assign {V} (k : Z) (v : V) (m : list (Z * V)) : list (Z * V) :=
  match m with
  | [] => [(k, v)]
  | (k', v') :: r =>
      if k <? k' then (k, v) :: m
      else if k =? k' then (k, v) :: r
      else (k', v') :: map_assign k v r
  end.

(** ** Protocol buffers *)

(** Modelled from the spec: the messages are generated from Mumble.proto,
    which is not under src/. Each has the fields the code sets or reads. *)
Module MumbleProto.

Record UserState := {
  session : Z;
  channel_id : option Z;
  listening_channel_add : list Z;
  listening_channel_remove : list Z
}.

Record ChannelState := {
  parent : Z;
  name : string;
  temporary : bool
}.

Record VoiceTarget_Target := {
  vt_session : list Z;
  vt_channel_id : option Z
}.

Record VoiceTarget := {
  id : Z;
  targets : list VoiceTarget_Target
}.

Record Ping := {
  timestamp : option Z;
  good : Z;
  late : Z;
  lost : Z;
  resync : Z;
  tcp_ping_avg : Q;
  tcp_ping_var : Q;
  tcp_packets : Z;
  udp_ping_avg : Q;
  udp_ping_var : Q;
  udp_packets : Z
}.

Inductive Message :=
| MUserState (m : UserState)
| MChannelState (m : ChannelState)
| MVoiceTarget (m : VoiceTarget)
| MPing (m : Ping)
| MCryptSetup.

End MumbleProto.

(** Modelled from the spec: the enumeration of message types is declared
    in a header that is not under src/. *)
Module MumbleMessageType.
Inductive t :=
| Version | UDPTunnel | Authenticate | Ping | Reject | ServerSync
| ChannelRemove | ChannelState | UserRemove | UserState | CryptSetup
| VoiceTarget.
End MumbleMessageType.

(** What one call of [Send(const char*, size_t)] carries. *)
Inductive Payload :=
| Proto (m : MumbleProto.Message)
| Raw (bytes : list Byte.byte).

(** One buffer handed to [m_tlsClient->send]: a [MumblePacketHeader] (type
    and length of the payload that follows) or a payload. *)
Inductive TlsWrite :=
| WHeader (type : MumbleMessageType.t) (body : Payload)
| WPayload (p : Payload).

(** One [m_udp->send]: the buffer and the length passed with it. *)
Record Datagram := {
  dg_buf : list Byte.byte;
  dg_len : Z
}.

(** ** The state store, the crypto state and the client *)

(** Modelled from the spec: [MumbleChannel], [MumbleUser] and
    [MumbleClientState] are declared in headers that are not under src/. A
    channel has a name, a user a session id, a server id, a name and the
    id of its channel; the store has our session id and user name, the
    channels by id and the users, here in the order the containers
    iterate. *)
Record MumbleChannel := {
  ch_name : string
}.

Record MumbleUser := {
  user_session : Z;
  user_serverId : Z;
  user_name : string;
  user_channelId : Z
}.

Record MumbleClientState := {
  st_session : Z;
  st_username : string;
  st_channels : list (Z * MumbleChannel);
  st_users : list MumbleUser
}.

(** Modelled from the spec: [MumbleCrypto] is declared in a header that is
    not under src/. It has the eight counters, the time of the last good
    datagram and the flag that [IsInitialized] returns. *)
Record MumbleCrypto := {
  m_init : bool;
  m_localGood : Z;
  m_localLate : Z;
  m_localLost : Z;
  m_localResync : Z;
  m_remoteGood : Z;
  m_remoteLate : Z;
  m_remoteLost : Z;
  m_remoteResync : Z;
  m_lastGoodUdp : Z
}.

(** Modelled from the spec: [MumbleConnectionInfo] is declared in a header
    that is not under src/; of the address the model keeps the family. *)
Record MumbleConnectionInfo := {
  isConnected : bool;
  isConnecting : bool;
  addressFamily : Z
}.

(** [Botan::TLS::Client], as far as the client reads it. *)
Record TlsClient := {
  is_active : bool
}.

(** Modelled from the spec: the members [m_*PingAverage],
    [m_*PingVariance], [m_*PingCount] and [m_*Pings] of one direction are
    declared in MumbleClientImpl.h, which is not under src/. The array is
    a list whose length is the array's [_countof]. *)
Record PingStats := {
  pingAverage : Q;
  pingVariance : Q;
  pingCount : Z;
  pings : list Z
}.

(** Calls made on the audio output. *)
Inductive AudioCall :=
| HandleClientVoiceData (user : MumbleUser) (sequenceNumber : Z)
    (bytes : list Byte.byte) (hasTerminator : bool)
| HandleClientDistance (user : MumbleUser) (distance : Z).

(** The members of [MumbleClient] that the modelled functions use, and the
    three logs. [m_connectTimer] is the delay the timer was last started
    with, [m_idleTimer] whether the idle timer runs. *)
Record MumbleClient := {
  m_connectionInfo : MumbleConnectionInfo;
  m_tlsClient : option TlsClient;
  m_crypto : MumbleCrypto;
  m_state : MumbleClientState;
  m_hasUdp : bool;
  m_curManualChannel : string;
  m_lastManualChannel : string;
  m_curChannelListens : StrSet;
  m_lastChannelListens : StrSet;
  m_pendingVoiceTargetUpdates : list (Z * VoiceTargetConfig);
  m_nextPing : Z;
  m_timeSinceJoin : Z;
  m_inFlightTcpPings : Z;
  m_tcpPing : PingStats;
  m_udpPing : PingStats;
  m_connectTimer : option Z;
  m_idleTimer : bool;
  m_positionUpdates : list (Z * (Z * Z * Z));
  tls_out : list TlsWrite;
  udp_out : list Datagram;
  audio_out : list AudioCall
}.

(** Assignments to one member of the client. *)

Definition set_m_connectionInfo v (s : MumbleClient) : MumbleClient :=
  {| m_connectionInfo := v; m_tlsClient := m_tlsClient s;
     m_crypto := m_crypto s; m_state := m_state s; m_hasUdp := m_hasUdp s;
     m_curManualChannel := m_curManualChannel s;
     m_lastManualChannel := m_lastManualChannel s;
     m_curChannelListens := m_curChannelListens s;
     m_lastChannelListens := m_lastChannelListens s;
     m_pendingVoiceTargetUpdates := m_pendingVoiceTargetUpdates s;
     m_nextPing := m_nextPing s; m_timeSinceJoin := m_timeSinceJoin s;
     m_inFlightTcpPings := m_inFlightTcpPings s; m_tcpPing := m_tcpPing s;
     m_udpPing := m_udpPing s; m_connectTimer := m_connectTimer s;
     m_idleTimer := m_idleTimer s; m_positionUpdates := m_positionUpdates s;
     tls_out := tls_out s; udp_out := udp_out s; audio_out := audio_out s |}.

Definition set_m_crypto v (s : MumbleClient) : MumbleClient :=
  {| m_connectionInfo := m_connectionInfo s; m_tlsClient := m_tlsClient s;
     m_crypto := v; m_state := m_state s; m_hasUdp := m_hasUdp s;
     m_curManualChannel := m_curManualChannel s;
     m_lastManualChannel := m_lastManualChannel s;
     m_curChannelListens := m_curChannelListens s;
     m_lastChannelListens := m_lastChannelListens s;
     m_pendingVoiceTargetUpdates := m_pendingVoiceTargetUpdates s;
     m_nextPing := m_nextPing s; m_timeSinceJoin := m_timeSinceJoin s;
     m_inFlightTcpPings := m_inFlightTcpPings s; m_tcpPing := m_tcpPing s;
     m_udpPing := m_udpPing s; m_connectTimer := m_connectTimer s;
     m_idleTimer := m_idleTimer s; m_positionUpdates := m_positionUpdates s;
     tls_out := tls_out s; udp_out := udp_out s; audio_out := audio_out s |}.

Definition set_m_hasUdp v (s : MumbleClient) : MumbleClient :=
  {| m_connectionInfo := m_connectionInfo s; m_tlsClient := m_tlsClient s;
     m_crypto := m_crypto s; m_state := m_state s; m_hasUdp := v;
     m_curManualChannel := m_curManualChannel s;
     m_lastManualChannel := m_lastManualChannel s;
     m_curChannelListens := m_curChannelListens s;
     m_lastChannelListens := m_lastChannelListens s;
     m_pendingVoiceTargetUpdates := m_pendingVoiceTargetUpdates s;
     m_nextPing := m_nextPing s; m_timeSinceJoin := m_timeSinceJoin s;
     m_inFlightTcpPings := m_inFlightTcpPings s; m_tcpPing := m_tcpPing s;
     m_udpPing := m_udpPing s; m_connectTimer := m_connectTimer s;
     m_idleTimer := m_idleTimer s; m_positionUpdates := m_positionUpdates s;
     tls_out := tls_out s; udp_out := udp_out s; audio_out := audio_out s |}.

Definition set_m_curManualChannel v (s : MumbleClient) : MumbleClient :=
  {| m_connectionInfo := m_connectionInfo s; m_tlsClient := m_tlsClient s;
     m_crypto := m_crypto s; m_state := m_state s; m_hasUdp := m_hasUdp s;
     m_curManualChannel := v; m_lastManualChannel := m_lastManualChannel s;
     m_curChannelListens := m_curChannelListens s;
     m_lastChannelListens := m_lastChannelListens s;
     m_pendingVoiceTargetUpdates := m_pendingVoiceTargetUpdates s;
     m_nextPing := m_nextPing s; m_timeSinceJoin := m_timeSinceJoin s;
     m_inFlightTcpPings := m_inFlightTcpPings s; m_tcpPing := m_tcpPing s;
     m_udpPing := m_udpPing s; m_connectTimer := m_connectTimer s;
     m_idleTimer := m_idleTimer s; m_positionUpdates := m_positionUpdates s;
     tls_out := tls_out s; udp_out := udp_out s; audio_out := audio_out s |}.

Definition set_m_lastManualChannel v (s : MumbleClient) : MumbleClient :=
  {| m_connectionInfo := m_connectionInfo s; m_tlsClient := m_tlsClient s;
     m_crypto := m_crypto s; m_state := m_state s; m_hasUdp := m_hasUdp s;
     m_curManualChannel := m_curManualChannel s; m_lastManualChannel := v;
     m_curChannelListens := m_curChannelListens s;
     m_lastChannelListens := m_lastChannelListens s;
     m_pendingVoiceTargetUpdates := m_pendingVoiceTargetUpdates s;
     m_nextPing := m_nextPing s; m_timeSinceJoin := m_timeSinceJoin s;
     m_inFlightTcpPings := m_inFlightTcpPings s; m_tcpPing := m_tcpPing s;
     m_udpPing := m_udpPing s; m_connectTimer := m_connectTimer s;
     m_idleTimer := m_idleTimer s; m_positionUpdates := m_positionUpdates s;
     tls_out := tls_out s; udp_out := udp_out s; audio_out := audio_out s |}.

Definition set_m_curChannelListens v (s : MumbleClient) : MumbleClient :=
  {| m_connectionInfo := m_connectionInfo s; m_tlsClient := m_tlsClient s;
     m_crypto := m_crypto s; m_state := m_state s; m_hasUdp := m_hasUdp s;
     m_curManualChannel := m_curManualChannel s;
     m_lastManualChannel := m_lastManualChannel s; m_curChannelListens := v;
     m_lastChannelListens := m_lastChannelListens s;
     m_pendingVoiceTargetUpdates := m_pendingVoiceTargetUpdates s;
     m_nextPing := m_nextPing s; m_timeSinceJoin := m_timeSinceJoin s;
     m_inFlightTcpPings := m_inFlightTcpPings s; m_tcpPing := m_tcpPing s;
     m_udpPing := m_udpPing s; m_connectTimer := m_connectTimer s;
     m_idleTimer := m_idleTimer s; m_positionUpdates := m_positionUpdates s;
     tls_out := tls_out s; udp_out := udp_out s; audio_out := audio_out s |}.

Definition set_m_lastChannelListens v (s : MumbleClient) : MumbleClient :=
  {| m_connectionInfo := m_connectionInfo s; m_tlsClient := m_tlsClient s;
     m_crypto := m_crypto s; m_state := m_state s; m_hasUdp := m_hasUdp s;
     m_curManualChannel := m_curManualChannel s;
     m_lastManualChannel := m_lastManualChannel s;
     m_curChannelListens := m_curChannelListens s; m_lastChannelListens := v;
     m_pendingVoiceTargetUpdates := m_pendingVoiceTargetUpdates s;
     m_nextPing := m_nextPing s; m_timeSinceJoin := m_timeSinceJoin s;
     m_inFlightTcpPings := m_inFlightTcpPings s; m_tcpPing := m_tcpPing s;
     m_udpPing := m_udpPing s; m_connectTimer := m_connectTimer s;
     m_idleTimer := m_idleTimer s; m_positionUpdates := m_positionUpdates s;
     tls_out := tls_out s; udp_out := udp_out s; audio_out := audio_out s |}.

Definition set_m_pendingVoiceTargetUpdates v (s : MumbleClient) : MumbleClient :=
  {| m_connectionInfo := m_connectionInfo s; m_tlsClient := m_tlsClient s;
     m_crypto := m_crypto s; m_state := m_state s; m_hasUdp := m_hasUdp s;
     m_curManualChannel := m_curManualChannel s;
     m_lastManualChannel := m_lastManualChannel s;
     m_curChannelListens := m_curChannelListens s;
     m_lastChannelListens := m_lastChannelListens s;
     m_pendingVoiceTargetUpdates := v; m_nextPing := m_nextPing s;
     m_timeSinceJoin := m_timeSinceJoin s;
     m_inFlightTcpPings := m_inFlightTcpPings s; m_tcpPing := m_tcpPing s;
     m_udpPing := m_udpPing s; m_connectTimer := m_connectTimer s;
     m_idleTimer := m_idleTimer s; m_positionUpdates := m_positionUpdates s;
     tls_out := tls_out s; udp_out := udp_out s; audio_out := audio_out s |}.

Definition set_m_nextPing v (s : MumbleClient) : MumbleClient :=
  {| m_connectionInfo := m_connectionInfo s; m_tlsClient := m_tlsClient s;
     m_crypto := m_crypto s; m_state := m_state s; m_hasUdp := m_hasUdp s;
     m_curManualChannel := m_curManualChannel s;
     m_lastManualChannel := m_lastManualChannel s;
     m_curChannelListens := m_curChannelListens s;
     m_lastChannelListens := m_lastChannelListens s;
     m_pendingVoiceTargetUpdates := m_pendingVoiceTargetUpdates s;
     m_nextPing := v; m_timeSinceJoin := m_timeSinceJoin s;
     m_inFlightTcpPings := m_inFlightTcpPings s; m_tcpPing := m_tcpPing s;
     m_udpPing := m_udpPing s; m_connectTimer := m_connectTimer s;
     m_idleTimer := m_idleTimer s; m_positionUpdates := m_positionUpdates s;
     tls_out := tls_out s; udp_out := udp_out s; audio_out := audio_out s |}.

Definition set_m_inFlightTcpPings v (s : MumbleClient) : MumbleClient :=
  {| m_connectionInfo := m_connectionInfo s; m_tlsClient := m_tlsClient s;
     m_crypto := m_crypto s; m_state := m_state s; m_hasUdp := m_hasUdp s;
     m_curManualChannel := m_curManualChannel s;
     m_lastManualChannel := m_lastManualChannel s;
     m_curChannelListens := m_curChannelListens s;
     m_lastChannelListens := m_lastChannelListens s;
     m_pendingVoiceTargetUpdates := m_pendingVoiceTargetUpdates s;
     m_nextPing := m_nextPing s; m_timeSinceJoin := m_timeSinceJoin s;
     m_inFlightTcpPings := v; m_tcpPing := m_tcpPing s;
     m_udpPing := m_udpPing s; m_connectTimer := m_connectTimer s;
     m_idleTimer := m_idleTimer s; m_positionUpdates := m_positionUpdates s;
     tls_out := tls_out s; udp_out := udp_out s; audio_out := audio_out s |}.

Definition set_m_tcpPing v (s : MumbleClient) : MumbleClient :=
  {| m_connectionInfo := m_connectionInfo s; m_tlsClient := m_tlsClient s;
     m_crypto := m_crypto s; m_state := m_state s; m_hasUdp := m_hasUdp s;
     m_curManualChannel := m_curManualChannel s;
     m_lastManualChannel := m_lastManualChannel s;
     m_curChannelListens := m_curChannelListens s;
     m_lastChannelListens := m_lastChannelListens s;
     m_pendingVoiceTargetUpdates := m_pendingVoiceTargetUpdates s;
     m_nextPing := m_nextPing s; m_timeSinceJoin := m_timeSinceJoin s;
     m_inFlightTcpPings := m_inFlightTcpPings s; m_tcpPing := v;
     m_udpPing := m_udpPing s; m_connectTimer := m_connectTimer s;
     m_idleTimer := m_idleTimer s; m_positionUpdates := m_positionUpdates s;
     tls_out := tls_out s; udp_out := udp_out s; audio_out := audio_out s |}.

Definition set_m_udpPing v (s : MumbleClient) : MumbleClient :=
  {| m_connectionInfo := m_connectionInfo s; m_tlsClient := m_tlsClient s;
     m_crypto := m_crypto s; m_state := m_state s; m_hasUdp := m_hasUdp s;
     m_curManualChannel := m_curManualChannel s;
     m_lastManualChannel := m_lastManualChannel s;
     m_curChannelListens := m_curChannelListens s;
     m_lastChannelListens := m_lastChannelListens s;
     m_pendingVoiceTargetUpdates := m_pendingVoiceTargetUpdates s;
     m_nextPing := m_nextPing s; m_timeSinceJoin := m_timeSinceJoin s;
     m_inFlightTcpPings := m_inFlightTcpPings s; m_tcpPing := m_tcpPing s;
     m_udpPing := v; m_connectTimer := m_connectTimer s;
     m_idleTimer := m_idleTimer s; m_positionUpdates := m_positionUpdates s;
     tls_out := tls_out s; udp_out := udp_out s; audio_out := audio_out s |}.

Definition set_m_connectTimer v (s : MumbleClient) : MumbleClient :=
  {| m_connectionInfo := m_connectionInfo s; m_tlsClient := m_tlsClient s;
     m_crypto := m_crypto s; m_state := m_state s; m_hasUdp := m_hasUdp s;
     m_curManualChannel := m_curManualChannel s;
     m_lastManualChannel := m_lastManualChannel s;
     m_curChannelListens := m_curChannelListens s;
     m_lastChannelListens := m_lastChannelListens s;
     m_pendingVoiceTargetUpdates := m_pendingVoiceTargetUpdates s;
     m_nextPing := m_nextPing s; m_timeSinceJoin := m_timeSinceJoin s;
     m_inFlightTcpPings := m_inFlightTcpPings s; m_tcpPing := m_tcpPing s;
     m_udpPing := m_udpPing s; m_connectTimer := v;
     m_idleTimer := m_idleTimer s; m_positionUpdates := m_positionUpdates s;
     tls_out := tls_out s; udp_out := udp_out s; audio_out := audio_out s |}.

Definition set_m_idleTimer v (s : MumbleClient) : MumbleClient :=
  {| m_connectionInfo := m_connectionInfo s; m_tlsClient := m_tlsClient s;
     m_crypto := m_crypto s; m_state := m_state s; m_hasUdp := m_hasUdp s;
     m_curManualChannel := m_curManualChannel s;
     m_lastManualChannel := m_lastManualChannel s;
     m_curChannelListens := m_curChannelListens s;
     m_lastChannelListens := m_lastChannelListens s;
     m_pendingVoiceTargetUpdates := m_pendingVoiceTargetUpdates s;
     m_nextPing := m_nextPing s; m_timeSinceJoin := m_timeSinceJoin s;
     m_inFlightTcpPings := m_inFlightTcpPings s; m_tcpPing := m_tcpPing s;
     m_udpPing := m_udpPing s; m_connectTimer := m_connectTimer s;
     m_idleTimer := v; m_positionUpdates := m_positionUpdates s;
     tls_out := tls_out s; udp_out := udp_out s; audio_out := audio_out s |}.

Definition set_m_positionUpdates v (s : MumbleClient) : MumbleClient :=
  {| m_connectionInfo := m_connectionInfo s; m_tlsClient := m_tlsClient s;
     m_crypto := m_crypto s; m_state := m_state s; m_hasUdp := m_hasUdp s;
     m_curManualChannel := m_curManualChannel s;
     m_lastManualChannel := m_lastManualChannel s;
     m_curChannelListens := m_curChannelListens s;
     m_lastChannelListens := m_lastChannelListens s;
     m_pendingVoiceTargetUpdates := m_pendingVoiceTargetUpdates s;
     m_nextPing := m_nextPing s; m_timeSinceJoin := m_timeSinceJoin s;
     m_inFlightTcpPings := m_inFlightTcpPings s; m_tcpPing := m_tcpPing s;
     m_udpPing := m_udpPing s; m_connectTimer := m_connectTimer s;
     m_idleTimer := m_idleTimer s; m_positionUpdates := v;
     tls_out := tls_out s; udp_out := udp_out s; audio_out := audio_out s |}.

Definition set_tls_out v (s : MumbleClient) : MumbleClient :=
  {| m_connectionInfo := m_connectionInfo s; m_tlsClient := m_tlsClient s;
     m_crypto := m_crypto s; m_state := m_state s; m_hasUdp := m_hasUdp s;
     m_curManualChannel := m_curManualChannel s;
     m_lastManualChannel := m_lastManualChannel s;
     m_curChannelListens := m_curChannelListens s;
     m_lastChannelListens := m_lastChannelListens s;
     m_pendingVoiceTargetUpdates := m_pendingVoiceTargetUpdates s;
     m_nextPing := m_nextPing s; m_timeSinceJoin := m_timeSinceJoin s;
     m_inFlightTcpPings := m_inFlightTcpPings s; m_tcpPing := m_tcpPing s;
     m_udpPing := m_udpPing s; m_connectTimer := m_connectTimer s;
     m_idleTimer := m_idleTimer s; m_positionUpdates := m_positionUpdates s;
     tls_out := v; udp_out := udp_out s; audio_out := audio_out s |}.

Definition set_udp_out v (s : MumbleClient) : MumbleClient :=
  {| m_connectionInfo := m_connectionInfo s; m_tlsClient := m_tlsClient s;
     m_crypto := m_crypto s; m_state := m_state s; m_hasUdp := m_hasUdp s;
     m_curManualChannel := m_curManualChannel s;
     m_lastManualChannel := m_lastManualChannel s;
     m_curChannelListens := m_curChannelListens s;
     m_lastChannelListens := m_lastChannelListens s;
     m_pendingVoiceTargetUpdates := m_pendingVoiceTargetUpdates s;
     m_nextPing := m_nextPing s; m_timeSinceJoin := m_timeSinceJoin s;
     m_inFlightTcpPings := m_inFlightTcpPings s; m_tcpPing := m_tcpPing s;
     m_udpPing := m_udpPing s; m_connectTimer := m_connectTimer s;
     m_idleTimer := m_idleTimer s; m_positionUpdates := m_positionUpdates s;
     tls_out := tls_out s; udp_out := v; audio_out := audio_out s |}.

Definition set_audio_out v (s : MumbleClient) : MumbleClient :=
  {| m_connectionInfo := m_connectionInfo s; m_tlsClient := m_tlsClient s;
     m_crypto := m_crypto s; m_state := m_state s; m_hasUdp := m_hasUdp s;
     m_curManualChannel := m_curManualChannel s;
     m_lastManualChannel := m_lastManualChannel s;
     m_curChannelListens := m_curChannelListens s;
     m_lastChannelListens := m_lastChannelListens s;
     m_pendingVoiceTargetUpdates := m_pendingVoiceTargetUpdates s;
     m_nextPing := m_nextPing s; m_timeSinceJoin := m_timeSinceJoin s;
     m_inFlightTcpPings := m_inFlightTcpPings s; m_tcpPing := m_tcpPing s;
     m_udpPing := m_udpPing s; m_connectTimer := m_connectTimer s;
     m_idleTimer := m_idleTimer s; m_positionUpdates := m_positionUpdates s;
     tls_out := tls_out s; udp_out := udp_out s; audio_out := v |}.

Definition set_isConnected (c g : bool) (i : MumbleConnectionInfo)
  : MumbleConnectionInfo :=
  {| isConnected := c; isConnecting := g; addressFamily := addressFamily i |}.

Definition set_remote (g l o r : Z) (c : MumbleCrypto) : MumbleCrypto :=
  {| m_init := m_init c;
     m_localGood := m_localGood c; m_localLate := m_localLate c;
     m_localLost := m_localLost c; m_localResync := m_localResync c;
     m_remoteGood := g; m_remoteLate := l;
     m_remoteLost := o; m_remoteResync := r;
     m_lastGoodUdp := m_lastGoodUdp c |}.

Definition set_m_lastGoodUdp (t : Z) (c : MumbleCrypto) : MumbleCrypto :=
  {| m_init := m_init c;
     m_localGood := m_localGood c; m_localLate := m_localLate c;
     m_localLost := m_localLost c; m_localResync := m_localResync c;
     m_remoteGood := m_remoteGood c; m_remoteLate := m_remoteLate c;
     m_remoteLost := m_remoteLost c; m_remoteResync := m_remoteResync c;
     m_lastGoodUdp := t |}.

(** ** Collaborators that are not part of this file

    [MumbleCrypto::Encrypt] and [MumbleCrypto::Decrypt] (the OCB cipher) and
    the integer and float codecs of [PacketDataStream] are used through
    their interfaces. [Encrypt] returns what it wrote to the output buffer;
    [Decrypt] returns the plaintext it wrote, or nothing when it returns
    [false]; both return the crypto state they leave behind. The codecs
    return the value read and the bytes left. *)

Class CryptoOps := {
  Encrypt : MumbleCrypto -> list Byte.byte -> list Byte.byte * MumbleCrypto;
  Decrypt : MumbleCrypto -> Z -> list Byte.byte ->
            option (list Byte.byte) * MumbleCrypto
}.

Class PacketDataStreamOps := {
  pds_put_u64 : Z -> list Byte.byte;
  pds_get_u64 : list Byte.byte -> Z * list Byte.byte;
  pds_get_float : list Byte.byte -> Z * list Byte.byte
}.

(** Modelled from the spec: [PacketDataStream::next8] is declared in
    PacketDataStream.h, which is not under src/. A read past the end
    returns zero and advances nothing. *)
Definition pds_next8 (p : list Byte.byte) : Z * list Byte.byte :=
  match p with
  | [] => (0, [])
  | b :: r => (Z.of_N (Byte.to_N b), r)
  end.

(** [MumbleCrypto::IsInitialized] *)
Definition IsInitialized (c : MumbleCrypto) : bool := m_init c.

(** ** Buffers and arrays *)

Definition is_nil {A} (l : list A) : bool :=
  match l with
  | [] => true
  | _ => false
  end.

Fixpoint ztake {A} (n : Z) (l : list A) : list A :=
  match l with
  | [] => []
  | x :: r => if n <=? 0 then [] else x :: ztake (n - 1) r
  end.

Fixpoint zskip {A} (n : Z) (l : list A) : list A :=
  match l with
  | [] => []
  | x :: r => if n <=? 0 then l else zskip (n - 1) r
  end.

(** [a[i]] and [a[i] = v] on an array; an index outside the array reads 0
    and writes nothing (the source never makes one when the array is not
    empty). *)
Definition array_get (a : list Z) (i : Z) : Z :=
  if i <? 0 then 0 else nth (Z.to_nat i) a 0.

Fixpoint array_set (a : list Z) (i : Z) (v : Z) : list Z :=
  match a with
  | [] => []
  | x :: r => if i =? 0 then v :: r else x :: array_set r (i - 1) v
  end.

(** The indices [lo, lo+1, ..., lo+n-1] of a [for] loop. *)
Fixpoint indices (lo : Z) (n : nat) : list Z :=
  match n with
  | O => []
  | S k => lo :: indices (lo + 1) k
  end.

(** ** Ping statistics

    The code shared by the UDP ping branch of [HandleVoice] and by
    [HandlePing], from "which ping this is in the history list" on; the
    count has been incremented by the caller. The count and the array
    elements are declared in MumbleClientImpl.h, which is not under src/;
    they are taken as [uint32_t], the type of [avgCount]. The average and
    the variance are the exact rationals that the expressions denote: the
    code holds them in [float] and rounds each of them to binary32 (100/3
    here is 33.3333321 there). *)
Definition store_ping (timeDelta : Z) (st : PingStats) : PingStats :=
  let countof := size_of (pings st) in
  let thisPing0 := u32 (pingCount st - 1) in
  (* move pings down *)
  let moved := thisPing0 >=? countof in
  let pings1 :=
    if moved
    then fold_left (fun a i => array_set a (i - 1) (array_get a i))
                   (indices 1 (Z.to_nat (countof - 1))) (pings st)
    else pings st in
  let thisPing := if moved then u64 (countof - 1) else thisPing0 in
  (* store this ping *)
  let pings2 := array_set pings1 thisPing (u32 timeDelta) in
  (* calculate average *)
  let range := indices 0 (Z.to_nat thisPing) in
  let avgCount :=
    fold_left (fun acc i => u32 (acc + array_get pings2 i)) range 0 in
  let average := (inject_Z avgCount / inject_Z (thisPing + 1))%Q in
  (* calculate variance *)
  let varianceCount :=
    fold_left (fun acc i =>
                 let var := (inject_Z (array_get pings2 i) - average)%Q in
                 (acc + var * var)%Q) range 0%Q in
  let variance := (varianceCount / inject_Z (thisPing + 1))%Q in
  {| pingAverage := average; pingVariance := variance;
     pingCount := pingCount st; pings := pings2 |}.

Definition bump_count (st : PingStats) : PingStats :=
  {| pingAverage := pingAverage st; pingVariance := pingVariance st;
     pingCount := u32 (pingCount st + 1); pings := pings st |}.

(** ** Sending on the control channel *)

(** [void MumbleClient::Send(const char* buf, size_t size)] *)
Definition Send (w : TlsWrite) (s : MumbleClient) : option MumbleClient :=
  if negb (isConnected (m_connectionInfo s)) then Some s
  else
    match m_tlsClient s with
    | None => None
    | Some tls =>
        if is_active tls then Some (set_tls_out (tls_out s ++ [w]) s)
        else Some s
    end.

(** [void MumbleClient::Send(MumbleMessageType type, const char* buf,
    size_t size)]: the header, then the payload. *)
Definition Send_typed (type : MumbleMessageType.t) (p : Payload)
    (s : MumbleClient) : option MumbleClient :=
  do s1 <- Send (WHeader type p) s;
  Send (WPayload p) s1.

(** The overload of [Send] that takes a protocol buffer serialises it and
    forwards to [Send_typed]. *)
Definition Send_proto (type : MumbleMessageType.t) (m : MumbleProto.Message)
    (s : MumbleClient) : option MumbleClient :=
  Send_typed type (Proto m) s.

(** ** The state store *)

Definition channel_named (n : string) (chs : list (Z * MumbleChannel))
  : option (Z * MumbleChannel) :=
  find (fun ch => String.eqb (ch_name (snd ch)) n) chs.

Definition channel_by_id (i : Z) (chs : list (Z * MumbleChannel))
  : option (Z * MumbleChannel) :=
  find (fun ch => fst ch =? i) chs.

Definition GetUser (session : Z) (st : MumbleClientState) : option MumbleUser :=
  find (fun u => user_session u =? session) (st_users st).

(** ** The public operations on the desired state *)

Definition SetChannel (channelName : string) (s : MumbleClient) : MumbleClient :=
  if negb (isConnected (m_connectionInfo s)) then s
  else if String.eqb channelName (m_curManualChannel s) then s
  else set_m_curManualChannel channelName s.

Definition AddListenChannel (channelName : string) (s : MumbleClient)
  : MumbleClient :=
  set_m_curChannelListens (set_insert channelName (m_curChannelListens s)) s.

Definition RemoveListenChannel (channelName : string) (s : MumbleClient)
  : MumbleClient :=
  set_m_curChannelListens (set_erase channelName (m_curChannelListens s)) s.

Definition UpdateVoiceTarget (idx : Z) (config : VoiceTargetConfig)
    (s : MumbleClient) : MumbleClient :=
  set_m_pendingVoiceTargetUpdates
    (map_assign idx config (m_pendingVoiceTargetUpdates s)) s.

Section Handlers.

Context {crypto_ops : CryptoOps} {pds_ops : PacketDataStreamOps}.

(** ** The UDP voice path *)

(** [void MumbleClient::SendUDP(const char* buf, size_t size)]. The send
    is queued on the loop with the length [size + 4]. *)
Definition SendUDP (buf : list Byte.byte) (s : MumbleClient) : MumbleClient :=
  let size := size_of buf in
  if negb (IsInitialized (m_crypto s)) then s
  else if size >? kMaxUdpPacket then s
  else
    let '(outBuf, crypto') := Encrypt (m_crypto s) buf in
    set_udp_out (udp_out s ++ [{| dg_buf := outBuf; dg_len := size + 4 |}])
                (set_m_crypto crypto' s).

(** [void MumbleClient::SendVoice(const char* buf, size_t size)] *)
Definition SendVoice (buf : list Byte.byte) (s : MumbleClient)
  : option MumbleClient :=
  if negb (m_hasUdp s) then Send_typed MumbleMessageType.UDPTunnel (Raw buf) s
  else Some (SendUDP buf s).

(** The Opus branch of [HandleVoice], after the header and the two
    varints have been read: [p2] is what is left of the stream. *)
Definition HandleVoice_opus (sessionId sequenceNumber : Z)
    (p2 : list Byte.byte) (s : MumbleClient) : MumbleClient :=
  match GetUser (u32 sessionId) (m_state s) with
  | None => s
  | Some user =>
      let '(packetLength, p3) := pds_get_u64 p2 in
      let hasTerminator := negb (Z.land packetLength 0x2000 =? 0) in
      let len := Z.land packetLength 0x1FFF in
      let '(s1, p4) :=
        if len >? size_of p3 then (s, p3)
        else
          let bytes := ztake len p3 in
          let p4 := zskip len p3 in
          if is_nil bytes then (s, p4)
          else
            (set_audio_out
               (audio_out s ++
                [HandleClientVoiceData user sequenceNumber bytes hasTerminator])
               s, p4) in
      if size_of p4 >=? 12 then
        let '(pos0, q0) := pds_get_float p4 in
        let '(pos1, q1) := pds_get_float q0 in
        let '(pos2, q2) := pds_get_float q1 in
        let s2 :=
          set_m_positionUpdates
            (m_positionUpdates s1 ++ [(sessionId, (pos0, pos1, pos2))]) s1 in
        if size_of q2 >=? 4 then
          let '(distance, _) := pds_get_float q2 in
          set_audio_out (audio_out s2 ++ [HandleClientDistance user distance]) s2
        else s2
      else s1
  end.

(** [void MumbleClient::HandleVoice(const uint8_t* data, size_t size)] *)
Definition HandleVoice (now : Z) (data : list Byte.byte) (s : MumbleClient)
  : MumbleClient :=
  let '(header, p0) := pds_next8 data in
  if Z.shiftr header 5 =? 1 then
    (* ping *)
    let '(timestamp, _) := pds_get_u64 p0 in
    let timeDelta := u64 (now - timestamp) in
    set_m_udpPing (store_ping timeDelta (bump_count (m_udpPing s))) s
  else
    let '(sessionId, p1) := pds_get_u64 p0 in
    let '(sequenceNumber, p2) := pds_get_u64 p1 in
    if negb (Z.shiftr header 5 =? 4) then s
    else HandleVoice_opus sessionId sequenceNumber p2 s.

(** [void MumbleClient::HandleUDP(const uint8_t* buf, size_t size)] *)
Definition HandleUDP (now : Z) (buf : list Byte.byte) (s : MumbleClient)
  : option MumbleClient :=
  let size := size_of buf in
  if negb (IsInitialized (m_crypto s)) then Some s
  else if size >? kMaxUdpPacket then Some s
  else
    let '(outBuf, crypto') := Decrypt (m_crypto s) now buf in
    let s1 := set_m_crypto crypto' s in
    match outBuf with
    | None =>
        if now - m_lastGoodUdp crypto' >? kPingInterval then
          Send_proto MumbleMessageType.CryptSetup MumbleProto.MCryptSetup
                     (set_m_crypto (set_m_lastGoodUdp now crypto') s1)
        else Some s1
    | Some plain =>
        Some (HandleVoice now (ztake (u64 (size - 4)) plain) s1)
    end.

(** ** Pings from the server *)

(** [void MumbleClient::HandlePing(const MumbleProto::Ping& ping)] *)
Definition HandlePing (now : Z) (ping : MumbleProto.Ping) (s : MumbleClient)
  : MumbleClient :=
  let s0 := set_m_inFlightTcpPings 0 s in
  let s1 :=
    if IsInitialized (m_crypto s0) then
      let c :=
        set_remote (MumbleProto.good ping) (MumbleProto.late ping)
                   (MumbleProto.lost ping) (MumbleProto.resync ping)
                   (m_crypto s0) in
      let s' := set_m_crypto c s0 in
      if m_hasUdp s'
         && ((m_remoteGood c =? 0) || (m_localGood c =? 0))
         && (now - m_timeSinceJoin s' >? k20s)
      then set_m_hasUdp false s'
      else if negb (m_hasUdp s') && (m_remoteGood c >? 3) && (m_localGood c >? 3)
      then set_m_hasUdp true s'
      else s'
    else s0 in
  let counted := bump_count (m_tcpPing s1) in
  match MumbleProto.timestamp ping with
  | Some ts => set_m_tcpPing (store_ping (u64 (now - ts)) counted) s1
  | None => set_m_tcpPing counted s1
  end.

(** ** The idle timer: the reconciler tick *)

Definition lockedIsActive (s : MumbleClient) : bool :=
  match m_tlsClient s with
  | Some tls => is_active tls
  | None => false
  end && isConnected (m_connectionInfo s).

(** Channel reconciliation (the first block of the active branch): the
    message of the loop over the channels and of the [if (!existed)] that
    follows it. *)
Definition joinOrCreate (st : MumbleClientState) (channelName : string)
  : MumbleMessageType.t * MumbleProto.Message :=
  match channel_named channelName (st_channels st) with
  | Some (cid, _) =>
      (MumbleMessageType.UserState,
       MumbleProto.MUserState
         {| MumbleProto.session := st_session st;
            MumbleProto.channel_id := Some cid;
            MumbleProto.listening_channel_add := [];
            MumbleProto.listening_channel_remove := [] |})
  | None =>
      (MumbleMessageType.ChannelState,
       MumbleProto.MChannelState
         {| MumbleProto.parent := 0;
            MumbleProto.name := channelName;
            MumbleProto.temporary := true |})
  end.

Definition reconcileChannel (s : MumbleClient) : option MumbleClient :=
  if negb (String.eqb (m_curManualChannel s) (m_lastManualChannel s))
     && negb (is_nil (st_channels (m_state s)))
  then
    let s1 := set_m_lastManualChannel (m_curManualChannel s) s in
    let '(type, msg) := joinOrCreate (m_state s1) (m_curManualChannel s1) in
    Send_proto type msg s1
  else Some s.

(** The lambda [findCh]: the id of the first channel with that name, or
    [uint32_t(-1)]. *)
Definition findCh (st : MumbleClientState) (ch : string) : Z :=
  match channel_named ch (st_channels st) with
  | Some (cid, _) => cid
  | None => u32 (-1)
  end.

(** The loop over [removeChannelListens]: the ids collected and what is
    left of [m_lastChannelListens]. *)
Definition removeLoop (st : MumbleClientState) (names : list string)
    (last : StrSet) : list Z * StrSet :=
  fold_left
    (fun (acc : list Z * StrSet) remove =>
       let ch := findCh st remove in
       ((if negb (ch =? u32 (-1)) then fst acc ++ [int_of_u32 ch] else fst acc),
        set_erase remove (snd acc)))
    names ([], last).

(** The loop over [addChannelListens]. *)
Definition addLoop (st : MumbleClientState) (names : list string)
    (last : StrSet) : list Z * StrSet :=
  fold_left
    (fun (acc : list Z * StrSet) add =>
       let ch := findCh st add in
       if negb (ch =? u32 (-1))
       then (fst acc ++ [int_of_u32 ch], set_insert add (snd acc))
       else acc)
    names ([], last).

(** The two differences and the two loops: [addChannelListenIds],
    [removeChannelListenIds] and the new [m_lastChannelListens]. *)
Definition listenDeltas (st : MumbleClientState) (cur last : StrSet)
  : list Z * list Z * StrSet :=
  let removeChannelListens := set_difference last cur in
  let addChannelListens := set_difference cur last in
  let removed := removeLoop st removeChannelListens last in
  let added := addLoop st addChannelListens (snd removed) in
  (fst added, fst removed, snd added).

Definition listenMessage (st : MumbleClientState) (addIds removeIds : list Z)
  : MumbleProto.Message :=
  MumbleProto.MUserState
    {| MumbleProto.session := st_session st;
       MumbleProto.channel_id := None;
       MumbleProto.listening_channel_add := map u32 addIds;
       MumbleProto.listening_channel_remove := map u32 removeIds |}.

(** Listen-channel reconciliation (the second block). *)
Definition reconcileListens (s : MumbleClient) : option MumbleClient :=
  let '(addChannelListenIds, removeChannelListenIds, last') :=
    listenDeltas (m_state s) (m_curChannelListens s) (m_lastChannelListens s) in
  let s1 := set_m_lastChannelListens last' s in
  if negb (is_nil addChannelListenIds) || negb (is_nil removeChannelListenIds)
  then
    Send_proto MumbleMessageType.UserState
      (listenMessage (m_state s1) addChannelListenIds removeChannelListenIds) s1
  else Some s1.

(** The message built for one entry of [m_pendingVoiceTargetUpdates]. *)
Definition voiceTargetFor (st : MumbleClientState) (idx : Z)
    (config : VoiceTargetConfig) : MumbleProto.VoiceTarget :=
  let vt :=
    {| MumbleProto.vt_session :=
         flat_map
           (fun userName =>
              map user_session
                  (filter (fun u => String.eqb (user_name u) userName)
                          (st_users st)))
           (users config);
       MumbleProto.vt_channel_id := None |} in
  let perChannel :=
    flat_map
      (fun channelName =>
         map (fun ch => {| MumbleProto.vt_session := [];
                           MumbleProto.vt_channel_id := Some (fst ch) |})
             (filter (fun ch => String.eqb (ch_name (snd ch)) channelName)
                     (st_channels st)))
      (channels config) in
  {| MumbleProto.id := u32 idx; MumbleProto.targets := vt :: perChannel |}.

Fixpoint sendVoiceTargets (entries : list (Z * VoiceTargetConfig))
    (s : MumbleClient) : option MumbleClient :=
  match entries with
  | [] => Some s
  | (idx, config) :: rest =>
      do s1 <- Send_proto MumbleMessageType.VoiceTarget
                 (MumbleProto.MVoiceTarget (voiceTargetFor (m_state s) idx config))
                 s;
      sendVoiceTargets rest s1
  end.

(** Pending voice-target flush (the third block). *)
Definition flushVoiceTargets (s : MumbleClient) : option MumbleClient :=
  do s1 <- sendVoiceTargets (m_pendingVoiceTargetUpdates s) s;
  Some (set_m_pendingVoiceTargetUpdates [] s1).

(** Self-channel tracking: the name the block stores in
    [m_lastManualChannel], when it stores one. *)
Definition selfChannelName (st : MumbleClientState) : option string :=
  match GetUser (st_session st) st with
  | Some self =>
      match channel_by_id (user_channelId self) (st_channels st) with
      | Some (_, ch) =>
          if negb (String.eqb (ch_name ch) EmptyString)
          then Some (ch_name ch)
          else None
      | None => None
      end
  | None => None
  end.

Definition trackSelfChannel (s : MumbleClient) : MumbleClient :=
  match selfChannelName (m_state s) with
  | Some name => set_m_lastManualChannel name s
  | None => s
  end.

Definition pingMessage (now : Z) (s : MumbleClient) : MumbleProto.Ping :=
  {| MumbleProto.timestamp := Some (u64 now);
     MumbleProto.good := m_localGood (m_crypto s);
     MumbleProto.late := m_localLate (m_crypto s);
     MumbleProto.lost := m_localLost (m_crypto s);
     MumbleProto.resync := m_localResync (m_crypto s);
     MumbleProto.tcp_ping_avg := pingAverage (m_tcpPing s);
     MumbleProto.tcp_ping_var := pingVariance (m_tcpPing s);
     MumbleProto.tcp_packets := pingCount (m_tcpPing s);
     MumbleProto.udp_ping_avg := pingAverage (m_udpPing s);
     MumbleProto.udp_ping_var := pingVariance (m_udpPing s);
     MumbleProto.udp_packets := pingCount (m_udpPing s) |}.

(** Ping cadence (the last block). [m_inFlightTcpPings] is declared in
    MumbleClientImpl.h, which is not under src/; it is taken as
    [uint32_t]. *)
Definition pingCadence (now : Z) (s : MumbleClient) : option MumbleClient :=
  if now >? m_nextPing s then
    let s1 :=
      if (m_inFlightTcpPings s >=? 4) && (now - m_timeSinceJoin s >? k20s)
      then set_m_connectionInfo
             (set_isConnected false false (m_connectionInfo s)) s
      else s in
    let s2 := set_m_inFlightTcpPings (u32 (m_inFlightTcpPings s1 + 1)) s1 in
    do s3 <- Send_proto MumbleMessageType.Ping
               (MumbleProto.MPing (pingMessage now s2)) s2;
    let s4 := SendUDP (Byte.x20 :: pds_put_u64 (u64 now)) s3 in
    Some (set_m_nextPing (now + kPingInterval) s4)
  else Some s.

(** The [uvw::TimerEvent] handler of [m_idleTimer]. *)
Definition idleTimerEvent (now : Z) (s : MumbleClient) : option MumbleClient :=
  if lockedIsActive s then
    do s1 <- reconcileChannel s;
    do s2 <- reconcileListens s1;
    do s3 <- flushVoiceTargets s2;
    pingCadence now (trackSelfChannel s3)
  else if negb (addressFamily (m_connectionInfo s) =? 0) then
    Some (set_m_idleTimer false (set_m_connectTimer (Some 2500) s))
  else Some s.

End Handlers.

(** ** Observations on the logs and on runs of handlers *)

Definition frame_of (type : MumbleMessageType.t) (p : Payload) : list TlsWrite :=
  [WHeader type p; WPayload p].

(** The protocol buffers among the payloads written to the TLS session. *)
Definition messages (l : list TlsWrite) : list MumbleProto.Message :=
  flat_map (fun w => match w with
                     | WPayload (Proto m) => [m]
                     | _ => []
                     end) l.

(** What was written between [s] and a later [s']. *)
Definition written (s s' : MumbleClient) : list TlsWrite :=
  skipn (List.length (tls_out s)) (tls_out s').

Definition emitted (s s' : MumbleClient) : list MumbleProto.Message :=
  messages (written s s').

(** What was queued on the UDP socket between [s] and a later [s']. *)
Definition datagrams (s s' : MumbleClient) : list Datagram :=
  skipn (List.length (udp_out s)) (udp_out s').

(** A [UserState] that moves the session to a channel, or a [ChannelState]:
    the messages of the channel reconciliation. *)
Definition is_channelMove (m : MumbleProto.Message) : bool :=
  match m with
  | MumbleProto.MUserState u =>
      match MumbleProto.channel_id u with
      | Some _ => true
      | None => false
      end
  | MumbleProto.MChannelState _ => true
  | _ => false
  end.

(** A [UserState] without a channel id: the message of the listen-channel
    reconciliation. *)
Definition is_listenUpdate (m : MumbleProto.Message) : bool :=
  match m with
  | MumbleProto.MUserState u =>
      match MumbleProto.channel_id u with
      | Some _ => false
      | None => true
      end
  | _ => false
  end.

Definition voiceTargets (l : list MumbleProto.Message)
  : list MumbleProto.VoiceTarget :=
  flat_map (fun m => match m with
                     | MumbleProto.MVoiceTarget v => [v]
                     | _ => []
                     end) l.

Definition is_cryptSetup (m : MumbleProto.Message) : bool :=
  match m with
  | MumbleProto.MCryptSetup => true
  | _ => false
  end.

(** The number of steps from [true] to [false] along a trace of a flag that
    starts at [prev]. *)
Fixpoint falls (prev : bool) (l : list bool) : nat :=
  match l with
  | [] => O
  | b :: r => ((if prev && negb b then 1 else 0) + falls b r)%nat
  end.

(** The states after each of a run of server pings, given with the time at
    which each is handled. *)
Fixpoint runPings (evs : list (Z * MumbleProto.Ping)) (s : MumbleClient)
  : list MumbleClient :=
  match evs with
  | [] => []
  | (t, p) :: r => let s' := HandlePing t p s in s' :: runPings r s'
  end.

(** A name resolves when [findCh] returns something else than its
    [uint32_t(-1)]. *)
Definition resolves (st : MumbleClientState) (ch : string) : bool :=
  negb (findCh st ch =? u32 (-1)).

Section Runs.

Context {crypto_ops : CryptoOps} {pds_ops : PacketDataStreamOps}.

(** The states after each of a run of idle-timer events with no other
    event in between. *)
Fixpoint runTicks (ts : list Z) (s : MumbleClient) : list MumbleClient :=
  match ts with
  | [] => []
  | t :: r =>
      match idleTimerEvent t s with
      | Some s' => s' :: runTicks r s'
      | None => []
      end
  end.

(** Every datagram of the run fails to decrypt when it is handled. *)
Fixpoint allFail (evs : list (Z * list Byte.byte)) (s : MumbleClient) : Prop :=
  match evs with
  | [] => True
  | (t, buf) :: r =>
      fst (Decrypt (m_crypto s) t buf) = None /\
      match HandleUDP t buf s with
      | Some s' => allFail r s'
      | None => True
      end
  end.

(** The times at which a run of datagrams made the client write a
    [CryptSetup], one entry per message. *)
Fixpoint cryptSetupTimes (evs : list (Z * list Byte.byte)) (s : MumbleClient)
  : list Z :=
  match evs with
  | [] => []
  | (t, buf) :: r =>
      match HandleUDP t buf s with
      | Some s' =>
          map (fun _ => t) (filter is_cryptSetup (emitted s s'))
          ++ cryptSetupTimes r s'
      | None => []
      end
  end.

End Runs.

(** ** What an active tick writes and leaves behind

    The effect of [idleTimerEvent] on a client whose TLS session is active
    and which is connected, block by block. *)

Definition channelDue (s : MumbleClient) : bool :=
  negb (String.eqb (m_curManualChannel s) (m_lastManualChannel s))
  && negb (is_nil (st_channels (m_state s))).

Definition channelWrites (s : MumbleClient) : list TlsWrite :=
  if channelDue s then
    frame_of (fst (joinOrCreate (m_state s) (m_curManualChannel s)))
             (Proto (snd (joinOrCreate (m_state s) (m_curManualChannel s))))
  else [].

Definition listenWrites (st : MumbleClientState) (cur last : StrSet)
  : list TlsWrite :=
  let d := listenDeltas st cur last in
  if negb (is_nil (fst (fst d))) || negb (is_nil (snd (fst d)))
  then frame_of MumbleMessageType.UserState
                (Proto (listenMessage st (fst (fst d)) (snd (fst d))))
  else [].

Definition voiceTargetWrites (st : MumbleClientState)
    (pending : list (Z * VoiceTargetConfig)) : list TlsWrite :=
  flat_map
    (fun e => frame_of MumbleMessageType.VoiceTarget
                (Proto (MumbleProto.MVoiceTarget
                          (voiceTargetFor st (fst e) (snd e)))))
    pending.

Definition pingDue (now : Z) (s : MumbleClient) : bool := now >? m_nextPing s.

Definition pingTimedOut (now : Z) (s : MumbleClient) : bool :=
  (m_inFlightTcpPings s >=? 4) && (now - m_timeSinceJoin s >? k20s).

Definition pingWrites (now : Z) (s : MumbleClient) : list TlsWrite :=
  if pingDue now s && negb (pingTimedOut now s)
  then frame_of MumbleMessageType.Ping
                (Proto (MumbleProto.MPing (pingMessage now s)))
  else [].

Record ActiveTick (now : Z) (s s' : MumbleClient) : Prop := {
  tick_tlsClient : m_tlsClient s' = m_tlsClient s;
  tick_state : m_state s' = m_state s;
  tick_curManualChannel : m_curManualChannel s' = m_curManualChannel s;
  tick_curChannelListens : m_curChannelListens s' = m_curChannelListens s;
  tick_timeSinceJoin : m_timeSinceJoin s' = m_timeSinceJoin s;
  tick_lastManualChannel :
    m_lastManualChannel s'
    = match selfChannelName (m_state s) with
      | Some name => name
      | None => if channelDue s then m_curManualChannel s
                else m_lastManualChannel s
      end;
  tick_lastChannelListens :
    m_lastChannelListens s'
    = snd (listenDeltas (m_state s) (m_curChannelListens s)
                        (m_lastChannelListens s));
  tick_pending : m_pendingVoiceTargetUpdates s' = [];
  tick_isConnected :
    isConnected (m_connectionInfo s')
    = negb (pingDue now s && pingTimedOut now s);
  tick_inFlight :
    m_inFlightTcpPings s'
    = if pingDue now s then u32 (m_inFlightTcpPings s + 1)
      else m_inFlightTcpPings s;
  tick_nextPing :
    m_nextPing s' = if pingDue now s then now + kPingInterval else m_nextPing s;
  tick_tls_out :
    tls_out s'
    = tls_out s ++ channelWrites s
      ++ listenWrites (m_state s) (m_curChannelListens s) (m_lastChannelListens s)
      ++ voiceTargetWrites (m_state s) (m_pendingVoiceTargetUpdates s)
      ++ pingWrites now s
}.

(** Every tick of the run finds its ping due: it comes after the
    [m_nextPing] that the tick before it, or the starting state, has set. *)
Fixpoint pingEligible (nextPing : Z) (ts : list Z) : Prop :=
  match ts with
  | [] => True
  | t :: r => t > nextPing /\ pingEligible (t + kPingInterval) r
  end.

Definition connected (s : MumbleClient) : bool :=
  isConnected (m_connectionInfo s).

(** The channel ids of the store are [uint32_t] values. *)
Definition store_ok (st : MumbleClientState) : Prop :=
  Forall (fun c => 0 <= fst c < 2 ^ 32) (st_channels st).

(** The two loops of the listen reconciliation, component by component. *)
Definition erase_all (names : list string) (l : StrSet) : StrSet :=
  fold_left (fun l n => set_erase n l) names l.

Definition insert_resolved (st : MumbleClientState) (names : list string)
    (l : StrSet) : StrSet :=
  fold_left (fun l n => if resolves st n then set_insert n l else l) names l.

Definition resolved_ids (st : MumbleClientState) (names : list string) : list Z :=
  map (fun n => int_of_u32 (findCh st n)) (filter (resolves st) names).

(** Modelled from the spec: [MumbleCrypto::Decrypt] is not under src/. It
    records the time of the last good datagram on success only, and a
    datagram that fails to decrypt does not uninstall the keys. *)
Definition DecryptFailureKeeps {crypto_ops : CryptoOps} : Prop :=
  forall c now b c',
    Decrypt c now b = (None, c') ->
    m_lastGoodUdp c' = m_lastGoodUdp c /\ IsInitialized c' = IsInitialized c.

(** The emissions of a run that fall in the window [[w, w + 1000]]. *)
Definition inWindow (w : Z) (times : list Z) : list Z :=
  filter (fun t => (w <=? t) && (t <=? w + kPingInterval)) times.

(** ** A concrete client, for evaluating the handlers *)

Module Sample.

Definition byte_of (z : Z) : Byte.byte :=
  match Byte.of_N (Z.to_N (z mod 256)) with
  | Some b => b
  | None => Byte.x00
  end.

(** A 64-bit integer as eight bytes, most significant first. *)
Definition put_u64 (v : Z) : list Byte.byte :=
  map (fun i => byte_of (Z.shiftr v (8 * i))) [7; 6; 5; 4; 3; 2; 1; 0].

Definition get_u64 (p : list Byte.byte) : Z * list Byte.byte :=
  (fold_left (fun acc b => acc * 256 + Z.of_N (Byte.to_N b)) (firstn 8 p) 0,
   skipn 8 p).

Definition get_float (p : list Byte.byte) : Z * list Byte.byte :=
  (fold_left (fun acc b => acc * 256 + Z.of_N (Byte.to_N b)) (firstn 4 p) 0,
   skipn 4 p).

Definition pds : PacketDataStreamOps :=
  {| pds_put_u64 := put_u64; pds_get_u64 := get_u64;
     pds_get_float := get_float |}.

(** A cipher stand-in: a zero tag in front of the plaintext, and a
    [Decrypt] that accepts exactly the datagrams with that tag. *)
Definition tag : list Byte.byte := [Byte.x00; Byte.x00; Byte.x00; Byte.x00].

Definition tagged (buf : list Byte.byte) : bool :=
  (4 <=? size_of buf)
  && forallb (fun b => (Byte.to_N b =? 0)%N) (firstn 4 buf).

Definition crypto : CryptoOps :=
  {| Encrypt := fun c buf => (tag ++ buf, c);
     Decrypt := fun c now buf =>
       if tagged buf then (Some (skipn 4 buf), set_m_lastGoodUdp now c)
       else (None, c) |}.

Definition cryptoState : MumbleCrypto :=
  {| m_init := true;
     m_localGood := 10; m_localLate := 0; m_localLost := 0; m_localResync := 0;
     m_remoteGood := 10; m_remoteLate := 0; m_remoteLost := 0;
     m_remoteResync := 0;
     m_lastGoodUdp := -5000 |}.

Definition noStats : PingStats :=
  {| pingAverage := 0; pingVariance := 0; pingCount := 0;
     pings := repeat 0 12 |}.

Definition root : MumbleChannel := {| ch_name := "Root" |}.
Definition lobby : MumbleChannel := {| ch_name := "Lobby" |}.

Definition me : MumbleUser :=
  {| user_session := 5; user_serverId := 1; user_name := "me";
     user_channelId := 0 |}.

Definition store : MumbleClientState :=
  {| st_session := 5; st_username := "me";
     st_channels := [(0, root); (1, lobby)];
     st_users := [me] |}.

(** Connected, TLS active, sitting in "Root" and asked to go to "Lobby". *)
Definition client : MumbleClient :=
  {| m_connectionInfo :=
       {| isConnected := true; isConnecting := false; addressFamily := 2 |};
     m_tlsClient := Some {| is_active := true |};
     m_crypto := cryptoState;
     m_state := store;
     m_hasUdp := true;
     m_curManualChannel := "Lobby";
     m_lastManualChannel := "Root";
     m_curChannelListens := [];
     m_lastChannelListens := [];
     m_pendingVoiceTargetUpdates := [];
     m_nextPing := 0;
     m_timeSinceJoin := 0;
     m_inFlightTcpPings := 0;
     m_tcpPing := noStats;
     m_udpPing := noStats;
     m_connectTimer := None;
     m_idleTimer := true;
     m_positionUpdates := [];
     tls_out := [];
     udp_out := [];
     audio_out := [] |}.

(** The same client after the connection was marked as lost. *)
Definition offline : MumbleClient :=
  set_m_connectionInfo
    {| isConnected := false; isConnecting := false; addressFamily := 2 |}
    client.

(** The same client before any [CryptSetup] was received. *)
Definition noKeys : MumbleClient :=
  set_m_crypto
    {| m_init := false;
       m_localGood := 0; m_localLate := 0; m_localLost := 0;
       m_localResync := 0;
       m_remoteGood := 0; m_remoteLate := 0; m_remoteLost := 0;
       m_remoteResync := 0;
       m_lastGoodUdp := 0 |}
    client.

(** A server ping that reports that no datagram of ours arrived. *)
Definition lostPing : MumbleProto.Ping :=
  {| MumbleProto.timestamp := None;
     MumbleProto.good := 0; MumbleProto.late := 0;
     MumbleProto.lost := 0; MumbleProto.resync := 0;
     MumbleProto.tcp_ping_avg := 0; MumbleProto.tcp_ping_var := 0;
     MumbleProto.tcp_packets := 0;
     MumbleProto.udp_ping_avg := 0; MumbleProto.udp_ping_var := 0;
     MumbleProto.udp_packets := 0 |}.

(** The same client before the server has told it about its own user. *)
Definition unsynced : MumbleClient :=
  {| m_connectionInfo := m_connectionInfo client;
     m_tlsClient := m_tlsClient client;
     m_crypto := m_crypto client;
     m_state :=
       {| st_session := 5; st_username := "me";
          st_channels := [(0, root); (1, lobby)];
          st_users := [] |};
     m_hasUdp := true;
     m_curManualChannel := "Lobby";
     m_lastManualChannel := "Root";
     m_curChannelListens := [];
     m_lastChannelListens := [];
     m_pendingVoiceTargetUpdates := [];
     m_nextPing := 0;
     m_timeSinceJoin := 0;
     m_inFlightTcpPings := 0;
     m_tcpPing := noStats;
     m_udpPing := noStats;
     m_connectTimer := None;
     m_idleTimer := true;
     m_positionUpdates := [];
     tls_out := [];
     udp_out := [];
     audio_out := [] |}.

(** A store with two channels of one name, under different parents, and
    a pending voice target that names it. *)
Definition twin : MumbleChannel := {| ch_name := "Twin" |}.

Definition whisper : MumbleClient :=
  {| m_connectionInfo := m_connectionInfo client;
     m_tlsClient := m_tlsClient client;
     m_crypto := m_crypto client;
     m_state :=
       {| st_session := 5; st_username := "me";
          st_channels := [(0, root); (7, twin); (8, twin)];
          st_users := [me] |};
     m_hasUdp := true;
     m_curManualChannel := "Root";
     m_lastManualChannel := "Root";
     m_curChannelListens := [];
     m_lastChannelListens := [];
     m_pendingVoiceTargetUpdates :=
       m_pendingVoiceTargetUpdates
         (UpdateVoiceTarget 1
            {| users := ["me"%string]; channels := ["Twin"%string] |}
            client);
     m_nextPing := 0;
     m_timeSinceJoin := 0;
     m_inFlightTcpPings := 0;
     m_tcpPing := noStats;
     m_udpPing := noStats;
     m_connectTimer := None;
     m_idleTimer := true;
     m_positionUpdates := [];
     tls_out := [];
     udp_out := [];
     audio_out := [] |}.

(** "Root" then "Lobby" added to the listen set and "Root" removed again,
    all before a tick. *)
Definition listening : MumbleClient :=
  RemoveListenChannel "Root"
    (AddListenChannel "Lobby" (AddListenChannel "Root" client)).

(** Three datagrams that the stand-in cipher rejects. *)
Definition garbage : list (Z * list Byte.byte) :=
  [(0, [Byte.x01]); (500, [Byte.x02]); (1100, [Byte.x03])].

End Sample.

(** * More of the client

    The functions of the file that the properties above do not reach: the
    connection life cycle, the queries on the state store and the drain
    of the position queue. *)

(** Assignments to three more members. *)

Definition set_m_tlsClient v (s : MumbleClient) : MumbleClient :=
  {| m_connectionInfo := m_connectionInfo s; m_tlsClient := v;
     m_crypto := m_crypto s; m_state := m_state s; m_hasUdp := m_hasUdp s;
     m_curManualChannel := m_curManualChannel s;
     m_lastManualChannel := m_lastManualChannel s;
     m_curChannelListens := m_curChannelListens s;
     m_lastChannelListens := m_lastChannelListens s;
     m_pendingVoiceTargetUpdates := m_pendingVoiceTargetUpdates s;
     m_nextPing := m_nextPing s; m_timeSinceJoin := m_timeSinceJoin s;
     m_inFlightTcpPings := m_inFlightTcpPings s; m_tcpPing := m_tcpPing s;
     m_udpPing := m_udpPing s; m_connectTimer := m_connectTimer s;
     m_idleTimer := m_idleTimer s; m_positionUpdates := m_positionUpdates s;
     tls_out := tls_out s; udp_out := udp_out s; audio_out := audio_out s |}.

Definition set_m_state v (s : MumbleClient) : MumbleClient :=
  {| m_connectionInfo := m_connectionInfo s; m_tlsClient := m_tlsClient s;
     m_crypto := m_crypto s; m_state := v; m_hasUdp := m_hasUdp s;
     m_curManualChannel := m_curManualChannel s;
     m_lastManualChannel := m_lastManualChannel s;
     m_curChannelListens := m_curChannelListens s;
     m_lastChannelListens := m_lastChannelListens s;
     m_pendingVoiceTargetUpdates := m_pendingVoiceTargetUpdates s;
     m_nextPing := m_nextPing s; m_timeSinceJoin := m_timeSinceJoin s;
     m_inFlightTcpPings := m_inFlightTcpPings s; m_tcpPing := m_tcpPing s;
     m_udpPing := m_udpPing s; m_connectTimer := m_connectTimer s;
     m_idleTimer := m_idleTimer s; m_positionUpdates := m_positionUpdates s;
     tls_out := tls_out s; udp_out := udp_out s; audio_out := audio_out s |}.

Definition set_m_timeSinceJoin v (s : MumbleClient) : MumbleClient :=
  {| m_connectionInfo := m_connectionInfo s; m_tlsClient := m_tlsClient s;
     m_crypto := m_crypto s; m_state := m_state s; m_hasUdp := m_hasUdp s;
     m_curManualChannel := m_curManualChannel s;
     m_lastManualChannel := m_lastManualChannel s;
     m_curChannelListens := m_curChannelListens s;
     m_lastChannelListens := m_lastChannelListens s;
     m_pendingVoiceTargetUpdates := m_pendingVoiceTargetUpdates s;
     m_nextPing := m_nextPing s; m_timeSinceJoin := v;
     m_inFlightTcpPings := m_inFlightTcpPings s; m_tcpPing := m_tcpPing s;
     m_udpPing := m_udpPing s; m_connectTimer := m_connectTimer s;
     m_idleTimer := m_idleTimer s; m_positionUpdates := m_positionUpdates s;
     tls_out := tls_out s; udp_out := udp_out s; audio_out := audio_out s |}.

Definition set_addressFamily (f : Z) (i : MumbleConnectionInfo)
  : MumbleConnectionInfo :=
  {| isConnected := isConnected i; isConnecting := isConnecting i;
     addressFamily := f |}.

Definition set_st_username (n : string) (st : MumbleClientState)
  : MumbleClientState :=
  {| st_session := st_session st; st_username := n;
     st_channels := st_channels st; st_users := st_users st |}.

(** ** The connection life cycle *)

(** [MumbleClient::ConnectAsync], with the callback it queues on the loop
    (the start of the connect timer). Of [address] the model keeps the
    family; [m_connectionInfo.username], which only the connect timer
    reads, and the completion event are not among the members kept. *)
Definition ConnectAsync (family : Z) (userName : string) (s : MumbleClient)
  : MumbleClient :=
  let s1 :=
    set_m_connectionInfo (set_addressFamily family (m_connectionInfo s)) s in
  let s2 :=
    if String.eqb (m_curManualChannel s1) EmptyString
    then set_m_curManualChannel "Root"%string s1
    else set_m_lastManualChannel "Root"%string s1 in
  let s3 :=
    set_m_tcpPing
      {| pingAverage := 0; pingVariance := 0; pingCount := 0;
         pings := map (fun _ => 0) (pings (m_tcpPing s2)) |} s2 in
  let s4 := set_m_state (set_st_username userName (m_state s3)) s3 in
  set_m_connectTimer (Some 50) s4.

(** The handler of [uvw::ConnectEvent]. [created] tells whether the TLS
    client was constructed (the [try] block ran to its end); a client just
    constructed has not completed its handshake and is not active. *)
Definition ConnectEvent (now : Z) (created : bool) (s : MumbleClient)
  : MumbleClient :=
  let s1 :=
    set_m_connectionInfo
      (set_isConnected (isConnected (m_connectionInfo s)) false
                       (m_connectionInfo s)) s in
  let s2 :=
    if created then set_m_tlsClient (Some {| is_active := false |}) s1
    else s1 in
  let s3 := set_m_timeSinceJoin now s2 in
  let s4 := set_m_inFlightTcpPings 0 s3 in
  set_m_connectionInfo
    (set_isConnected true (isConnecting (m_connectionInfo s4))
                     (m_connectionInfo s4)) s4.

(** The handlers of [uvw::ErrorEvent] and of [uvw::EndEvent]: they have the
    same body. *)
Definition ConnectionLost (s : MumbleClient) : MumbleClient :=
  let s1 :=
    set_m_connectionInfo
      (set_isConnected (isConnected (m_connectionInfo s)) false
                       (m_connectionInfo s)) s in
  let s2 := set_m_idleTimer true s1 in
  set_m_connectionInfo
    (set_isConnected false (isConnecting (m_connectionInfo s2))
                     (m_connectionInfo s2)) s2.

(** [MumbleClient::OnAlert]; [fatalOrClose] is
    [alert.is_fatal() || alert.type() == CLOSE_NOTIFY]. *)
Definition OnAlert (fatalOrClose : bool) (s : MumbleClient) : MumbleClient :=
  if fatalOrClose then
    set_m_connectTimer (Some 2500)
      (set_m_connectionInfo
         (set_isConnected false false (m_connectionInfo s)) s)
  else s.

(** [MumbleClient::DisconnectAsync], with the callback it queues on the
    loop (the stop of the two timers). Modelled from the spec: the TLS
    library is not under src/; a session that was closed is not active.
    [MumbleConnectionInfo] and [net::PeerAddress] are not under src/
    either: [m_connectionInfo = {}] is taken to clear both flags and to
    leave an address of family 0. *)
Definition DisconnectAsync (s : MumbleClient) : MumbleClient :=
  let s1 :=
    match m_tlsClient s with
    | Some _ => set_m_tlsClient (Some {| is_active := false |}) s
    | None => s
    end in
  let s2 := set_m_connectTimer None (set_m_idleTimer false s1) in
  set_m_connectionInfo
    {| isConnected := false; isConnecting := false; addressFamily := 0 |} s2.

(** ** Queries on the state store *)

(** [bool MumbleClient::DoesChannelExist(const std::string& channelName)] *)
Definition DoesChannelExist (channelName : string) (s : MumbleClient) : bool :=
  existsb (fun ch => String.eqb (ch_name (snd ch)) channelName)
          (st_channels (m_state s)).

(** [std::string MumbleClient::GetPlayerNameFromServerId(uint32_t serverId)]:
    [ForAllUsers] with the lambda that fills [retName]. *)
Definition GetPlayerNameFromServerId (serverId : Z) (s : MumbleClient) : string :=
  fold_left
    (fun retName user =>
       if negb (String.eqb retName EmptyString) then retName
       else if user_serverId user =? serverId then user_name user
       else retName)
    (st_users (m_state s)) EmptyString.

(** [std::string MumbleClient::GetVoiceChannelFromServerId(uint32_t serverId)] *)
Definition GetVoiceChannelFromServerId (serverId : Z) (s : MumbleClient)
  : string :=
  fold_left
    (fun retString user =>
       if negb (String.eqb retString EmptyString) then retString
       else if user_serverId user =? serverId then
         match channel_by_id (user_channelId user) (st_channels (m_state s)) with
         | Some (_, ch) => ch_name ch
         | None => retString
         end
       else retString)
    (st_users (m_state s)) EmptyString.

(** [void MumbleClient::GetTalkers(std::vector<std::string>* referenceIds)].
    [sessions] is what the audio output reports as talking, [isTalking]
    what the audio input reports for the local user. *)
Definition GetTalkers (sessions : list Z) (isTalking : bool) (s : MumbleClient)
  : list string :=
  flat_map (fun session =>
              match GetUser session (m_state s) with
              | Some user => [user_name user]
              | None => []
              end) sessions
  ++ (if isTalking then [st_username (m_state s)] else []).

(** ** The position queue *)

(** [void MumbleClient::RunFrame()]: the calls of [HandleClientPosition] it
    makes, in order, and the client it leaves. [hook] is [m_positionHook],
    when it is set. *)
Definition RunFrame (hook : option (string -> option (Z * Z * Z)))
    (s : MumbleClient) : list (MumbleUser * (Z * Z * Z)) * MumbleClient :=
  (flat_map
     (fun update =>
        match GetUser (u32 (fst update)) (m_state s) with
        | Some user =>
            let pos :=
              match hook with
              | Some h =>
                  match h (user_name user) with
                  | Some newPos => newPos
                  | None => snd update
                  end
              | None => snd update
              end in
            [(user, pos)]
        | None => []
        end)
     (m_positionUpdates s),
   set_m_positionUpdates [] s).

(** ** More observations *)

Definition is_ping (m : MumbleProto.Message) : bool :=
  match m with
  | MumbleProto.MPing _ => true
  | _ => false
  end.

(** The keys of a map kept in key order: strictly increasing. *)
Definition map_ok {V} (m : list (Z * V)) : Prop :=
  StronglySorted Z.lt (map fst m).

(** [m.find(k)] *)
Definition map_find {V} (k : Z) (m : list (Z * V)) : option V :=
  match find (fun e => fst e =? k) m with
  | Some e => Some (snd e)
  | None => None
  end.

Section MoreRuns.

Context {crypto_ops : CryptoOps} {pds_ops : PacketDataStreamOps}.

(** The times at which a run of ticks made the client write a [Ping], one
    entry per message. *)
Fixpoint pingTimes (ts : list Z) (s : MumbleClient) : list Z :=
  match ts with
  | [] => []
  | t :: r =>
      match idleTimerEvent t s with
      | Some s' =>
          map (fun _ => t) (filter is_ping (emitted s s')) ++ pingTimes r s'
      | None => []
      end
  end.

(** For each tick of a run: whether the client was active when the tick
    began, and the channel moves the tick wrote. *)
Fixpoint tickChannelMoves (ts : list Z) (s : MumbleClient)
  : list (bool * list MumbleProto.Message) :=
  match ts with
  | [] => []
  | t :: r =>
      match idleTimerEvent t s with
      | Some s' =>
          (lockedIsActive s, filter is_channelMove (emitted s s'))
          :: tickChannelMoves r s'
      | None => []
      end
  end.

(** The plaintext of the UDP ping of a tick at [now]. *)
Definition udpPingPayload (now : Z) : list Byte.byte :=
  Byte.x20 :: pds_put_u64 (u64 now).

End MoreRuns.

(** * Properties *)

(** ** Lists and logs *)

Lemma skipn_length_app {A} (l r : list A) : skipn (List.length l) (l ++ r) = r.
Proof. induction l as [|x l IH]; simpl; auto. Qed.

Lemma messages_app (l r : list TlsWrite) :
  messages (l ++ r) = messages l ++ messages r.
Proof. unfold messages. apply flat_map_app. Qed.

Lemma messages_frame (type : MumbleMessageType.t) (m : MumbleProto.Message) :
  messages (frame_of type (Proto m)) = [m].
Proof. reflexivity. Qed.

(** The first element of a list that passes a test. *)
Lemma find_first {A} (f : A -> bool) (pre : list A) (u : A) (post : list A) :
  Forall (fun x => f x = false) pre -> f u = true ->
  find f (pre ++ u :: post) = Some u.
Proof.
  intros Hpre Hu. induction Hpre as [|x pre Hx _ IH]; cbn [app find].
  - now rewrite Hu.
  - now rewrite Hx.
Qed.

Lemma find_split {A} (f : A -> bool) (l : list A) (u : A) :
  find f l = Some u ->
  exists pre post,
    l = pre ++ u :: post /\ Forall (fun x => f x = false) pre /\ f u = true.
Proof.
  induction l as [|x l IH]; [discriminate|]. cbn [find].
  destruct (f x) eqn:E.
  - intros H. injection H as <-. exists [], l. repeat split; auto.
  - intros H. destruct (IH H) as (pre & post & -> & Hpre & Hu).
    exists (x :: pre), post. repeat split; auto.
Qed.

Lemma written_app (s s' : MumbleClient) (out : list TlsWrite) :
  tls_out s' = tls_out s ++ out -> written s s' = out.
Proof. unfold written. intros ->. apply skipn_length_app. Qed.

Lemma emitted_app (s s' : MumbleClient) (out : list TlsWrite) :
  tls_out s' = tls_out s ++ out -> emitted s s' = messages out.
Proof. unfold emitted. intros H. now rewrite (written_app _ _ _ H). Qed.

Lemma emitted_same (s s' : MumbleClient) :
  tls_out s' = tls_out s -> emitted s s' = [].
Proof.
  intros H. rewrite (emitted_app s s' []); auto.
  now rewrite app_nil_r.
Qed.

(** ** Sending on the control channel *)

Lemma Send_active (w : TlsWrite) (s : MumbleClient) :
  lockedIsActive s = true ->
  Send w s = Some (set_tls_out (tls_out s ++ [w]) s).
Proof.
  unfold lockedIsActive, Send. intros H.
  destruct (m_tlsClient s) as [tls|]; simpl in H; [|discriminate].
  apply andb_true_iff in H as [Ha Hc]. now rewrite Hc, Ha.
Qed.

Lemma Send_proto_active (type : MumbleMessageType.t) (m : MumbleProto.Message)
    (s : MumbleClient) :
  lockedIsActive s = true ->
  Send_proto type m s
  = Some (set_tls_out (tls_out s ++ frame_of type (Proto m)) s).
Proof.
  intros H. unfold Send_proto, Send_typed.
  rewrite (Send_active _ _ H). simpl.
  rewrite Send_active by exact H. simpl.
  now rewrite <- app_assoc.
Qed.

Lemma Send_disconnected (w : TlsWrite) (s : MumbleClient) :
  isConnected (m_connectionInfo s) = false -> Send w s = Some s.
Proof. unfold Send. now intros ->. Qed.

Lemma Send_proto_disconnected (type : MumbleMessageType.t)
    (m : MumbleProto.Message) (s : MumbleClient) :
  isConnected (m_connectionInfo s) = false -> Send_proto type m s = Some s.
Proof.
  intros H. unfold Send_proto, Send_typed.
  rewrite (Send_disconnected _ _ H). simpl. now apply Send_disconnected.
Qed.

(** A null TLS session on a connected client is the one case in which
    [Send] has no defined outcome. *)
Lemma Send_null_session (w : TlsWrite) (s : MumbleClient) :
  isConnected (m_connectionInfo s) = true -> m_tlsClient s = None ->
  Send w s = None.
Proof. unfold Send. now intros -> ->. Qed.

(** The two guards of [Send]: a control send made while [isConnected] is
    false, or while the TLS session reports that it is not active, writes
    nothing, returns normally and leaves the client as it was; so does the
    typed send built from it. *)
Theorem Send_dropped_unless_connected_and_active (w : TlsWrite) (s : MumbleClient) :
  isConnected (m_connectionInfo s) = false \/
  m_tlsClient s = Some {| is_active := false |} ->
  Send w s = Some s /\
  (forall type p, Send_typed type p s = Some s).
Proof.
  intros H.
  assert (HS : forall w', Send w' s = Some s).
  { intros w'. unfold Send. destruct H as [-> | ->]; simpl; auto.
    now destruct (isConnected (m_connectionInfo s)). }
  split; [apply HS|].
  intros type p. unfold Send_typed. rewrite HS. simpl. apply HS.
Qed.

Lemma Send_dropped_witness :
  Send (WPayload (Raw [])) Sample.offline = Some Sample.offline /\
  (forall type p, Send_typed type p Sample.offline = Some Sample.offline).
Proof.
  apply Send_dropped_unless_connected_and_active. left. reflexivity.
Defined.

(** C9. [Send] tests [isConnected] and then calls [is_active] on
    [m_tlsClient] without testing the pointer, which the idle timer and
    [DisconnectAsync] do test. After a TCP connect event whose TLS client
    could not be constructed, on a client that never had one, the client
    counts as connected while [m_tlsClient] is null: the TLS session is
    not active, and yet a control send is not dropped, it dereferences the
    null pointer and has no outcome; so does the typed send. *)
Theorem Send_null_session_not_dropped (now : Z) (w : TlsWrite)
    (s : MumbleClient) :
  m_tlsClient s = None ->
  let s1 := ConnectEvent now false s in
  isConnected (m_connectionInfo s1) = true /\
  m_tlsClient s1 = None /\
  lockedIsActive s1 = false /\
  Send w s1 = None /\
  (forall type p, Send_typed type p s1 = None).
Proof.
  intros Hn s1.
  assert (Hc : isConnected (m_connectionInfo s1) = true) by reflexivity.
  assert (Ht : m_tlsClient s1 = None) by exact Hn.
  assert (HS : forall w', Send w' s1 = None)
    by (intros w'; now apply Send_null_session).
  split; [exact Hc|]. split; [exact Ht|].
  split; [unfold lockedIsActive; now rewrite Ht|].
  split; [apply HS|].
  intros type p. unfold Send_typed. now rewrite HS.
Qed.

Lemma Send_null_session_not_dropped_witness :
  Send (WPayload (Raw []))
       (ConnectEvent 100 false (set_m_tlsClient None Sample.offline))
  = None.
Proof.
  refine (proj1 (proj2 (proj2 (proj2
            (Send_null_session_not_dropped 100 (WPayload (Raw []))
               (set_m_tlsClient None Sample.offline) _))))).
  reflexivity.
Defined.

(** ** The UDP voice path *)

Section UdpPath.

Context {crypto_ops : CryptoOps} {pds_ops : PacketDataStreamOps}.

(** C10. While the crypto state is not initialised, [SendUDP] and
    [HandleUDP] return at once: the client is unchanged, whatever the
    buffer holds and however long it is. *)
Theorem uninitialized_crypto_drops_udp (now : Z) (buf : list Byte.byte)
    (s : MumbleClient) :
  IsInitialized (m_crypto s) = false ->
  SendUDP buf s = s /\ HandleUDP now buf s = Some s.
Proof.
  intros H. unfold SendUDP, HandleUDP. now rewrite H.
Qed.

(** A received datagram of more than 1024 bytes is dropped before
    [Decrypt] is called. *)
Lemma HandleUDP_oversize_dropped (now : Z) (buf : list Byte.byte)
    (s : MumbleClient) :
  size_of buf > kMaxUdpPacket -> HandleUDP now buf s = Some s.
Proof.
  intros H. unfold HandleUDP.
  destruct (IsInitialized (m_crypto s)); simpl; auto.
  apply Z.gt_lt, Z.gtb_lt in H. now rewrite H.
Qed.

(** A plaintext of more than 1024 bytes is not sent. *)
Lemma SendUDP_oversize_dropped (buf : list Byte.byte) (s : MumbleClient) :
  size_of buf > kMaxUdpPacket -> SendUDP buf s = s.
Proof.
  intros H. unfold SendUDP.
  destruct (IsInitialized (m_crypto s)); simpl; auto.
  apply Z.gt_lt, Z.gtb_lt in H. now rewrite H.
Qed.

(** C1. The defect: [SendUDP] compares the plaintext size with 1024, not
    the size of the datagram. A plaintext of 1021 to 1024 bytes passes
    the guard and is queued with a length of 1025 to 1028 bytes. *)
Theorem SendUDP_datagram_can_exceed_limit (buf : list Byte.byte)
    (s : MumbleClient) :
  IsInitialized (m_crypto s) = true ->
  kMaxUdpPacket - 4 < size_of buf <= kMaxUdpPacket ->
  exists d, datagrams s (SendUDP buf s) = [d] /\
            dg_len d = size_of buf + 4 /\
            dg_len d > kMaxUdpPacket.
Proof.
  intros Hi [Hlo Hhi]. unfold SendUDP. rewrite Hi. simpl.
  destruct (size_of buf >? kMaxUdpPacket) eqn:Hgt.
  - apply Z.gtb_lt in Hgt. lia.
  - destruct (Encrypt (m_crypto s) buf) as [outBuf crypto'].
    eexists. split; [|split].
    + unfold datagrams. simpl. apply skipn_length_app.
    + reflexivity.
    + simpl. lia.
Qed.

End UdpPath.

Lemma uninitialized_crypto_drops_udp_witness :
  @SendUDP Sample.crypto [Byte.x20] Sample.noKeys = Sample.noKeys /\
  @HandleUDP Sample.crypto Sample.pds 0 [Byte.x20] Sample.noKeys
  = Some Sample.noKeys.
Proof.
  apply uninitialized_crypto_drops_udp. reflexivity.
Defined.

Lemma SendUDP_datagram_can_exceed_limit_witness :
  exists d,
    datagrams Sample.client
              (@SendUDP Sample.crypto (repeat Byte.x01 1021) Sample.client) = [d] /\
    dg_len d = size_of (repeat Byte.x01 1021) + 4 /\
    dg_len d > kMaxUdpPacket.
Proof.
  apply SendUDP_datagram_can_exceed_limit.
  - reflexivity.
  - vm_compute. split; [reflexivity | discriminate].
Defined.

(** ** Ping statistics *)

Lemma store_ping_first (timeDelta : Z) (st : PingStats) :
  pingCount st = 1 -> pings st <> [] ->
  let st' := store_ping timeDelta st in
  pingCount st' = 1 /\
  pingAverage st' = (inject_Z 0 / inject_Z 1)%Q /\
  pingVariance st' = (0 / inject_Z 1)%Q /\
  pings st' = array_set (pings st) 0 (u32 timeDelta).
Proof.
  intros Hc Hp. unfold store_ping. rewrite Hc.
  destruct (pings st) as [|x r] eqn:E; [congruence|].
  assert (Hn : (u32 (1 - 1) >=? size_of (x :: r)) = false).
  { unfold size_of, u32. simpl List.length.
    change ((1 - 1) mod 2 ^ 32) with 0. reflexivity. }
  cbv zeta. rewrite Hn. change (u32 (1 - 1)) with 0.
  simpl. repeat split; reflexivity.
Qed.

Section UdpPing.

Context {pds_ops : PacketDataStreamOps}.

(** C3. The defect: the two sums of the statistics run over the indices
    below [thisPing], which leaves the sample just stored out, while the
    divisor counts it. After the first reply, with a round trip of 50 ms,
    the count is 1 and the sample is in the history, but the average is
    0, not 50; the variance is 0. *)
Theorem udp_ping_first_reply_average_is_zero (payload rest : list Byte.byte)
    (s : MumbleClient) :
  pds_get_u64 payload = (1000, rest) ->
  pingCount (m_udpPing s) = 0 ->
  pings (m_udpPing s) <> [] ->
  let st := m_udpPing (HandleVoice 1050 (Byte.x20 :: payload) s) in
  pingCount st = 1 /\
  array_get (pings st) 0 = 50 /\
  (pingAverage st == 0)%Q /\
  (pingVariance st == 0)%Q /\
  ~ (pingAverage st == 50)%Q.
Proof.
  intros Hget Hc Hp. unfold HandleVoice.
  change (pds_next8 (Byte.x20 :: payload)) with (32, payload).
  change (Z.shiftr 32 5 =? 1) with true. cbv iota beta.
  rewrite Hget. cbv iota beta zeta.
  change (u64 (1050 - 1000)) with 50.
  destruct (store_ping_first 50 (bump_count (m_udpPing s)))
    as (H1 & H2 & H3 & H4).
  { simpl. now rewrite Hc. }
  { exact Hp. }
  simpl m_udpPing. rewrite H1, H2, H3, H4. simpl pings.
  destruct (pings (m_udpPing s)) as [|x r]; [congruence|].
  repeat split; try reflexivity; discriminate.
Qed.

End UdpPing.

Lemma udp_ping_first_reply_average_is_zero_witness :
  let st :=
    m_udpPing (@HandleVoice Sample.pds 1050
                 (Byte.x20 :: Sample.put_u64 1000) Sample.client) in
  pingCount st = 1 /\
  array_get (pings st) 0 = 50 /\
  (pingAverage st == 0)%Q /\
  (pingVariance st == 0)%Q /\
  ~ (pingAverage st == 50)%Q.
Proof.
  apply (@udp_ping_first_reply_average_is_zero Sample.pds
           (Sample.put_u64 1000) [] Sample.client).
  - reflexivity.
  - reflexivity.
  - discriminate.
Defined.

(** ** Pings from the server *)

Lemma HandlePing_inFlight (now : Z) (ping : MumbleProto.Ping) (s : MumbleClient) :
  m_inFlightTcpPings (HandlePing now ping s) = 0.
Proof.
  unfold HandlePing. cbv zeta.
  repeat match goal with
         | |- context [match ?x with _ => _ end] => destruct x
         end; reflexivity.
Qed.

Lemma HandlePing_frame (now : Z) (ping : MumbleProto.Ping) (s : MumbleClient) :
  let s' := HandlePing now ping s in
  IsInitialized (m_crypto s') = IsInitialized (m_crypto s) /\
  m_localGood (m_crypto s') = m_localGood (m_crypto s) /\
  m_timeSinceJoin s' = m_timeSinceJoin s /\
  m_connectionInfo s' = m_connectionInfo s /\
  m_tlsClient s' = m_tlsClient s /\
  tls_out s' = tls_out s.
Proof.
  unfold HandlePing. cbv zeta.
  repeat match goal with
         | |- context [match ?x with _ => _ end] => destruct x
         end; repeat split; reflexivity.
Qed.

Lemma HandlePing_hasUdp (now : Z) (ping : MumbleProto.Ping) (s : MumbleClient) :
  IsInitialized (m_crypto s) = true ->
  m_hasUdp (HandlePing now ping s)
  = if m_hasUdp s
       && ((MumbleProto.good ping =? 0) || (m_localGood (m_crypto s) =? 0))
       && (now - m_timeSinceJoin s >? k20s)
    then false
    else if negb (m_hasUdp s) && (MumbleProto.good ping >? 3)
            && (m_localGood (m_crypto s) >? 3)
    then true
    else m_hasUdp s.
Proof.
  intros Hi. unfold HandlePing, IsInitialized in *. cbv zeta. simpl.
  rewrite Hi.
  repeat match goal with
         | |- context [match ?x with _ => _ end] => destruct x
         end; reflexivity.
Qed.

Lemma runPings_stay_tcp (evs : list (Z * MumbleProto.Ping)) (s : MumbleClient) :
  IsInitialized (m_crypto s) = true ->
  m_hasUdp s = false ->
  Forall (fun e => MumbleProto.good (snd e) = 0) evs ->
  falls false (map m_hasUdp (runPings evs s)) = O.
Proof.
  revert s. induction evs as [|[t p] evs IH]; intros s Hi Hu Hall; [reflexivity|].
  inversion Hall as [|? ? Hg Hrest]; subst. simpl in Hg.
  pose proof (HandlePing_hasUdp t p s Hi) as Hs.
  rewrite Hu, Hg in Hs. simpl in Hs.
  destruct (HandlePing_frame t p s) as (Hi' & _).
  simpl. rewrite Hs. simpl. apply IH; auto. congruence.
Qed.

(** C6. With the crypto state initialised, a server ping switches [m_hasUdp]
    from true to false exactly when one of the two good counts is 0 and the
    session is more than 20 s old; it switches it from false to true when
    both good counts are above 3; and along a run of pings that report
    good = 0 to a session older than 20 s, the switch to false happens once. *)
Theorem hasUdp_follows_good_counts (now : Z) (ping : MumbleProto.Ping)
    (evs : list (Z * MumbleProto.Ping)) (s : MumbleClient) :
  IsInitialized (m_crypto s) = true ->
  (m_hasUdp s = true ->
   (m_hasUdp (HandlePing now ping s) = false <->
    (MumbleProto.good ping = 0 \/ m_localGood (m_crypto s) = 0) /\
    now - m_timeSinceJoin s > k20s)) /\
  (m_hasUdp s = false ->
   MumbleProto.good ping > 3 -> m_localGood (m_crypto s) > 3 ->
   m_hasUdp (HandlePing now ping s) = true) /\
  (m_hasUdp s = true ->
   evs <> [] ->
   Forall (fun e => MumbleProto.good (snd e) = 0 /\
                    fst e - m_timeSinceJoin s > k20s) evs ->
   falls (m_hasUdp s) (map m_hasUdp (runPings evs s)) = 1%nat).
Proof.
  intros Hi. pose proof (HandlePing_hasUdp now ping s Hi) as Hs.
  split; [|split].
  - intros Hu. rewrite Hu in Hs. simpl in Hs. rewrite Hs.
    destruct (MumbleProto.good ping =? 0) eqn:Eg;
      destruct (m_localGood (m_crypto s) =? 0) eqn:El;
      destruct (now - m_timeSinceJoin s >? k20s) eqn:Et; simpl;
      rewrite ?Z.eqb_eq, ?Z.eqb_neq in *;
      (apply Z.gtb_lt in Et || (rewrite Z.gtb_ltb in Et; apply Z.ltb_ge in Et));
      split; try tauto; try discriminate; try (intros; split; auto; lia);
      intros [[?|?] ?]; try contradiction; lia.
  - intros Hu Hg Hl. rewrite Hu in Hs. simpl in Hs. rewrite Hs.
    apply Z.gt_lt, Z.gtb_lt in Hg. apply Z.gt_lt, Z.gtb_lt in Hl.
    now rewrite Hg, Hl.
  - intros Hu Hne Hall. destruct evs as [|[t p] evs]; [congruence|].
    inversion Hall as [|? ? [Hg Ht] Hrest]; subst. simpl in Hg, Ht.
    pose proof (HandlePing_hasUdp t p s Hi) as Hs1.
    rewrite Hu, Hg in Hs1. simpl in Hs1.
    apply Z.gt_lt, Z.gtb_lt in Ht. rewrite Ht in Hs1.
    destruct (HandlePing_frame t p s) as (Hi' & _).
    simpl. rewrite Hu, Hs1. simpl.
    rewrite runPings_stay_tcp; auto; [congruence|].
    eapply Forall_impl; [|exact Hrest]. intros e [He _]. exact He.
Qed.

Lemma hasUdp_follows_good_counts_witness :
  falls (m_hasUdp Sample.client)
        (map m_hasUdp
             (runPings [(21000, Sample.lostPing); (22000, Sample.lostPing);
                        (23000, Sample.lostPing)] Sample.client)) = 1%nat.
Proof.
  refine (proj2 (proj2 (hasUdp_follows_good_counts 21000 Sample.lostPing
            [(21000, Sample.lostPing); (22000, Sample.lostPing);
             (23000, Sample.lostPing)] Sample.client _)) _ _ _).
  - reflexivity.
  - reflexivity.
  - discriminate.
  - repeat constructor.
Defined.

(** ** The reconciler tick *)

Ltac proj :=
  cbn [m_connectionInfo m_tlsClient m_crypto m_state m_hasUdp
       m_curManualChannel m_lastManualChannel m_curChannelListens
       m_lastChannelListens m_pendingVoiceTargetUpdates m_nextPing
       m_timeSinceJoin m_inFlightTcpPings m_tcpPing m_udpPing m_connectTimer
       m_idleTimer m_positionUpdates tls_out udp_out audio_out
       set_m_connectionInfo set_m_crypto set_m_hasUdp set_m_curManualChannel
       set_m_lastManualChannel set_m_curChannelListens
       set_m_lastChannelListens set_m_pendingVoiceTargetUpdates
       set_m_nextPing set_m_inFlightTcpPings set_m_tcpPing set_m_udpPing
       set_m_connectTimer set_m_idleTimer set_m_positionUpdates set_tls_out
       set_udp_out set_audio_out
       isConnected isConnecting addressFamily set_isConnected] in *.

Lemma lockedIsActive_connected (s : MumbleClient) :
  lockedIsActive s = true -> isConnected (m_connectionInfo s) = true.
Proof. unfold lockedIsActive. intros H. now apply andb_true_iff in H. Qed.

Lemma lockedIsActive_same (s s' : MumbleClient) :
  m_tlsClient s' = m_tlsClient s ->
  m_connectionInfo s' = m_connectionInfo s ->
  lockedIsActive s' = lockedIsActive s.
Proof. unfold lockedIsActive. now intros -> ->. Qed.

Lemma reconcileChannel_active (s : MumbleClient) :
  lockedIsActive s = true ->
  reconcileChannel s
  = Some (if channelDue s
          then set_tls_out (tls_out s ++ channelWrites s)
                           (set_m_lastManualChannel (m_curManualChannel s) s)
          else s).
Proof.
  intros H. unfold reconcileChannel, channelWrites, channelDue.
  destruct (negb (m_curManualChannel s =? m_lastManualChannel s)%string
            && negb (is_nil (st_channels (m_state s)))); [|reflexivity].
  cbv zeta. proj.
  destruct (joinOrCreate (m_state s) (m_curManualChannel s)) as [type msg].
  rewrite Send_proto_active; [reflexivity|].
  rewrite <- H. now apply lockedIsActive_same.
Qed.

Lemma reconcileListens_active (s : MumbleClient) :
  lockedIsActive s = true ->
  reconcileListens s
  = Some (set_tls_out
            (tls_out s ++ listenWrites (m_state s) (m_curChannelListens s)
                                       (m_lastChannelListens s))
            (set_m_lastChannelListens
               (snd (listenDeltas (m_state s) (m_curChannelListens s)
                                  (m_lastChannelListens s))) s)).
Proof.
  intros H. unfold reconcileListens, listenWrites.
  destruct (listenDeltas (m_state s) (m_curChannelListens s)
                         (m_lastChannelListens s)) as [[a r] l].
  cbv zeta. proj. cbn [fst snd].
  destruct (negb (is_nil a) || negb (is_nil r)).
  - rewrite Send_proto_active; [reflexivity|].
    rewrite <- H. now apply lockedIsActive_same.
  - f_equal. unfold set_tls_out. proj. now rewrite app_nil_r.
Qed.

Lemma sendVoiceTargets_active (entries : list (Z * VoiceTargetConfig))
    (s : MumbleClient) :
  lockedIsActive s = true ->
  sendVoiceTargets entries s
  = Some (set_tls_out (tls_out s ++ voiceTargetWrites (m_state s) entries) s).
Proof.
  revert s. induction entries as [|[idx config] rest IH]; intros s H.
  - simpl. f_equal. destruct s. unfold set_tls_out. proj.
    now rewrite app_nil_r.
  - cbn [sendVoiceTargets]. rewrite Send_proto_active by exact H.
    cbn [bind]. rewrite IH.
    + f_equal. unfold set_tls_out. proj. cbn [voiceTargetWrites flat_map fst snd].
      now rewrite <- app_assoc.
    + rewrite <- H. now apply lockedIsActive_same.
Qed.

Lemma flushVoiceTargets_active (s : MumbleClient) :
  lockedIsActive s = true ->
  flushVoiceTargets s
  = Some (set_m_pendingVoiceTargetUpdates []
            (set_tls_out
               (tls_out s ++ voiceTargetWrites (m_state s)
                                               (m_pendingVoiceTargetUpdates s))
               s)).
Proof.
  intros H. unfold flushVoiceTargets.
  now rewrite (sendVoiceTargets_active _ _ H).
Qed.

Section Tick.

Context {crypto_ops : CryptoOps} {pds_ops : PacketDataStreamOps}.

Lemma SendUDP_frame (buf : list Byte.byte) (s : MumbleClient) :
  let s' := SendUDP buf s in
  m_connectionInfo s' = m_connectionInfo s /\
  m_tlsClient s' = m_tlsClient s /\
  m_state s' = m_state s /\
  m_curManualChannel s' = m_curManualChannel s /\
  m_lastManualChannel s' = m_lastManualChannel s /\
  m_curChannelListens s' = m_curChannelListens s /\
  m_lastChannelListens s' = m_lastChannelListens s /\
  m_pendingVoiceTargetUpdates s' = m_pendingVoiceTargetUpdates s /\
  m_timeSinceJoin s' = m_timeSinceJoin s /\
  m_inFlightTcpPings s' = m_inFlightTcpPings s /\
  m_nextPing s' = m_nextPing s /\
  tls_out s' = tls_out s.
Proof.
  unfold SendUDP. cbv zeta.
  destruct (negb (IsInitialized (m_crypto s))); [repeat split|].
  destruct (size_of buf >? kMaxUdpPacket); [repeat split|].
  destruct (Encrypt (m_crypto s) buf). repeat split.
Qed.

(** The ping block, field by field. *)
Lemma pingCadence_active (now : Z) (s : MumbleClient) :
  lockedIsActive s = true ->
  exists s',
    pingCadence now s = Some s' /\
    m_tlsClient s' = m_tlsClient s /\
    m_state s' = m_state s /\
    m_curManualChannel s' = m_curManualChannel s /\
    m_lastManualChannel s' = m_lastManualChannel s /\
    m_curChannelListens s' = m_curChannelListens s /\
    m_lastChannelListens s' = m_lastChannelListens s /\
    m_pendingVoiceTargetUpdates s' = m_pendingVoiceTargetUpdates s /\
    m_timeSinceJoin s' = m_timeSinceJoin s /\
    isConnected (m_connectionInfo s')
    = negb (pingDue now s && pingTimedOut now s) /\
    m_inFlightTcpPings s'
    = (if pingDue now s then u32 (m_inFlightTcpPings s + 1)
       else m_inFlightTcpPings s) /\
    m_nextPing s'
    = (if pingDue now s then now + kPingInterval else m_nextPing s) /\
    tls_out s' = tls_out s ++ pingWrites now s.
Proof.
  intros H. pose proof (lockedIsActive_connected s H) as Hc.
  unfold pingCadence, pingWrites, pingDue, pingTimedOut.
  destruct (now >? m_nextPing s).
  2:{ exists s. rewrite Hc, app_nil_r. repeat split. }
  cbv zeta.
  destruct ((m_inFlightTcpPings s >=? 4) && (now - m_timeSinceJoin s >? k20s)).
  - rewrite Send_proto_disconnected by reflexivity. cbn [bind].
    eexists. split; [reflexivity|]. proj.
    match goal with
    | |- context [SendUDP ?b ?x] =>
        destruct (SendUDP_frame b x)
          as (E1 & E2 & E3 & E4 & E5 & E6 & E7 & E8 & E9 & E10 & E11 & E12)
    end.
    proj. rewrite E1, E2, E3, E4, E5, E6, E7, E8, E9, E10, E12.
    proj. rewrite app_nil_r. repeat split.
  - rewrite Send_proto_active.
    2:{ rewrite <- H. now apply lockedIsActive_same. }
    cbn [bind]. eexists. split; [reflexivity|]. proj.
    match goal with
    | |- context [SendUDP ?b ?x] =>
        destruct (SendUDP_frame b x)
          as (E1 & E2 & E3 & E4 & E5 & E6 & E7 & E8 & E9 & E10 & E11 & E12)
    end.
    proj. rewrite E1, E2, E3, E4, E5, E6, E7, E8, E9, E10, E12.
    proj. rewrite Hc. repeat split.
Qed.

(** The whole tick on an active client. *)
Lemma idleTimerEvent_active (now : Z) (s : MumbleClient) :
  lockedIsActive s = true ->
  exists s', idleTimerEvent now s = Some s' /\ ActiveTick now s s'.
Proof.
  intros H. unfold idleTimerEvent. rewrite H.
  rewrite (reconcileChannel_active s H). cbn [bind].
  set (s1 := if channelDue s then _ else s).
  assert (H1 : lockedIsActive s1 = true).
  { rewrite <- H. subst s1. destruct (channelDue s); [|reflexivity].
    now apply lockedIsActive_same. }
  rewrite (reconcileListens_active s1 H1). cbn [bind].
  set (s2 := set_tls_out _ _).
  assert (H2 : lockedIsActive s2 = true).
  { rewrite <- H1. now apply lockedIsActive_same. }
  rewrite (flushVoiceTargets_active s2 H2). cbn [bind].
  set (s3 := set_m_pendingVoiceTargetUpdates _ _).
  assert (H3 : lockedIsActive (trackSelfChannel s3) = true).
  { rewrite <- H2. apply lockedIsActive_same;
      unfold trackSelfChannel; destruct (selfChannelName (m_state s3));
      reflexivity. }
  destruct (pingCadence_active now _ H3)
    as (s' & E & P1 & P2 & P3 & P4 & P5 & P6 & P7 & P8 & P9 & P10 & P11 & P12).
  exists s'. split; [exact E|].
  assert (T : forall (A : Type) (f : MumbleClient -> A),
             (forall n x, f (set_m_lastManualChannel n x) = f x) ->
             f (trackSelfChannel s3) = f s3).
  { intros A f Hf. unfold trackSelfChannel.
    destruct (selfChannelName (m_state s3)); auto. }
  assert (S1 : forall (A : Type) (f : MumbleClient -> A),
             (forall v x, f (set_tls_out v x) = f x) ->
             (forall n x, f (set_m_lastManualChannel n x) = f x) ->
             f s1 = f s).
  { intros A f Hf Hg. subst s1. destruct (channelDue s); auto.
    now rewrite Hf, Hg. }
  assert (Est : m_state s3 = m_state s).
  { subst s3 s2. proj. now apply (S1 _ m_state). }
  assert (Ecl : m_curChannelListens s1 = m_curChannelListens s).
  { now apply (S1 _ m_curChannelListens). }
  assert (Ell : m_lastChannelListens s1 = m_lastChannelListens s).
  { now apply (S1 _ m_lastChannelListens). }
  assert (Est1 : m_state s1 = m_state s) by now apply (S1 _ m_state).
  constructor.
  - rewrite P1, (T _ m_tlsClient) by reflexivity. subst s3 s2. proj.
    now apply (S1 _ m_tlsClient).
  - rewrite P2, (T _ m_state) by reflexivity. exact Est.
  - rewrite P3, (T _ m_curManualChannel) by reflexivity. subst s3 s2. proj.
    now apply (S1 _ m_curManualChannel).
  - rewrite P5, (T _ m_curChannelListens) by reflexivity. subst s3 s2. proj.
    exact Ecl.
  - rewrite P8, (T _ m_timeSinceJoin) by reflexivity. subst s3 s2. proj.
    now apply (S1 _ m_timeSinceJoin).
  - rewrite P4. unfold trackSelfChannel. rewrite Est.
    destruct (selfChannelName (m_state s)); [reflexivity|].
    subst s3 s2 s1. proj. destruct (channelDue s); reflexivity.
  - rewrite P6, (T _ m_lastChannelListens) by reflexivity. subst s3 s2. proj.
    now rewrite Est1, Ecl, Ell.
  - rewrite P7, (T _ m_pendingVoiceTargetUpdates) by reflexivity.
    reflexivity.
  - rewrite P9. unfold pingDue, pingTimedOut.
    rewrite (T _ m_nextPing), (T _ m_inFlightTcpPings),
      (T _ m_timeSinceJoin) by reflexivity.
    subst s3 s2. proj.
    now rewrite (S1 _ m_nextPing), (S1 _ m_inFlightTcpPings),
      (S1 _ m_timeSinceJoin).
  - rewrite P10. unfold pingDue.
    rewrite (T _ m_nextPing), (T _ m_inFlightTcpPings) by reflexivity.
    subst s3 s2. proj.
    now rewrite (S1 _ m_nextPing), (S1 _ m_inFlightTcpPings).
  - rewrite P11. unfold pingDue.
    rewrite (T _ m_nextPing) by reflexivity.
    subst s3 s2. proj. now rewrite (S1 _ m_nextPing).
  - rewrite P12.
    assert (Epw : pingWrites now (trackSelfChannel s3) = pingWrites now s).
    { unfold pingWrites, pingDue, pingTimedOut, pingMessage.
      rewrite (T _ m_nextPing), (T _ m_inFlightTcpPings),
        (T _ m_timeSinceJoin), (T _ m_crypto), (T _ m_tcpPing),
        (T _ m_udpPing) by reflexivity.
      subst s3 s2. proj.
      now rewrite (S1 _ m_nextPing), (S1 _ m_inFlightTcpPings),
        (S1 _ m_timeSinceJoin), (S1 _ m_crypto), (S1 _ m_tcpPing),
        (S1 _ m_udpPing). }
    rewrite Epw, (T _ tls_out) by reflexivity.
    assert (Epe : m_pendingVoiceTargetUpdates s1 = m_pendingVoiceTargetUpdates s)
      by now apply (S1 _ m_pendingVoiceTargetUpdates).
    subst s3 s2. proj. rewrite Est1, Ecl, Ell, Epe.
    assert (Et : tls_out s1 = tls_out s ++ channelWrites s).
    { subst s1. unfold channelWrites. destruct (channelDue s); proj;
        [reflexivity | now rewrite app_nil_r]. }
    rewrite Et. now rewrite <- !app_assoc.
Qed.

End Tick.

(** ** What the blocks of a tick put on the wire *)

Lemma messages_channelWrites (s : MumbleClient) :
  messages (channelWrites s)
  = if channelDue s
    then [snd (joinOrCreate (m_state s) (m_curManualChannel s))]
    else [].
Proof. unfold channelWrites. now destruct (channelDue s). Qed.

Lemma messages_listenWrites (st : MumbleClientState) (cur last : StrSet) :
  messages (listenWrites st cur last)
  = let d := listenDeltas st cur last in
    if negb (is_nil (fst (fst d))) || negb (is_nil (snd (fst d)))
    then [listenMessage st (fst (fst d)) (snd (fst d))]
    else [].
Proof.
  unfold listenWrites. cbv zeta.
  now destruct (negb (is_nil (fst (fst (listenDeltas st cur last))))
                || negb (is_nil (snd (fst (listenDeltas st cur last))))).
Qed.

Lemma messages_voiceTargetWrites (st : MumbleClientState)
    (pending : list (Z * VoiceTargetConfig)) :
  messages (voiceTargetWrites st pending)
  = map (fun e => MumbleProto.MVoiceTarget (voiceTargetFor st (fst e) (snd e)))
        pending.
Proof.
  induction pending as [|e rest IH]; [reflexivity|].
  unfold voiceTargetWrites in *. cbn [flat_map map].
  rewrite messages_app, IH. reflexivity.
Qed.

Lemma messages_pingWrites (now : Z) (s : MumbleClient) :
  messages (pingWrites now s)
  = if pingDue now s && negb (pingTimedOut now s)
    then [MumbleProto.MPing (pingMessage now s)]
    else [].
Proof.
  unfold pingWrites. now destruct (pingDue now s && negb (pingTimedOut now s)).
Qed.

Lemma joinOrCreate_channelMove (st : MumbleClientState) (n : string) :
  is_channelMove (snd (joinOrCreate st n)) = true.
Proof.
  unfold joinOrCreate.
  destruct (channel_named n (st_channels st)) as [[cid ch]|]; reflexivity.
Qed.

Lemma no_channelMove_in_listenWrites (st : MumbleClientState) (cur last : StrSet) :
  filter is_channelMove (messages (listenWrites st cur last)) = [].
Proof.
  rewrite messages_listenWrites. cbv zeta.
  now destruct (negb (is_nil (fst (fst (listenDeltas st cur last))))
                || negb (is_nil (snd (fst (listenDeltas st cur last))))).
Qed.

Lemma no_channelMove_in_voiceTargetWrites (st : MumbleClientState)
    (pending : list (Z * VoiceTargetConfig)) :
  filter is_channelMove (messages (voiceTargetWrites st pending)) = [].
Proof.
  rewrite messages_voiceTargetWrites.
  induction pending as [|e rest IH]; [reflexivity | exact IH].
Qed.

Lemma no_channelMove_in_pingWrites (now : Z) (s : MumbleClient) :
  filter is_channelMove (messages (pingWrites now s)) = [].
Proof.
  rewrite messages_pingWrites.
  now destruct (pingDue now s && negb (pingTimedOut now s)).
Qed.

(** The channel moves among the messages of an active tick. *)
Lemma channelMoves_of_tick (now : Z) (s s' : MumbleClient) :
  ActiveTick now s s' ->
  filter is_channelMove (emitted s s')
  = if channelDue s
    then [snd (joinOrCreate (m_state s) (m_curManualChannel s))]
    else [].
Proof.
  intros T. rewrite (emitted_app _ _ _ (tick_tls_out _ _ _ T)).
  rewrite !messages_app, !filter_app.
  rewrite no_channelMove_in_listenWrites, no_channelMove_in_voiceTargetWrites,
    no_channelMove_in_pingWrites, !app_nil_r.
  rewrite messages_channelWrites. destruct (channelDue s); [|reflexivity].
  cbn [filter]. now rewrite joinOrCreate_channelMove.
Qed.

Lemma channel_named_some (n : string) (chs : list (Z * MumbleChannel)) :
  (exists c, In c chs /\ ch_name (snd c) = n) ->
  exists cid ch, channel_named n chs = Some (cid, ch) /\
                 In (cid, ch) chs /\ ch_name ch = n.
Proof.
  intros (c & Hin & Hn). unfold channel_named.
  destruct (find (fun ch => (ch_name (snd ch) =? n)%string) chs)
    as [[cid ch]|] eqn:E.
  - apply find_some in E as [Hi He]. exists cid, ch.
    repeat split; auto. now apply String.eqb_eq in He.
  - apply (find_none _ _ E) in Hin. simpl in Hin.
    apply String.eqb_neq in Hin. contradiction.
Qed.

Lemma channel_named_none (n : string) (chs : list (Z * MumbleChannel)) :
  (forall c, In c chs -> ch_name (snd c) <> n) -> channel_named n chs = None.
Proof.
  intros H. unfold channel_named.
  destruct (find (fun ch => (ch_name (snd ch) =? n)%string) chs)
    as [[cid ch]|] eqn:E; [|reflexivity].
  apply find_some in E as [Hi He]. apply String.eqb_eq in He.
  now apply H in Hi.
Qed.

Section ChannelReconciliation.

Context {crypto_ops : CryptoOps} {pds_ops : PacketDataStreamOps}.

(** A tick of a client that is not active writes nothing to the TLS
    session. *)
Lemma idleTimerEvent_inactive (now : Z) (s : MumbleClient) :
  lockedIsActive s = false ->
  exists s', idleTimerEvent now s = Some s' /\
             tls_out s' = tls_out s /\
             m_connectionInfo s' = m_connectionInfo s /\
             m_tlsClient s' = m_tlsClient s.
Proof.
  intros H. unfold idleTimerEvent. rewrite H.
  destruct (negb (addressFamily (m_connectionInfo s) =? 0));
    eexists; repeat split.
Qed.

(** A tick of a client that is not active leaves the store and the two
    channel names alone. *)
Lemma idleTimerEvent_inactive_keeps (now : Z) (s : MumbleClient) :
  lockedIsActive s = false ->
  exists s', idleTimerEvent now s = Some s' /\
             tls_out s' = tls_out s /\
             m_state s' = m_state s /\
             m_curManualChannel s' = m_curManualChannel s /\
             m_lastManualChannel s' = m_lastManualChannel s.
Proof.
  intros H. unfold idleTimerEvent. rewrite H.
  destruct (negb (addressFamily (m_connectionInfo s) =? 0));
    eexists; repeat split.
Qed.

(** While our user sits in a channel named [other] and another channel is
    wanted, every tick of an active client asks for the wanted channel and
    stores [other] again. *)
Lemma tickChannelMoves_repeat (s : MumbleClient) (other : string)
    (ts : list Z) (t : MumbleClient) :
  st_channels (m_state s) <> [] ->
  selfChannelName (m_state s) = Some other ->
  other <> m_curManualChannel s ->
  m_state t = m_state s ->
  m_curManualChannel t = m_curManualChannel s ->
  m_lastManualChannel t = other ->
  List.length (tickChannelMoves ts t) = List.length ts /\
  Forall (fun e : bool * list MumbleProto.Message =>
            snd e
            = if fst e
              then [snd (joinOrCreate (m_state s) (m_curManualChannel s))]
              else [])
         (tickChannelMoves ts t).
Proof.
  intros Hch Hself Hother. revert t.
  induction ts as [|now r IH]; intros t Hst Hcur Hlast.
  - split; [reflexivity | constructor].
  - cbn [tickChannelMoves]. destruct (lockedIsActive t) eqn:Ha.
    + destruct (idleTimerEvent_active now t Ha) as (t' & E & T).
      rewrite E.
      destruct (IH t') as [Hlen Hall].
      * now rewrite (tick_state _ _ _ T).
      * now rewrite (tick_curManualChannel _ _ _ T).
      * now rewrite (tick_lastManualChannel _ _ _ T), Hst, Hself.
      * split; [cbn [List.length]; now rewrite Hlen|].
        constructor; [|exact Hall]. cbn [fst snd].
        rewrite (channelMoves_of_tick now t t' T).
        assert (Hdue : channelDue t = true).
        { unfold channelDue. rewrite Hcur, Hlast, Hst.
          apply not_eq_sym, String.eqb_neq in Hother. rewrite Hother.
          destruct (st_channels (m_state s)); [congruence | reflexivity]. }
        now rewrite Hdue, Hst, Hcur.
    + destruct (idleTimerEvent_inactive_keeps now t Ha)
        as (t' & E & Ht & Hst' & Hcur' & Hlast').
      rewrite E.
      destruct (IH t') as [Hlen Hall]; try congruence.
      split; [cbn [List.length]; now rewrite Hlen|].
      constructor; [|exact Hall]. cbn [fst snd].
      now rewrite (emitted_same _ _ Ht).
Qed.

(** C2, as amended. On a tick of an active client whose desired channel
    name differs from [m_lastManualChannel] and whose store has a channel:
    if a stored channel has the desired name, the tick emits exactly one
    channel move, the [UserState] with our session and the id of the
    first such channel; otherwise it emits exactly one, the
    [ChannelState] with parent 0, the desired name and temporary set. A
    second tick with nothing changed in between emits no channel move,
    provided the self-channel tracking of the first tick had no other
    name to store: our session is not in the store, or its channel is
    unknown or unnamed, or it already carries the desired name. While
    our user sits in a channel with another name that is not empty, the
    first tick stores that name in [m_lastManualChannel] again, and along
    every run of further ticks each tick that finds the client active
    emits the same request again, and each tick that does not (a ping
    timeout has marked the client as not connected) emits none.
    [SetChannel] with the current name, or on a client that is not
    connected, changes nothing. *)
Theorem channel_move_emitted_once (now now2 : Z) (s : MumbleClient) :
  lockedIsActive s = true ->
  m_curManualChannel s <> m_lastManualChannel s ->
  st_channels (m_state s) <> [] ->
  exists s1,
    idleTimerEvent now s = Some s1 /\
    ((exists c, In c (st_channels (m_state s)) /\
                ch_name (snd c) = m_curManualChannel s) ->
     exists cid ch,
       channel_named (m_curManualChannel s) (st_channels (m_state s))
       = Some (cid, ch) /\
       In (cid, ch) (st_channels (m_state s)) /\
       ch_name ch = m_curManualChannel s /\
       filter is_channelMove (emitted s s1)
       = [MumbleProto.MUserState
            {| MumbleProto.session := st_session (m_state s);
               MumbleProto.channel_id := Some cid;
               MumbleProto.listening_channel_add := [];
               MumbleProto.listening_channel_remove := [] |}] /\
       exists pre post,
         st_channels (m_state s) = pre ++ (cid, ch) :: post /\
         Forall (fun c => ch_name (snd c) <> m_curManualChannel s) pre) /\
    ((forall c, In c (st_channels (m_state s)) ->
                ch_name (snd c) <> m_curManualChannel s) ->
     filter is_channelMove (emitted s s1)
     = [MumbleProto.MChannelState
          {| MumbleProto.parent := 0;
             MumbleProto.name := m_curManualChannel s;
             MumbleProto.temporary := true |}]) /\
    ((selfChannelName (m_state s) = None \/
      selfChannelName (m_state s) = Some (m_curManualChannel s)) ->
     exists s2, idleTimerEvent now2 s1 = Some s2 /\
                filter is_channelMove (emitted s1 s2) = []) /\
    (forall other,
        selfChannelName (m_state s) = Some other ->
        other <> m_curManualChannel s ->
        m_lastManualChannel s1 = other /\
        forall ts,
          List.length (tickChannelMoves ts s1) = List.length ts /\
          Forall (fun e : bool * list MumbleProto.Message =>
                    snd e
                    = if fst e
                      then [snd (joinOrCreate (m_state s)
                                              (m_curManualChannel s))]
                      else [])
                 (tickChannelMoves ts s1)) /\
    SetChannel (m_curManualChannel s) s = s /\
    (forall name s0, isConnected (m_connectionInfo s0) = false ->
                     SetChannel name s0 = s0).
Proof.
  intros Ha Hne Hch.
  destruct (idleTimerEvent_active now s Ha) as (s1 & E1 & T1).
  exists s1. split; [exact E1|].
  assert (Hdue : channelDue s = true).
  { unfold channelDue. apply andb_true_iff. split.
    - apply negb_true_iff, String.eqb_neq, Hne.
    - destruct (st_channels (m_state s)); [congruence | reflexivity]. }
  pose proof (channelMoves_of_tick now s s1 T1) as Hm. rewrite Hdue in Hm.
  split; [|split; [|split; [|split; [|split]]]].
  - intros Hex. destruct (channel_named_some _ _ Hex) as (cid & ch & Hf & Hi & Hn).
    exists cid, ch. split; [exact Hf|]. split; [exact Hi|].
    split; [exact Hn|]. split.
    + rewrite Hm. unfold joinOrCreate. now rewrite Hf.
    + unfold channel_named in Hf.
      destruct (find_split _ _ _ Hf) as (pre & post & Hs & Hpre & _).
      exists pre, post. split; [exact Hs|].
      eapply Forall_impl; [|exact Hpre]. cbv beta.
      intros c Hc. now apply String.eqb_neq.
  - intros Hno. rewrite Hm. unfold joinOrCreate.
    now rewrite (channel_named_none _ _ Hno).
  - intros Hself.
    assert (Hlast : m_lastManualChannel s1 = m_curManualChannel s1).
    { rewrite (tick_lastManualChannel _ _ _ T1),
        (tick_curManualChannel _ _ _ T1), Hdue.
      destruct Hself as [-> | ->]; reflexivity. }
    destruct (lockedIsActive s1) eqn:Ha1.
    + destruct (idleTimerEvent_active now2 s1 Ha1) as (s2 & E2 & T2).
      exists s2. split; [exact E2|].
      rewrite (channelMoves_of_tick now2 s1 s2 T2).
      unfold channelDue. rewrite Hlast, String.eqb_refl. reflexivity.
    + destruct (idleTimerEvent_inactive now2 s1 Ha1) as (s2 & E2 & Ht & _).
      exists s2. split; [exact E2|].
      now rewrite (emitted_same _ _ Ht).
  - intros other Hself Hother.
    assert (Hlast : m_lastManualChannel s1 = other)
      by now rewrite (tick_lastManualChannel _ _ _ T1), Hself.
    split; [exact Hlast|]. intros ts.
    apply tickChannelMoves_repeat with (other := other); auto.
    + exact (tick_state _ _ _ T1).
    + exact (tick_curManualChannel _ _ _ T1).
  - unfold SetChannel. rewrite String.eqb_refl.
    now destruct (negb (isConnected (m_connectionInfo s))).
  - intros name s0 H0. unfold SetChannel. now rewrite H0.
Qed.

End ChannelReconciliation.

Lemma channel_move_emitted_once_witness :
  exists s1,
    @idleTimerEvent Sample.crypto Sample.pds 1000 Sample.unsynced = Some s1 /\
    filter is_channelMove (emitted Sample.unsynced s1)
    = [MumbleProto.MUserState
         {| MumbleProto.session := 5;
            MumbleProto.channel_id := Some 1;
            MumbleProto.listening_channel_add := [];
            MumbleProto.listening_channel_remove := [] |}] /\
    exists s2,
      @idleTimerEvent Sample.crypto Sample.pds 1500 s1 = Some s2 /\
      filter is_channelMove (emitted s1 s2) = [].
Proof.
  destruct (@channel_move_emitted_once Sample.crypto Sample.pds 1000 1500
              Sample.unsynced)
    as (s1 & E1 & Hjoin & _ & Hsecond & _).
  - reflexivity.
  - discriminate.
  - discriminate.
  - exists s1. split; [exact E1|]. split.
    + destruct Hjoin as (cid & ch & Hf & _ & _ & Hm & _).
      * exists (1, Sample.lobby). split; [right; left; reflexivity | reflexivity].
      * vm_compute in Hf. injection Hf as <- <-. exact Hm.
    + apply Hsecond. left. reflexivity.
Defined.

(** C2, as stated, fails: the client sits in "Root" and wants "Lobby"; the
    first tick asks for the move and then stores "Root" again as the last
    channel, so the second tick, with nothing changed, asks once more. *)
Lemma channel_move_repeated_on_second_tick :
  lockedIsActive Sample.client = true /\
  m_curManualChannel Sample.client <> m_lastManualChannel Sample.client /\
  exists s1 s2,
    @idleTimerEvent Sample.crypto Sample.pds 1000 Sample.client = Some s1 /\
    @idleTimerEvent Sample.crypto Sample.pds 1500 s1 = Some s2 /\
    m_curManualChannel s1 = m_curManualChannel Sample.client /\
    m_state s1 = m_state Sample.client /\
    filter is_channelMove (emitted s1 s2)
    = [MumbleProto.MUserState
         {| MumbleProto.session := 5;
            MumbleProto.channel_id := Some 1;
            MumbleProto.listening_channel_add := [];
            MumbleProto.listening_channel_remove := [] |}].
Proof.
  split; [reflexivity|]. split; [discriminate|].
  eexists. eexists. split; [vm_compute; reflexivity|].
  split; [vm_compute; reflexivity|].
  repeat split.
Qed.

(** ** The ping timeout *)

Section PingTimeout.

Context {crypto_ops : CryptoOps} {pds_ops : PacketDataStreamOps}.

Lemma runTicks_cons (t : Z) (r : list Z) (s s' : MumbleClient) :
  idleTimerEvent t s = Some s' ->
  runTicks (t :: r) s = s' :: runTicks r s'.
Proof. intros H. cbn [runTicks]. now rewrite H. Qed.

Lemma runTicks_total (ts : list Z) (s : MumbleClient) :
  List.length (runTicks ts s) = List.length ts.
Proof.
  revert s. induction ts as [|t r IH]; intros s; [reflexivity|].
  destruct (lockedIsActive s) eqn:Ha.
  - destruct (idleTimerEvent_active t s Ha) as (s' & E & _).
    rewrite (runTicks_cons _ _ _ _ E). simpl. now rewrite IH.
  - destruct (idleTimerEvent_inactive t s Ha) as (s' & E & _).
    rewrite (runTicks_cons _ _ _ _ E). simpl. now rewrite IH.
Qed.

Lemma not_connected_not_active (s : MumbleClient) :
  connected s = false -> lockedIsActive s = false.
Proof.
  unfold connected, lockedIsActive. intros ->. apply andb_false_r.
Qed.

(** Once [isConnected] is false, ticks alone leave it false. *)
Lemma runTicks_stay_disconnected (ts : list Z) (s : MumbleClient) :
  connected s = false ->
  falls false (map connected (runTicks ts s)) = O.
Proof.
  revert s. induction ts as [|t r IH]; intros s Hc; [reflexivity|].
  destruct (idleTimerEvent_inactive t s (not_connected_not_active s Hc))
    as (s' & E & _ & Hi & _).
  rewrite (runTicks_cons _ _ _ _ E). cbn [map falls].
  assert (Hc' : connected s' = false) by (unfold connected; now rewrite Hi).
  rewrite Hc'. now apply IH.
Qed.

Lemma runTicks_fall_at_most_once (ts : list Z) (s : MumbleClient) :
  (falls (connected s) (map connected (runTicks ts s)) <= 1)%nat.
Proof.
  revert s. induction ts as [|t r IH]; intros s; [simpl; lia|].
  destruct (lockedIsActive s) eqn:Ha.
  - destruct (idleTimerEvent_active t s Ha) as (s' & E & T).
    rewrite (runTicks_cons _ _ _ _ E). cbn [map falls].
    destruct (connected s') eqn:Hc'.
    + rewrite andb_false_r. simpl. rewrite <- Hc'. apply IH.
    + rewrite (runTicks_stay_disconnected r s' Hc').
      destruct (connected s); simpl; lia.
  - destruct (idleTimerEvent_inactive t s Ha) as (s' & E & _ & Hi & _).
    rewrite (runTicks_cons _ _ _ _ E). cbn [map falls].
    assert (Hc' : connected s' = connected s)
      by (unfold connected; now rewrite Hi).
    rewrite Hc'.
    replace (connected s && negb (connected s)) with false
      by (destruct (connected s); reflexivity).
    simpl. rewrite <- Hc'. apply IH.
Qed.

Lemma tick_due_disconnects_iff (now : Z) (s s' : MumbleClient) :
  ActiveTick now s s' ->
  now > m_nextPing s ->
  (connected s' = false <->
   m_inFlightTcpPings s >= 4 /\ now - m_timeSinceJoin s > k20s).
Proof.
  intros T Hdue. unfold connected. rewrite (tick_isConnected _ _ _ T).
  unfold pingDue, pingTimedOut.
  apply Z.gt_lt, Z.gtb_lt in Hdue. rewrite Hdue. simpl.
  rewrite negb_false_iff, andb_true_iff, Z.geb_le, Z.gtb_lt. lia.
Qed.

Lemma runTicks_timeout_once (ts : list Z) (s : MumbleClient) :
  lockedIsActive s = true ->
  pingEligible (m_nextPing s) ts ->
  Forall (fun t => t - m_timeSinceJoin s > k20s) ts ->
  0 <= m_inFlightTcpPings s ->
  (if m_inFlightTcpPings s >=? 4 then 1 else 5 - m_inFlightTcpPings s)
  <= Z.of_nat (List.length ts) ->
  falls true (map connected (runTicks ts s)) = 1%nat.
Proof.
  revert s. induction ts as [|t r IH]; intros s Ha He Hage Hk Hlen.
  - cbn [List.length Z.of_nat] in Hlen.
    destruct (m_inFlightTcpPings s >=? 4) eqn:E; [lia|].
    rewrite Z.geb_leb in E. apply Z.leb_gt in E. lia.
  - destruct He as [Hdue He].
    inversion Hage as [|? ? Ht Hage']; subst.
    destruct (idleTimerEvent_active t s Ha) as (s' & E & T).
    rewrite (runTicks_cons _ _ _ _ E). cbn [map falls].
    pose proof (tick_due_disconnects_iff t s s' T Hdue) as Hiff.
    destruct (connected s') eqn:Hc'.
    + simpl.
      assert (Hlow : m_inFlightTcpPings s < 4).
      { destruct (Z_lt_ge_dec (m_inFlightTcpPings s) 4) as [|Hge]; auto.
        assert (false = true -> False) by discriminate.
        destruct Hiff as [_ Hback].
        assert (true = false) by (apply Hback; split; [lia | exact Ht]).
        discriminate. }
      assert (Hdue' : pingDue t s = true).
      { unfold pingDue. now apply Z.gtb_lt, Z.gt_lt. }
      assert (Hin : m_inFlightTcpPings s' = m_inFlightTcpPings s + 1).
      { rewrite (tick_inFlight _ _ _ T), Hdue'. unfold u32.
        apply Z.mod_small. lia. }
      apply IH.
      * unfold lockedIsActive. rewrite (tick_tlsClient _ _ _ T).
        unfold connected in Hc'. rewrite Hc'.
        unfold lockedIsActive in Ha. apply andb_true_iff in Ha as [Ha _].
        now rewrite Ha.
      * now rewrite (tick_nextPing _ _ _ T), Hdue'.
      * now rewrite (tick_timeSinceJoin _ _ _ T).
      * lia.
      * rewrite Hin. cbn [List.length] in Hlen. rewrite Nat2Z.inj_succ in Hlen.
        destruct (m_inFlightTcpPings s >=? 4) eqn:E4.
        { rewrite Z.geb_leb in E4. apply Z.leb_le in E4. lia. }
        destruct (m_inFlightTcpPings s + 1 >=? 4) eqn:E5.
        { rewrite Z.geb_leb in E5. apply Z.leb_le in E5. lia. }
        lia.
    + simpl. now rewrite (runTicks_stay_disconnected r s' Hc').
Qed.

(** C5. On a tick of an active client whose ping is due, [isConnected]
    becomes false exactly when at least four TCP pings are in flight and
    the session is more than 20 s old. A ping from the server resets the
    count of pings in flight to 0. Along a run of ticks with no other
    event, [isConnected] falls at most once, and it falls exactly once
    when the session is older than 20 s and the run has enough ticks with
    a due ping for the count to be found at 4 (five from a count of 0).
    The tick that follows on a client with a server address arms the
    connect timer for 2500 ms and stops the idle timer: the reconnect. *)
Theorem ping_timeout_disconnects_once (now : Z) (ping : MumbleProto.Ping)
    (ts : list Z) (s : MumbleClient) :
  lockedIsActive s = true ->
  (now > m_nextPing s ->
   exists s', idleTimerEvent now s = Some s' /\
              (connected s' = false <->
               m_inFlightTcpPings s >= 4 /\ now - m_timeSinceJoin s > k20s)) /\
  m_inFlightTcpPings (HandlePing now ping s) = 0 /\
  List.length (runTicks ts s) = List.length ts /\
  (falls (connected s) (map connected (runTicks ts s)) <= 1)%nat /\
  (pingEligible (m_nextPing s) ts ->
   Forall (fun t => t - m_timeSinceJoin s > k20s) ts ->
   0 <= m_inFlightTcpPings s ->
   (5 <= List.length ts)%nat ->
   falls (connected s) (map connected (runTicks ts s)) = 1%nat) /\
  (forall now' s',
      connected s' = false ->
      addressFamily (m_connectionInfo s') <> 0 ->
      exists s'', idleTimerEvent now' s' = Some s'' /\
                  m_connectTimer s'' = Some 2500 /\
                  m_idleTimer s'' = false).
Proof.
  intros Ha. split; [|split; [|split; [|split; [|split]]]].
  - intros Hdue. destruct (idleTimerEvent_active now s Ha) as (s' & E & T).
    exists s'. split; [exact E|]. now apply tick_due_disconnects_iff.
  - apply HandlePing_inFlight.
  - apply runTicks_total.
  - apply runTicks_fall_at_most_once.
  - intros He Hage Hk Hlen.
    unfold connected at 1. rewrite (lockedIsActive_connected s Ha).
    apply runTicks_timeout_once; auto.
    destruct (m_inFlightTcpPings s >=? 4); lia.
  - intros now' s' Hc Hf. unfold idleTimerEvent.
    rewrite (not_connected_not_active s' Hc).
    apply Z.eqb_neq in Hf. rewrite Hf. cbn [negb].
    eexists. repeat split.
Qed.

End PingTimeout.

Lemma ping_timeout_disconnects_once_witness :
  falls (connected Sample.client)
        (map connected
             (@runTicks Sample.crypto Sample.pds
                [21000; 22500; 24000; 25500; 27000; 28500] Sample.client))
  = 1%nat.
Proof.
  refine (proj1 (proj2 (proj2 (proj2 (proj2
            (@ping_timeout_disconnects_once Sample.crypto Sample.pds
               21000 Sample.lostPing
               [21000; 22500; 24000; 25500; 27000; 28500] Sample.client _)))))
            _ _ _ _).
  - reflexivity.
  - vm_compute. repeat split.
  - repeat constructor.
  - discriminate.
  - simpl. lia.
Defined.

(** ** The voice-target flush *)

Lemma voiceTargets_app (l r : list MumbleProto.Message) :
  voiceTargets (l ++ r) = voiceTargets l ++ voiceTargets r.
Proof. unfold voiceTargets. apply flat_map_app. Qed.

Lemma voiceTargets_of_tick (now : Z) (s s' : MumbleClient) :
  ActiveTick now s s' ->
  voiceTargets (emitted s s')
  = map (fun e => voiceTargetFor (m_state s) (fst e) (snd e))
        (m_pendingVoiceTargetUpdates s).
Proof.
  intros T. rewrite (emitted_app _ _ _ (tick_tls_out _ _ _ T)).
  rewrite !messages_app, !voiceTargets_app.
  rewrite messages_channelWrites, messages_listenWrites, messages_pingWrites,
    messages_voiceTargetWrites.
  replace (voiceTargets (if channelDue s then _ else [])) with
    (@nil MumbleProto.VoiceTarget).
  2:{ destruct (channelDue s); [|reflexivity].
      unfold joinOrCreate.
      destruct (channel_named _ _) as [[cid ch]|]; reflexivity. }
  cbv zeta.
  replace (voiceTargets (if negb _ || negb _ then _ else [])) with
    (@nil MumbleProto.VoiceTarget).
  2:{ now destruct (negb _ || negb _). }
  replace (voiceTargets (if pingDue now s && _ then _ else [])) with
    (@nil MumbleProto.VoiceTarget).
  2:{ now destruct (pingDue now s && _). }
  rewrite app_nil_r. cbn [app].
  induction (m_pendingVoiceTargetUpdates s) as [|e rest IH]; [reflexivity|].
  cbn [map voiceTargets flat_map app]. f_equal. exact IH.
Qed.

(** The session ids of the first sub-target. *)
Lemma voiceTarget_sessions (st : MumbleClientState) (names : list string) (x : Z) :
  In x (flat_map
          (fun userName =>
             map user_session
                 (filter (fun u => String.eqb (user_name u) userName)
                         (st_users st)))
          names)
  <-> exists u, In u (st_users st) /\ In (user_name u) names /\
                user_session u = x.
Proof.
  rewrite in_flat_map. split.
  - intros (n & Hn & Hx). apply in_map_iff in Hx as (u & Hu & Hf).
    apply filter_In in Hf as [Hin He]. apply String.eqb_eq in He. subst n.
    now exists u.
  - intros (u & Hin & Hn & Hx). exists (user_name u). split; [exact Hn|].
    apply in_map_iff. exists u. split; [exact Hx|].
    apply filter_In. split; [exact Hin | apply String.eqb_refl].
Qed.

(** The channel sub-targets. *)
Lemma voiceTarget_channels (st : MumbleClientState) (names : list string)
    (t : MumbleProto.VoiceTarget_Target) :
  In t (flat_map
          (fun channelName =>
             map (fun ch => {| MumbleProto.vt_session := [];
                               MumbleProto.vt_channel_id := Some (fst ch) |})
                 (filter (fun ch => String.eqb (ch_name (snd ch)) channelName)
                         (st_channels st)))
          names)
  <-> exists c, In c (st_channels st) /\ In (ch_name (snd c)) names /\
                t = {| MumbleProto.vt_session := [];
                       MumbleProto.vt_channel_id := Some (fst c) |}.
Proof.
  rewrite in_flat_map. split.
  - intros (n & Hn & Hx). apply in_map_iff in Hx as (c & Hc & Hf).
    apply filter_In in Hf as [Hin He]. apply String.eqb_eq in He. subst n.
    now exists c.
  - intros (c & Hin & Hn & Hx). exists (ch_name (snd c)). split; [exact Hn|].
    apply in_map_iff. exists c. split; [now symmetry|].
    apply filter_In. split; [exact Hin | apply String.eqb_refl].
Qed.

(** The number of channel sub-targets: for each configured name, the
    number of stored channels that bear it. *)
Lemma voiceTarget_channel_count (st : MumbleClientState) (names : list string) :
  List.length
    (flat_map
       (fun channelName =>
          map (fun ch => {| MumbleProto.vt_session := [];
                            MumbleProto.vt_channel_id := Some (fst ch) |})
              (filter (fun ch => String.eqb (ch_name (snd ch)) channelName)
                      (st_channels st)))
       names)
  = list_sum
      (map (fun channelName =>
              List.length
                (filter (fun ch => String.eqb (ch_name (snd ch)) channelName)
                        (st_channels st)))
           names).
Proof.
  induction names as [|n r IH]; [reflexivity|].
  cbn [flat_map map list_sum]. now rewrite length_app, length_map, IH.
Qed.

Section VoiceTargets.

Context {crypto_ops : CryptoOps} {pds_ops : PacketDataStreamOps}.

(** C8, as amended. On a tick of an active client, the [VoiceTarget]
    messages emitted are, in the order of the map, one per entry of
    [m_pendingVoiceTargetUpdates]. The message of the entry
    [(idx, {users, channels})] carries the id [idx]; its first sub-target
    has no channel and holds the session ids of the stored users whose
    name is in [users]; it is followed by one sub-target per stored
    channel whose name is in [channels] (two channels of one name give
    two), each with that channel's id and no session; names that match
    nothing contribute nothing. The map is empty after the tick, and the
    next tick emits no [VoiceTarget]. *)
Theorem voice_targets_flushed_once (now now2 : Z) (s : MumbleClient) :
  lockedIsActive s = true ->
  exists s',
    idleTimerEvent now s = Some s' /\
    voiceTargets (emitted s s')
    = map (fun e => voiceTargetFor (m_state s) (fst e) (snd e))
          (m_pendingVoiceTargetUpdates s) /\
    (forall idx config,
        In (idx, config) (m_pendingVoiceTargetUpdates s) ->
        let v := voiceTargetFor (m_state s) idx config in
        (0 <= idx < 2 ^ 32 -> MumbleProto.id v = idx) /\
        exists first rest,
          MumbleProto.targets v = first :: rest /\
          MumbleProto.vt_channel_id first = None /\
          (forall x, In x (MumbleProto.vt_session first) <->
                     exists u, In u (st_users (m_state s)) /\
                               In (user_name u) (users config) /\
                               user_session u = x) /\
          (forall t, In t rest <->
                     exists c, In c (st_channels (m_state s)) /\
                               In (ch_name (snd c)) (channels config) /\
                               t = {| MumbleProto.vt_session := [];
                                      MumbleProto.vt_channel_id :=
                                        Some (fst c) |}) /\
          List.length rest
          = list_sum
              (map (fun channelName =>
                      List.length
                        (filter (fun ch => String.eqb (ch_name (snd ch))
                                                      channelName)
                                (st_channels (m_state s))))
                   (channels config))) /\
    m_pendingVoiceTargetUpdates s' = [] /\
    exists s'', idleTimerEvent now2 s' = Some s'' /\
                voiceTargets (emitted s' s'') = [].
Proof.
  intros Ha. destruct (idleTimerEvent_active now s Ha) as (s' & E & T).
  exists s'. split; [exact E|].
  split; [exact (voiceTargets_of_tick now s s' T)|].
  split; [|split; [exact (tick_pending _ _ _ T)|]].
  - intros idx config Hin v. split.
    + intros Hr. subst v. cbn. unfold u32. now apply Z.mod_small.
    + eexists. eexists. split; [reflexivity|]. split; [reflexivity|].
      split; [|split].
      * intros x. apply voiceTarget_sessions.
      * intros t. apply voiceTarget_channels.
      * apply voiceTarget_channel_count.
  - destruct (lockedIsActive s') eqn:Ha'.
    + destruct (idleTimerEvent_active now2 s' Ha') as (s'' & E' & T').
      exists s''. split; [exact E'|].
      rewrite (voiceTargets_of_tick _ _ _ T'), (tick_pending _ _ _ T).
      reflexivity.
    + destruct (idleTimerEvent_inactive now2 s' Ha') as (s'' & E' & Ht & _).
      exists s''. split; [exact E'|]. now rewrite (emitted_same _ _ Ht).
Qed.

End VoiceTargets.

Lemma voice_targets_flushed_once_witness :
  exists s',
    @idleTimerEvent Sample.crypto Sample.pds 1000 Sample.whisper = Some s' /\
    voiceTargets (emitted Sample.whisper s')
    = map (fun e => voiceTargetFor (m_state Sample.whisper) (fst e) (snd e))
          (m_pendingVoiceTargetUpdates Sample.whisper) /\
    m_pendingVoiceTargetUpdates s' = [].
Proof.
  destruct (@voice_targets_flushed_once Sample.crypto Sample.pds 1000 1500
              Sample.whisper)
    as (s' & E & Hv & _ & Hp & _).
  - reflexivity.
  - exists s'. repeat split; assumption.
Defined.

(** C8, as stated, fails: the store has two channels named "Twin" and the
    pending entry names "Twin" once; the message has the sub-target of the
    users and two channel sub-targets, not one. *)
Lemma voice_target_one_name_two_subtargets :
  lockedIsActive Sample.whisper = true /\
  m_pendingVoiceTargetUpdates Sample.whisper
  = [(1, {| users := ["me"%string]; channels := ["Twin"%string] |})] /\
  exists s',
    @idleTimerEvent Sample.crypto Sample.pds 1000 Sample.whisper = Some s' /\
    voiceTargets (emitted Sample.whisper s')
    = [{| MumbleProto.id := 1;
          MumbleProto.targets :=
            [{| MumbleProto.vt_session := [5];
                MumbleProto.vt_channel_id := None |};
             {| MumbleProto.vt_session := [];
                MumbleProto.vt_channel_id := Some 7 |};
             {| MumbleProto.vt_session := [];
                MumbleProto.vt_channel_id := Some 8 |}] |}].
Proof.
  split; [reflexivity|]. split; [reflexivity|].
  eexists. split; vm_compute; reflexivity.
Qed.

(** ** Ordered sets of names *)

Lemma str_ltb_lt (a b : string) : str_ltb a b = true <-> str_lt a b.
Proof.
  unfold str_ltb, str_lt, String_as_OT.lt.
  destruct (String_as_OT.compare a b); split; congruence.
Qed.

Lemma str_lt_irrefl (a : string) : ~ str_lt a a.
Proof. apply (@StrictOrder_Irreflexive _ _ String_as_OT.lt_strorder). Qed.

Lemma str_lt_trans (a b c : string) : str_lt a b -> str_lt b c -> str_lt a c.
Proof. apply (@StrictOrder_Transitive _ _ String_as_OT.lt_strorder). Qed.

Lemma str_lt_neq (a b : string) : str_lt a b -> a <> b.
Proof. intros H ->. exact (str_lt_irrefl _ H). Qed.

Lemma str_compare_cases (a b : string) :
  (String_as_OT.compare a b = Lt /\ str_lt a b) \/
  (String_as_OT.compare a b = Eq /\ a = b) \/
  (String_as_OT.compare a b = Gt /\ str_lt b a).
Proof.
  destruct (String_as_OT.compare_spec a b); auto.
Qed.

Lemma set_ok_inv (x : string) (l : StrSet) :
  set_ok (x :: l) -> set_ok l /\ Forall (str_lt x) l.
Proof. intros H. inversion H; auto. Qed.

Lemma set_ok_head_not_in (x : string) (l : StrSet) :
  Forall (str_lt x) l -> ~ In x l.
Proof.
  intros H Hin. rewrite Forall_forall in H.
  exact (str_lt_irrefl _ (H _ Hin)).
Qed.

Lemma Forall_lt_trans (x y : string) (l : StrSet) :
  str_lt x y -> Forall (str_lt y) l -> Forall (str_lt x) l.
Proof.
  intros Hxy H. eapply Forall_impl; [|exact H].
  intros z Hz. exact (str_lt_trans _ _ _ Hxy Hz).
Qed.

Lemma set_insert_In (x : string) (l : StrSet) (z : string) :
  In z (set_insert x l) <-> z = x \/ In z l.
Proof.
  induction l as [|y r IH]; simpl.
  - intuition.
  - destruct (str_compare_cases x y) as [[-> _] | [[-> ->] | [-> _]]]; simpl.
    + intuition.
    + intuition.
    + rewrite IH. intuition.
Qed.

Lemma set_insert_ok (x : string) (l : StrSet) :
  set_ok l -> set_ok (set_insert x l).
Proof.
  unfold set_ok. induction l as [|y r IH]; intros H; simpl.
  - repeat constructor.
  - apply set_ok_inv in H as [Hr Hy].
    destruct (str_compare_cases x y) as [[-> Hlt] | [[-> ->] | [-> Hgt]]].
    + constructor; [constructor; auto|].
      constructor; [exact Hlt | exact (Forall_lt_trans _ _ _ Hlt Hy)].
    + constructor; auto.
    + constructor; [apply IH, Hr|].
      apply Forall_forall. intros z Hz. apply set_insert_In in Hz as [-> | Hz].
      * exact Hgt.
      * rewrite Forall_forall in Hy. auto.
Qed.

Lemma set_erase_In (x : string) (l : StrSet) (z : string) :
  set_ok l -> (In z (set_erase x l) <-> z <> x /\ In z l).
Proof.
  unfold set_ok. induction l as [|y r IH]; intros H; simpl.
  - intuition.
  - apply set_ok_inv in H as [Hr Hy].
    destruct (str_compare_cases x y) as [[-> Hlt] | [[-> ->] | [-> Hgt]]]; simpl.
    + split; [|intuition]. intros [<- | Hz].
      * split; [|auto]. intros ->. exact (str_lt_irrefl _ Hlt).
      * split; [|auto]. intros ->.
        rewrite Forall_forall in Hy.
        exact (str_lt_irrefl _ (str_lt_trans _ _ _ Hlt (Hy _ Hz))).
    + split.
      * intros Hz. split; [|auto]. intros ->.
        exact (set_ok_head_not_in _ _ Hy Hz).
      * intros [Hne [-> | Hz]]; [congruence | exact Hz].
    + rewrite (IH Hr). split.
      * intros [<- | [Hne Hz]]; [|auto].
        split; [|auto]. intros ->. exact (str_lt_irrefl _ Hgt).
      * intros [Hne [-> | Hz]]; auto.
Qed.

Lemma set_erase_ok (x : string) (l : StrSet) :
  set_ok l -> set_ok (set_erase x l).
Proof.
  unfold set_ok. induction l as [|y r IH]; intros H; simpl.
  - constructor.
  - pose proof H as H'. apply set_ok_inv in H as [Hr Hy].
    destruct (String_as_OT.compare x y); auto.
    constructor; [apply IH, Hr|].
    apply Forall_forall. intros z Hz.
    apply (set_erase_In x r z Hr) in Hz as [_ Hz].
    rewrite Forall_forall in Hy. auto.
Qed.

Lemma set_erase_not_in (x : string) (l : StrSet) :
  set_ok l -> ~ In x l -> set_erase x l = l.
Proof.
  unfold set_ok. induction l as [|y r IH]; intros H Hn; simpl; [reflexivity|].
  apply set_ok_inv in H as [Hr Hy].
  destruct (str_compare_cases x y) as [[-> _] | [[-> ->] | [-> _]]].
  - reflexivity.
  - exfalso. apply Hn. now left.
  - f_equal. apply IH; auto. intros Hz. apply Hn. now right.
Qed.

(** Erasing a name right after inserting it is erasing it. *)
Lemma set_erase_insert (x : string) (l : StrSet) :
  set_ok l -> set_erase x (set_insert x l) = set_erase x l.
Proof.
  unfold set_ok. induction l as [|y r IH]; intros H; simpl.
  - destruct (str_compare_cases x x) as [[_ Hlt] | [[-> _] | [_ Hlt]]];
      try reflexivity; exfalso; exact (str_lt_irrefl _ Hlt).
  - apply set_ok_inv in H as [Hr Hy].
    destruct (str_compare_cases x y) as [[E Hlt] | [[E ->] | [E Hgt]]];
      rewrite E; simpl.
    + destruct (str_compare_cases x x) as [[_ Hl] | [[-> _] | [_ Hl]]];
        try reflexivity; exfalso; exact (str_lt_irrefl _ Hl).
    + now rewrite E.
    + rewrite E. f_equal. apply IH, Hr.
Qed.

Lemma set_difference_cons (x : string) (a : list string) (y : string)
    (b : list string) :
  set_difference (x :: a) (y :: b)
  = if str_ltb x y then x :: set_difference a (y :: b)
    else if str_ltb y x then set_difference (x :: a) b
    else set_difference a b.
Proof. reflexivity. Qed.

Lemma set_difference_nil_r (a : list string) : set_difference a [] = a.
Proof. destruct a; reflexivity. Qed.

Lemma str_ltb_cases (x y : string) :
  (str_ltb x y = true /\ str_lt x y) \/
  (str_ltb x y = false /\ str_ltb y x = true /\ str_lt y x) \/
  (str_ltb x y = false /\ str_ltb y x = false /\ x = y).
Proof.
  destruct (str_compare_cases x y) as [[E H] | [[E ->] | [E H]]].
  - left. split; [now apply str_ltb_lt | exact H].
  - right. right.
    assert (str_ltb y y = false).
    { destruct (str_ltb y y) eqn:E'; [|reflexivity].
      apply str_ltb_lt in E'. exfalso. exact (str_lt_irrefl _ E'). }
    auto.
  - right. left. split; [|split; [now apply str_ltb_lt | exact H]].
    unfold str_ltb. now rewrite E.
Qed.

(** [std::set_difference] on two ordered sets: the names of the first that
    are not in the second. *)
Lemma set_difference_In (a b : StrSet) :
  set_ok a -> set_ok b ->
  forall z, In z (set_difference a b) <-> In z a /\ ~ In z b.
Proof.
  unfold set_ok. revert b. induction a as [|x a IHa]; intros b Ha Hb z.
  - simpl. intuition.
  - apply set_ok_inv in Ha as [Ha Hx].
    induction b as [|y b IHb].
    + rewrite set_difference_nil_r. simpl. intuition.
    + pose proof Hb as Hb'. apply set_ok_inv in Hb' as [Hb' Hy].
      rewrite set_difference_cons.
      destruct (str_ltb_cases x y) as [[E Hlt] | [[E [E' Hgt]] | [E [E' ->]]]];
        rewrite E; try rewrite E'.
      * simpl. rewrite (IHa (y :: b) Ha Hb z). simpl. split.
        -- intros [<- | [Hz Hn]]; [|auto]. split; [auto|].
           intros [-> | Hin]; [exact (str_lt_irrefl _ Hlt)|].
           rewrite Forall_forall in Hy.
           exact (str_lt_irrefl _ (str_lt_trans _ _ _ Hlt (Hy _ Hin))).
        -- intros [[<- | Hz] Hn]; auto.
      * rewrite (IHb Hb'). simpl. split.
        -- intros [Hz Hn]. split; [exact Hz|]. intros [<- | Hin]; [|auto].
           destruct Hz as [-> | Hz]; [exact (str_lt_irrefl _ Hgt)|].
           rewrite Forall_forall in Hx.
           exact (str_lt_irrefl _ (str_lt_trans _ _ _ Hgt (Hx _ Hz))).
        -- intros [Hz Hn]. split; [exact Hz|]. intros Hin. apply Hn. now right.
      * rewrite (IHa b Ha Hb' z). simpl. split.
        -- intros [Hz Hn]. split; [now right|]. intros [<- | Hin]; [|auto].
           exact (set_ok_head_not_in _ _ Hx Hz).
        -- intros [[<- | Hz] Hn]; [exfalso; apply Hn; now left|].
           split; [exact Hz|]. intros Hin. apply Hn. now right.
Qed.

(** ** The listen-channel reconciliation *)

Lemma u32_int_of_u32 (x : Z) : 0 <= x < 2 ^ 32 -> u32 (int_of_u32 x) = x.
Proof.
  intros H. unfold u32, int_of_u32. destruct (x <? 2 ^ 31).
  - now apply Z.mod_small.
  - replace (x - 2 ^ 32) with (x + (-1) * 2 ^ 32) by lia.
    rewrite Z.mod_add by lia. now apply Z.mod_small.
Qed.

Lemma findCh_range (st : MumbleClientState) (n : string) :
  store_ok st -> 0 <= findCh st n < 2 ^ 32.
Proof.
  unfold store_ok, findCh, channel_named. intros H.
  destruct (find _ (st_channels st)) as [[cid ch]|] eqn:E.
  - apply find_some in E as [Hin _]. rewrite Forall_forall in H.
    exact (H _ Hin).
  - unfold u32. apply Z.mod_pos_bound. lia.
Qed.

Lemma resolved_ids_cons (st : MumbleClientState) (n : string)
    (r : list string) :
  resolved_ids st (n :: r)
  = if negb (findCh st n =? u32 (-1))
    then int_of_u32 (findCh st n) :: resolved_ids st r
    else resolved_ids st r.
Proof.
  unfold resolved_ids. cbn [filter]. unfold resolves at 1.
  now destruct (negb (findCh st n =? u32 (-1))).
Qed.

Lemma insert_resolved_cons (st : MumbleClientState) (n : string)
    (r : list string) (l : StrSet) :
  insert_resolved st (n :: r) l
  = insert_resolved st r
      (if negb (findCh st n =? u32 (-1)) then set_insert n l else l).
Proof. reflexivity. Qed.

Lemma removeLoop_gen (st : MumbleClientState) (names : list string)
    (ids : list Z) (l : StrSet) :
  fold_left
    (fun (acc : list Z * StrSet) remove =>
       let ch := findCh st remove in
       ((if negb (ch =? u32 (-1)) then fst acc ++ [int_of_u32 ch] else fst acc),
        set_erase remove (snd acc)))
    names (ids, l)
  = (ids ++ resolved_ids st names, erase_all names l).
Proof.
  revert ids l. induction names as [|n r IH]; intros ids l.
  - simpl. now rewrite app_nil_r.
  - cbn [fold_left]. cbv zeta. cbn [fst snd]. rewrite IH.
    rewrite resolved_ids_cons. unfold erase_all. cbn [fold_left].
    destruct (negb (findCh st n =? u32 (-1))).
    + now rewrite <- app_assoc.
    + reflexivity.
Qed.

Lemma addLoop_gen (st : MumbleClientState) (names : list string)
    (ids : list Z) (l : StrSet) :
  fold_left
    (fun (acc : list Z * StrSet) add =>
       let ch := findCh st add in
       if negb (ch =? u32 (-1))
       then (fst acc ++ [int_of_u32 ch], set_insert add (snd acc))
       else acc)
    names (ids, l)
  = (ids ++ resolved_ids st names, insert_resolved st names l).
Proof.
  revert ids l. induction names as [|n r IH]; intros ids l.
  - simpl. now rewrite app_nil_r.
  - cbn [fold_left]. cbv zeta.
    rewrite resolved_ids_cons, insert_resolved_cons.
    destruct (negb (findCh st n =? u32 (-1))).
    + cbn [fst snd]. rewrite IH. now rewrite <- app_assoc.
    + now rewrite IH.
Qed.

Lemma listenDeltas_eq (st : MumbleClientState) (cur last : StrSet) :
  listenDeltas st cur last
  = (resolved_ids st (set_difference cur last),
     resolved_ids st (set_difference last cur),
     insert_resolved st (set_difference cur last)
                     (erase_all (set_difference last cur) last)).
Proof.
  unfold listenDeltas, removeLoop, addLoop. cbv zeta.
  rewrite removeLoop_gen. cbn [fst snd]. rewrite addLoop_gen. reflexivity.
Qed.

Lemma erase_all_spec (names : list string) (l : StrSet) :
  set_ok l ->
  set_ok (erase_all names l) /\
  forall z, In z (erase_all names l) <-> In z l /\ ~ In z names.
Proof.
  revert l. induction names as [|n r IH]; intros l Hl.
  - simpl. split; [exact Hl|]. intuition.
  - unfold erase_all in *. cbn [fold_left].
    destruct (IH (set_erase n l) (set_erase_ok n l Hl)) as [Hok Hin].
    split; [exact Hok|]. intros z. rewrite Hin, (set_erase_In n l z Hl).
    simpl. intuition.
Qed.

Lemma insert_resolved_spec (st : MumbleClientState) (names : list string)
    (l : StrSet) :
  set_ok l ->
  set_ok (insert_resolved st names l) /\
  forall z, In z (insert_resolved st names l)
            <-> In z l \/ (In z names /\ resolves st z = true).
Proof.
  revert l. induction names as [|n r IH]; intros l Hl.
  - simpl. split; [exact Hl|]. intuition.
  - unfold insert_resolved in *. cbn [fold_left].
    destruct (resolves st n) eqn:E.
    + destruct (IH (set_insert n l) (set_insert_ok n l Hl)) as [Hok Hin].
      split; [exact Hok|]. intros z. rewrite Hin, set_insert_In. simpl.
      split.
      * intros [[-> | Hz] | [Hz Hr]]; auto.
      * intros [Hz | [[<- | Hz] Hr]]; auto.
    + destruct (IH l Hl) as [Hok Hin].
      split; [exact Hok|]. intros z. rewrite Hin. simpl. split.
      * intros [Hz | [Hz Hr]]; auto.
      * intros [Hz | [[<- | Hz] Hr]]; auto. congruence.
Qed.

Lemma resolved_ids_u32 (st : MumbleClientState) (names : list string) :
  store_ok st ->
  map u32 (resolved_ids st names) = map (findCh st) (filter (resolves st) names).
Proof.
  intros H. unfold resolved_ids. rewrite map_map. apply map_ext.
  intros n. apply u32_int_of_u32, findCh_range, H.
Qed.

Lemma is_nil_resolved_ids (st : MumbleClientState) (names : list string) :
  is_nil (resolved_ids st names) = is_nil (filter (resolves st) names).
Proof. unfold resolved_ids. now destruct (filter (resolves st) names). Qed.

Lemma resolves_iff (st : MumbleClientState) (x : string) :
  Forall (fun c => fst c <> u32 (-1)) (st_channels st) ->
  (resolves st x = true <->
   exists c, In c (st_channels st) /\ ch_name (snd c) = x).
Proof.
  intros Hids. unfold resolves, findCh. rewrite negb_true_iff, Z.eqb_neq.
  split.
  - intros Hne. unfold channel_named in *.
    destruct (find _ (st_channels st)) as [[cid ch]|] eqn:E; [|congruence].
    apply find_some in E as [Hin He]. apply String.eqb_eq in He.
    now exists (cid, ch).
  - intros Hex. destruct (channel_named_some _ _ Hex) as (cid & ch & -> & Hin & _).
    rewrite Forall_forall in Hids. exact (Hids _ Hin).
Qed.

(** [findCh] gives the id of the first stored channel that bears the
    name, and [uint32_t(-1)] when there is none. *)
Lemma findCh_first (st : MumbleClientState) (x : string) :
  (forall pre cid ch post,
      st_channels st = pre ++ (cid, ch) :: post ->
      ch_name ch = x ->
      Forall (fun c => ch_name (snd c) <> x) pre ->
      findCh st x = cid /\ (resolves st x = true <-> cid <> u32 (-1))) /\
  ((forall c, In c (st_channels st) -> ch_name (snd c) <> x) ->
   findCh st x = u32 (-1) /\ resolves st x = false) /\
  (resolves st x = true ->
   exists pre ch post,
     st_channels st = pre ++ (findCh st x, ch) :: post /\
     ch_name ch = x /\
     Forall (fun c => ch_name (snd c) <> x) pre).
Proof.
  split; [|split].
  - intros pre cid ch post Hs Hn Hpre.
    assert (Hf : findCh st x = cid).
    { unfold findCh, channel_named. rewrite Hs.
      rewrite (find_first _ pre (cid, ch) post); [reflexivity| |].
      - eapply Forall_impl; [|exact Hpre]. cbv beta.
        intros c Hc. now apply String.eqb_neq.
      - cbn [snd]. now apply String.eqb_eq. }
    split; [exact Hf|]. unfold resolves. rewrite Hf.
    now rewrite negb_true_iff, Z.eqb_neq.
  - intros Hno.
    assert (Hf : findCh st x = u32 (-1)).
    { unfold findCh. now rewrite (channel_named_none _ _ Hno). }
    split; [exact Hf|]. unfold resolves. rewrite Hf.
    now rewrite Z.eqb_refl.
  - unfold resolves, findCh, channel_named. intros Hr.
    destruct (find _ (st_channels st)) as [[cid ch]|] eqn:E.
    + destruct (find_split _ _ _ E) as (pre & post & Hs & Hpre & Hu).
      exists pre, ch, post. split; [exact Hs|].
      cbn [snd] in Hu. apply String.eqb_eq in Hu. split; [exact Hu|].
      eapply Forall_impl; [|exact Hpre]. cbv beta.
      intros c Hc. now apply String.eqb_neq.
    + now rewrite Z.eqb_refl in Hr.
Qed.

(** The listen updates among the messages of an active tick. *)
Lemma listenUpdates_of_tick (now : Z) (s s' : MumbleClient) :
  ActiveTick now s s' ->
  filter is_listenUpdate (emitted s s')
  = messages (listenWrites (m_state s) (m_curChannelListens s)
                           (m_lastChannelListens s)).
Proof.
  intros T. rewrite (emitted_app _ _ _ (tick_tls_out _ _ _ T)).
  rewrite !messages_app, !filter_app.
  replace (filter is_listenUpdate (messages (channelWrites s))) with
    (@nil MumbleProto.Message).
  2:{ rewrite messages_channelWrites. destruct (channelDue s); [|reflexivity].
      unfold joinOrCreate.
      destruct (channel_named _ _) as [[cid ch]|]; reflexivity. }
  replace (filter is_listenUpdate (messages (voiceTargetWrites _ _))) with
    (@nil MumbleProto.Message).
  2:{ rewrite messages_voiceTargetWrites.
      induction (m_pendingVoiceTargetUpdates s) as [|e r IH];
        [reflexivity | exact IH]. }
  replace (filter is_listenUpdate (messages (pingWrites now s))) with
    (@nil MumbleProto.Message).
  2:{ rewrite messages_pingWrites.
      now destruct (pingDue now s && negb (pingTimedOut now s)). }
  rewrite app_nil_r. cbn [app].
  rewrite messages_listenWrites. cbv zeta.
  now destruct (negb _ || negb _).
Qed.

Section ListenReconciliation.

Context {crypto_ops : CryptoOps} {pds_ops : PacketDataStreamOps}.

(** C7. On a tick of an active client the names to remove are those of
    [m_lastChannelListens] that are not in [m_curChannelListens], and the
    names to add those of [m_curChannelListens] that are not in
    [m_lastChannelListens]. After the tick [m_lastChannelListens] holds
    the names that were in both sets and the names to add that resolved:
    a name to add that did not resolve is again a name to add at the next
    tick, and no name to remove is left. When no name resolved the tick
    emits no listen update; otherwise it emits exactly one, a [UserState]
    with the ids of the resolved names to add and of the resolved names
    to remove. [AddListenChannel] followed by [RemoveListenChannel] of
    the same name before a tick leaves the client as the removal alone
    would (as it was, when the name was not listened to), and the name
    is not among the names to add.
    A name resolves when [findCh] finds a channel for it: when a stored
    channel bears it, as long as no channel has the id [uint32_t(-1)] that
    [findCh] returns for a name it did not find.
    The id that [findCh] gives for a name, and that goes on the wire, is
    the id of the first stored channel that bears the name: the name
    resolves exactly when that id is not [uint32_t(-1)], a name that no
    stored channel bears gets [uint32_t(-1)] and does not resolve, and
    every name that resolves has such a first channel in the store. *)
Theorem listen_deltas_reconciled (now : Z) (name : string) (s : MumbleClient) :
  lockedIsActive s = true ->
  set_ok (m_curChannelListens s) ->
  set_ok (m_lastChannelListens s) ->
  store_ok (m_state s) ->
  let cur := m_curChannelListens s in
  let last := m_lastChannelListens s in
  let toRemove := set_difference last cur in
  let toAdd := set_difference cur last in
  (forall x, In x toRemove <-> In x last /\ ~ In x cur) /\
  (forall x, In x toAdd <-> In x cur /\ ~ In x last) /\
  (exists s',
      idleTimerEvent now s = Some s' /\
      set_ok (m_lastChannelListens s') /\
      (forall x, In x (m_lastChannelListens s') <->
                 (In x last /\ In x cur) \/
                 (In x toAdd /\ resolves (m_state s) x = true)) /\
      (forall x, In x toAdd -> resolves (m_state s) x = false ->
                 In x (set_difference (m_curChannelListens s')
                                      (m_lastChannelListens s'))) /\
      (forall x, In x toRemove -> ~ In x (m_lastChannelListens s')) /\
      filter is_listenUpdate (emitted s s')
      = if is_nil (filter (resolves (m_state s)) toAdd)
           && is_nil (filter (resolves (m_state s)) toRemove)
        then []
        else [MumbleProto.MUserState
                {| MumbleProto.session := st_session (m_state s);
                   MumbleProto.channel_id := None;
                   MumbleProto.listening_channel_add :=
                     map (findCh (m_state s))
                         (filter (resolves (m_state s)) toAdd);
                   MumbleProto.listening_channel_remove :=
                     map (findCh (m_state s))
                         (filter (resolves (m_state s)) toRemove) |}]) /\
  RemoveListenChannel name (AddListenChannel name s)
  = RemoveListenChannel name s /\
  (~ In name cur -> RemoveListenChannel name (AddListenChannel name s) = s) /\
  ~ In name (set_difference
               (m_curChannelListens
                  (RemoveListenChannel name (AddListenChannel name s)))
               last) /\
  (Forall (fun c => fst c <> u32 (-1)) (st_channels (m_state s)) ->
   forall x, resolves (m_state s) x = true <->
             exists c, In c (st_channels (m_state s)) /\ ch_name (snd c) = x) /\
  (forall x,
      (forall pre cid ch post,
          st_channels (m_state s) = pre ++ (cid, ch) :: post ->
          ch_name ch = x ->
          Forall (fun c => ch_name (snd c) <> x) pre ->
          findCh (m_state s) x = cid /\
          (resolves (m_state s) x = true <-> cid <> u32 (-1))) /\
      ((forall c, In c (st_channels (m_state s)) -> ch_name (snd c) <> x) ->
       findCh (m_state s) x = u32 (-1) /\ resolves (m_state s) x = false) /\
      (resolves (m_state s) x = true ->
       exists pre ch post,
         st_channels (m_state s)
         = pre ++ (findCh (m_state s) x, ch) :: post /\
         ch_name ch = x /\
         Forall (fun c => ch_name (snd c) <> x) pre)).
Proof.
  intros Ha Hcur Hlast Hst cur last toRemove toAdd.
  assert (HR : forall x, In x toRemove <-> In x last /\ ~ In x cur)
    by (apply set_difference_In; assumption).
  assert (HA : forall x, In x toAdd <-> In x cur /\ ~ In x last)
    by (apply set_difference_In; assumption).
  split; [exact HR|]. split; [exact HA|].
  split; [|split; [|split; [|split; [|split]]]].
  - destruct (idleTimerEvent_active now s Ha) as (s' & E & T).
    exists s'. split; [exact E|].
    pose proof (tick_lastChannelListens _ _ _ T) as HL.
    rewrite listenDeltas_eq in HL. cbn [snd] in HL.
    fold cur last toRemove toAdd in HL.
    destruct (erase_all_spec toRemove last Hlast) as [Hok1 Hin1].
    destruct (insert_resolved_spec (m_state s) toAdd _ Hok1) as [Hok2 Hin2].
    assert (HL' : forall x, In x (m_lastChannelListens s') <->
                            (In x last /\ In x cur) \/
                            (In x toAdd /\ resolves (m_state s) x = true)).
    { intros x. rewrite HL, Hin2, Hin1, HR. split.
      - intros [[Hl Hn] | H]; [left | now right].
        split; [exact Hl|].
        destruct (in_dec string_dec x cur) as [Hc|Hc]; [exact Hc|].
        exfalso. apply Hn. now split.
      - intros [[Hl Hc] | H]; [left | now right].
        split; [exact Hl|]. intros [_ Hn]. contradiction. }
    split; [now rewrite HL|]. split; [exact HL'|]. split; [|split].
    + intros x Hx Hr. apply set_difference_In.
      * now rewrite (tick_curChannelListens _ _ _ T).
      * now rewrite HL.
      * rewrite (tick_curChannelListens _ _ _ T). fold cur.
        apply HA in Hx as [Hc Hn]. split; [exact Hc|].
        rewrite HL'. intros [[Hl _] | [_ Hr']]; [contradiction | congruence].
    + intros x Hx. rewrite HL'. apply HR in Hx as [Hl Hn].
      intros [[_ Hc] | [Hx' _]]; [contradiction|].
      apply HA in Hx' as [Hc _]. contradiction.
    + rewrite (listenUpdates_of_tick now s s' T), messages_listenWrites.
      cbv zeta. rewrite listenDeltas_eq. cbn [fst snd].
      fold cur last toRemove toAdd.
      rewrite !is_nil_resolved_ids.
      destruct (is_nil (filter (resolves (m_state s)) toAdd));
        destruct (is_nil (filter (resolves (m_state s)) toRemove));
        cbn [negb orb andb]; try reflexivity;
        unfold listenMessage; now rewrite !resolved_ids_u32.
  - unfold RemoveListenChannel, AddListenChannel. proj.
    now rewrite set_erase_insert.
  - intros Hn. unfold RemoveListenChannel, AddListenChannel. proj.
    rewrite set_erase_insert by exact Hcur.
    rewrite set_erase_not_in by assumption.
    now destruct s.
  - unfold RemoveListenChannel, AddListenChannel. proj.
    rewrite set_erase_insert by exact Hcur.
    intros Hin. apply set_difference_In in Hin as [Hin _].
    + apply (set_erase_In name (m_curChannelListens s) name Hcur) in Hin
        as [Hne _]. now apply Hne.
    + now apply set_erase_ok.
    + exact Hlast.
  - intros Hids x. now apply resolves_iff.
  - intros x. apply findCh_first.
Qed.

End ListenReconciliation.

Lemma listen_deltas_reconciled_witness :
  exists s',
    @idleTimerEvent Sample.crypto Sample.pds 1000 Sample.listening = Some s' /\
    filter is_listenUpdate (emitted Sample.listening s')
    = [MumbleProto.MUserState
         {| MumbleProto.session := 5;
            MumbleProto.channel_id := None;
            MumbleProto.listening_channel_add := [1];
            MumbleProto.listening_channel_remove := [] |}].
Proof.
  destruct (@listen_deltas_reconciled Sample.crypto Sample.pds 1000 "Root"
              Sample.listening)
    as (_ & _ & (s' & E & _ & _ & _ & _ & Hm) & _).
  - reflexivity.
  - repeat constructor.
  - constructor.
  - repeat constructor; simpl; lia.
  - exists s'. split; [exact E|]. rewrite Hm. reflexivity.
Defined.

(** ** The crypt-resync gate *)

Lemma Send_proto_inv (type : MumbleMessageType.t) (m : MumbleProto.Message)
    (s s' : MumbleClient) :
  Send_proto type m s = Some s' ->
  m_crypto s' = m_crypto s /\
  (tls_out s' = tls_out s \/
   tls_out s' = tls_out s ++ frame_of type (Proto m)).
Proof.
  unfold Send_proto, Send_typed, Send.
  destruct (isConnected (m_connectionInfo s)) eqn:Hc; simpl.
  2:{ rewrite Hc. simpl. intros [= <-]. auto. }
  destruct (m_tlsClient s) as [[active]|] eqn:Ht; simpl; [|discriminate].
  destruct active; simpl.
  - rewrite Hc, Ht. simpl. intros [= <-]. split; [reflexivity|]. right.
    simpl. now rewrite <- app_assoc.
  - rewrite Hc, Ht. simpl. intros [= <-]. auto.
Qed.

Lemma spaced_window (w : Z) (times : list Z) :
  StronglySorted (fun a b => b - a > kPingInterval) times ->
  (List.length (inWindow w times) <= 1)%nat.
Proof.
  unfold inWindow. induction times as [|a r IH]; intros H; [simpl; lia|].
  inversion H as [|? ? Hr Ha]; subst. cbn [filter].
  destruct ((w <=? a) && (a <=? w + kPingInterval)) eqn:E; [|auto].
  apply andb_true_iff in E as [E1 E2].
  apply Z.leb_le in E1. apply Z.leb_le in E2.
  replace (filter _ r) with (@nil Z); [simpl; lia|].
  symmetry. clear IH Hr H. induction r as [|b r IH]; [reflexivity|].
  inversion Ha as [|? ? Hb Hr']; subst. cbn [filter].
  replace ((w <=? b) && (b <=? w + kPingInterval)) with false; [auto|].
  symmetry. apply andb_false_iff. right. apply Z.leb_gt. lia.
Qed.

Section CryptResync.

Context {crypto_ops : CryptoOps} {pds_ops : PacketDataStreamOps}.

(** What one failing datagram does. *)
Lemma HandleUDP_failure (t : Z) (buf : list Byte.byte) (s s' : MumbleClient) :
  DecryptFailureKeeps ->
  fst (Decrypt (m_crypto s) t buf) = None ->
  HandleUDP t buf s = Some s' ->
  (m_lastGoodUdp (m_crypto s') = m_lastGoodUdp (m_crypto s) /\
   emitted s s' = []) \/
  (t - m_lastGoodUdp (m_crypto s) > kPingInterval /\
   m_lastGoodUdp (m_crypto s') = t /\
   (emitted s s' = [] \/ emitted s s' = [MumbleProto.MCryptSetup])).
Proof.
  intros Hkeep Hfail. unfold HandleUDP. cbv zeta.
  destruct (negb (IsInitialized (m_crypto s))).
  { intros [= <-]. left. split; [reflexivity | now apply emitted_same]. }
  destruct (size_of buf >? kMaxUdpPacket).
  { intros [= <-]. left. split; [reflexivity | now apply emitted_same]. }
  destruct (Decrypt (m_crypto s) t buf) as [[plain|] crypto'] eqn:E;
    [discriminate|].
  destruct (Hkeep _ _ _ _ E) as [Hg _].
  destruct (t - m_lastGoodUdp crypto' >? kPingInterval) eqn:Eg.
  - intros H. apply Send_proto_inv in H as [Hc Ht]. proj.
    right. rewrite <- Hg. split; [now apply Z.lt_gt, Z.gtb_lt|].
    split; [now rewrite Hc|].
    destruct Ht as [Ht | Ht].
    + left. now apply emitted_same.
    + right. now rewrite (emitted_app _ _ _ Ht).
  - intros [= <-]. left. proj. split; [exact Hg | now apply emitted_same].
Qed.

(** Along a run of failing datagrams, each [CryptSetup] comes more than
    1000 ms after the one before it and after the last good datagram. *)
Lemma cryptSetupTimes_spaced (evs : list (Z * list Byte.byte))
    (s : MumbleClient) :
  DecryptFailureKeeps ->
  allFail evs s ->
  StronglySorted (fun a b => b - a > kPingInterval) (cryptSetupTimes evs s) /\
  Forall (fun e => e - m_lastGoodUdp (m_crypto s) > kPingInterval)
         (cryptSetupTimes evs s).
Proof.
  intros Hkeep. revert s.
  induction evs as [|[t buf] r IH]; intros s Hall.
  - simpl. split; constructor.
  - cbn [cryptSetupTimes]. destruct Hall as [Hfail Hrest].
    destruct (HandleUDP t buf s) as [s'|] eqn:E; [|split; constructor].
    destruct (IH s' Hrest) as [Hs Hf].
    destruct (HandleUDP_failure t buf s s' Hkeep Hfail E)
      as [[Hg He] | (Hgt & Hg & [He | He])]; rewrite He; cbn [filter map app].
    + split; [exact Hs|]. now rewrite <- Hg.
    + split; [exact Hs|]. eapply Forall_impl; [|exact Hf].
      intros e H. cbv beta in H. rewrite Hg in H. unfold kPingInterval in *. lia.
    + rewrite Hg in Hf. split.
      * constructor; [exact Hs | exact Hf].
      * constructor; [exact Hgt|]. eapply Forall_impl; [|exact Hf].
        intros e H. cbv beta in H. unfold kPingInterval in *. lia.
Qed.

(** One failing datagram on an active client with keys. *)
Lemma HandleUDP_failure_active (t : Z) (buf : list Byte.byte)
    (s : MumbleClient) :
  DecryptFailureKeeps ->
  lockedIsActive s = true ->
  IsInitialized (m_crypto s) = true ->
  size_of buf <= kMaxUdpPacket ->
  fst (Decrypt (m_crypto s) t buf) = None ->
  exists s',
    HandleUDP t buf s = Some s' /\
    lockedIsActive s' = true /\
    IsInitialized (m_crypto s') = true /\
    (if t - m_lastGoodUdp (m_crypto s) >? kPingInterval
     then m_lastGoodUdp (m_crypto s') = t /\
          emitted s s' = [MumbleProto.MCryptSetup]
     else m_lastGoodUdp (m_crypto s') = m_lastGoodUdp (m_crypto s) /\
          emitted s s' = []).
Proof.
  intros Hkeep Ha Hi Hsz Hfail. unfold HandleUDP. cbv zeta.
  rewrite Hi. cbn [negb].
  replace (size_of buf >? kMaxUdpPacket) with false
    by (symmetry; rewrite Z.gtb_ltb; apply Z.ltb_ge; exact Hsz).
  destruct (Decrypt (m_crypto s) t buf) as [[plain|] crypto'] eqn:E;
    [discriminate|].
  destruct (Hkeep _ _ _ _ E) as [Hg Hi']. rewrite Hg. rewrite Hi in Hi'.
  destruct (t - m_lastGoodUdp (m_crypto s) >? kPingInterval).
  - rewrite Send_proto_active.
    2:{ rewrite <- Ha. now apply lockedIsActive_same. }
    eexists. split; [reflexivity|]. proj.
    split; [rewrite <- Ha; now apply lockedIsActive_same|].
    split; [exact Hi'|]. split; [reflexivity|].
    apply (emitted_app s _ (frame_of MumbleMessageType.CryptSetup
                                     (Proto MumbleProto.MCryptSetup))).
    reflexivity.
  - eexists. split; [reflexivity|]. proj.
    split; [rewrite <- Ha; now apply lockedIsActive_same|].
    split; [exact Hi'|]. split; [exact Hg | now apply emitted_same].
Qed.

(** C4. Along any run of datagrams that fail to decrypt, at most one
    [CryptSetup] is written in any window of 1000 ms. For three such
    datagrams at [t0], [t0 + 500] and [t0 + 1100], handled by an active
    client with keys whose last good datagram is more than 1000 ms old at
    [t0], a [CryptSetup] is written at [t0], none at [t0 + 500] and
    another at [t0 + 1100]. *)
Theorem cryptsetup_at_most_once_per_interval
    (evs : list (Z * list Byte.byte)) (w t0 : Z)
    (b1 b2 b3 : list Byte.byte) (s : MumbleClient) :
  DecryptFailureKeeps ->
  (allFail evs s ->
   (List.length (inWindow w (cryptSetupTimes evs s)) <= 1)%nat) /\
  (lockedIsActive s = true ->
   IsInitialized (m_crypto s) = true ->
   t0 - m_lastGoodUdp (m_crypto s) > kPingInterval ->
   size_of b1 <= kMaxUdpPacket ->
   size_of b2 <= kMaxUdpPacket ->
   size_of b3 <= kMaxUdpPacket ->
   allFail [(t0, b1); (t0 + 500, b2); (t0 + 1100, b3)] s ->
   cryptSetupTimes [(t0, b1); (t0 + 500, b2); (t0 + 1100, b3)] s
   = [t0; t0 + 1100]).
Proof.
  intros Hkeep. split.
  - intros Hall. apply spaced_window.
    now apply cryptSetupTimes_spaced.
  - intros Ha Hi Hgate H1 H2 H3 Hall.
    cbn [allFail] in Hall. destruct Hall as [F1 Hall].
    destruct (HandleUDP_failure_active t0 b1 s Hkeep Ha Hi H1 F1)
      as (s1 & E1 & Ha1 & Hi1 & R1).
    rewrite E1 in Hall. destruct Hall as [F2 Hall].
    apply Z.gt_lt, Z.gtb_lt in Hgate. rewrite Hgate in R1.
    destruct R1 as [G1 M1].
    destruct (HandleUDP_failure_active (t0 + 500) b2 s1 Hkeep Ha1 Hi1 H2 F2)
      as (s2 & E2 & Ha2 & Hi2 & R2).
    rewrite E2 in Hall. destruct Hall as [F3 _].
    rewrite G1 in R2.
    replace (t0 + 500 - t0 >? kPingInterval) with false in R2
      by (symmetry; rewrite Z.gtb_ltb; apply Z.ltb_ge;
          unfold kPingInterval; lia).
    destruct R2 as [G2 M2].
    destruct (HandleUDP_failure_active (t0 + 1100) b3 s2 Hkeep Ha2 Hi2 H3 F3)
      as (s3 & E3 & _ & _ & R3).
    rewrite G2 in R3.
    replace (t0 + 1100 - t0 >? kPingInterval) with true in R3
      by (symmetry; apply Z.gtb_lt; unfold kPingInterval; lia).
    destruct R3 as [_ M3].
    cbn [cryptSetupTimes]. rewrite E1, E2, E3, M1, M2, M3. reflexivity.
Qed.

End CryptResync.

Lemma sample_decrypt_failure_keeps : @DecryptFailureKeeps Sample.crypto.
Proof.
  intros c now b c'. simpl. destruct (Sample.tagged b); [discriminate|].
  intros [= <-]. split; reflexivity.
Qed.

Lemma cryptsetup_at_most_once_per_interval_witness :
  (List.length
     (inWindow 0 (@cryptSetupTimes Sample.crypto Sample.pds Sample.garbage
                    Sample.client)) <= 1)%nat /\
  @cryptSetupTimes Sample.crypto Sample.pds Sample.garbage Sample.client
  = [0; 1100].
Proof.
  destruct (@cryptsetup_at_most_once_per_interval Sample.crypto Sample.pds
              Sample.garbage 0 0 [Byte.x01] [Byte.x02] [Byte.x03]
              Sample.client sample_decrypt_failure_keeps) as [Hw Hs].
  split.
  - apply Hw. vm_compute. repeat split.
  - apply Hs.
    + reflexivity.
    + reflexivity.
    + reflexivity.
    + discriminate.
    + discriminate.
    + discriminate.
    + vm_compute. repeat split.
Defined.

(** * More properties *)

(** ** Queries on the state store *)

Lemma existsb_find_some {A} (f : A -> bool) (l : list A) :
  existsb f l = match find f l with Some _ => true | None => false end.
Proof.
  induction l as [|x l IH]; [reflexivity|]. simpl. now destruct (f x).
Qed.

(** X1. [DoesChannelExist] answers true exactly when a stored channel bears
    the name, and exactly then the channel reconciliation asks to join
    (a [UserState]) rather than to create (a [ChannelState]). *)
Theorem DoesChannelExist_iff (name : string) (s : MumbleClient) :
  (DoesChannelExist name s = true <->
   exists c, In c (st_channels (m_state s)) /\ ch_name (snd c) = name) /\
  (DoesChannelExist name s = true <->
   fst (joinOrCreate (m_state s) name) = MumbleMessageType.UserState) /\
  (DoesChannelExist name s = false <->
   fst (joinOrCreate (m_state s) name) = MumbleMessageType.ChannelState).
Proof.
  unfold DoesChannelExist. split; [|split].
  - rewrite existsb_exists. split.
    + intros (c & Hin & He). apply String.eqb_eq in He. now exists c.
    + intros (c & Hin & He). exists c. split; [exact Hin|].
      now apply String.eqb_eq.
  - rewrite existsb_find_some. unfold joinOrCreate, channel_named.
    destruct (find _ (st_channels (m_state s))) as [[cid ch]|]; simpl;
      split; congruence.
  - rewrite existsb_find_some. unfold joinOrCreate, channel_named.
    destruct (find _ (st_channels (m_state s))) as [[cid ch]|]; simpl;
      split; congruence.
Qed.

Lemma fold_left_same {A B} (f g : A -> B -> A) (l : list B) (a : A) :
  (forall x y, f x y = g x y) -> fold_left f l a = fold_left g l a.
Proof.
  intros H. revert a. induction l as [|y l IH]; intros a; [reflexivity|].
  simpl. now rewrite H, IH.
Qed.

Lemma first_named_fold (g : MumbleUser -> string) (us : list MumbleUser)
    (acc : string) :
  fold_left
    (fun ret u => if negb (String.eqb ret EmptyString) then ret else g u)
    us acc
  = if negb (String.eqb acc EmptyString) then acc
    else match find (fun u => negb (String.eqb (g u) EmptyString)) us with
         | Some u => g u
         | None => EmptyString
         end.
Proof.
  revert acc. induction us as [|u us IH]; intros acc.
  - simpl. destruct (String.eqb_spec acc EmptyString); simpl; congruence.
  - cbn [fold_left find]. rewrite IH.
    destruct (String.eqb_spec acc EmptyString) as [->|Hn]; simpl.
    + destruct (String.eqb_spec (g u) EmptyString) as [->|Hg]; simpl;
        reflexivity.
    + destruct (String.eqb_spec acc EmptyString); simpl; congruence.
Qed.

Lemma GetPlayerNameFromServerId_first (serverId : Z) (s : MumbleClient) :
  GetPlayerNameFromServerId serverId s
  = match find (fun u => negb (String.eqb
                                 (if user_serverId u =? serverId
                                  then user_name u else EmptyString)
                                 EmptyString))
               (st_users (m_state s)) with
    | Some u => user_name u
    | None => EmptyString
    end.
Proof.
  unfold GetPlayerNameFromServerId.
  rewrite (fold_left_same _
             (fun ret u =>
                if negb (String.eqb ret EmptyString) then ret
                else if user_serverId u =? serverId then user_name u
                     else EmptyString)).
  2:{ intros ret u.
      destruct (String.eqb_spec ret EmptyString) as [->|]; simpl;
        [|reflexivity]. now destruct (user_serverId u =? serverId). }
  rewrite (first_named_fold
             (fun u => if user_serverId u =? serverId then user_name u
                       else EmptyString)).
  simpl. destruct (find _ (st_users (m_state s))) as [u|] eqn:E; [|reflexivity].
  apply find_some in E as [_ E].
  destruct (user_serverId u =? serverId); [reflexivity | discriminate].
Qed.

(** X2. [GetPlayerNameFromServerId] returns the name of the first stored
    user with that server id and a name that is not empty: the empty
    string when there is none, never the name of a user with another
    server id. First means first in the order of [ForAllUsers]: every
    user before that one has another server id or an empty name. *)
Theorem GetPlayerNameFromServerId_spec (serverId : Z) (s : MumbleClient) :
  ((forall u, In u (st_users (m_state s)) ->
              user_serverId u = serverId -> user_name u = EmptyString) ->
   GetPlayerNameFromServerId serverId s = EmptyString) /\
  (GetPlayerNameFromServerId serverId s <> EmptyString ->
   exists u, In u (st_users (m_state s)) /\ user_serverId u = serverId /\
             user_name u = GetPlayerNameFromServerId serverId s) /\
  ((exists u, In u (st_users (m_state s)) /\ user_serverId u = serverId /\
              user_name u <> EmptyString) ->
   GetPlayerNameFromServerId serverId s <> EmptyString) /\
  (forall pre u post,
      st_users (m_state s) = pre ++ u :: post ->
      user_serverId u = serverId -> user_name u <> EmptyString ->
      Forall (fun v => user_serverId v <> serverId \/
                       user_name v = EmptyString) pre ->
      GetPlayerNameFromServerId serverId s = user_name u) /\
  (GetPlayerNameFromServerId serverId s <> EmptyString ->
   exists pre u post,
     st_users (m_state s) = pre ++ u :: post /\
     user_serverId u = serverId /\
     user_name u = GetPlayerNameFromServerId serverId s /\
     Forall (fun v => user_serverId v <> serverId \/
                      user_name v = EmptyString) pre).
Proof.
  assert (Hskip : forall v,
             negb (String.eqb (if user_serverId v =? serverId
                               then user_name v else EmptyString)
                              EmptyString) = false <->
             user_serverId v <> serverId \/ user_name v = EmptyString).
  { intros v. rewrite negb_false_iff, String.eqb_eq.
    destruct (Z.eqb_spec (user_serverId v) serverId) as [Hi|Hi].
    - split; [now right | now intros [Hn|Hn]].
    - split; [now left | reflexivity]. }
  rewrite GetPlayerNameFromServerId_first.
  destruct (find _ (st_users (m_state s))) as [u|] eqn:E.
  - destruct (find_split _ _ _ E) as (pre & post & Hs & Hpre & _).
    apply find_some in E as [Hin E].
    destruct (user_serverId u =? serverId) eqn:Ei; [|discriminate].
    apply Z.eqb_eq in Ei. apply negb_true_iff, String.eqb_neq in E.
    split; [|split; [|split; [|split]]].
    + intros H. exfalso. apply E. now apply H.
    + intros _. now exists u.
    + intros _. exact E.
    + intros pre' u' post' Hs' Hi' Hn' Hpre'.
      assert (Hf : find (fun v =>
                           negb (String.eqb
                                   (if user_serverId v =? serverId
                                    then user_name v else EmptyString)
                                   EmptyString))
                        (st_users (m_state s)) = Some u').
      { rewrite Hs'. apply find_first.
        - eapply Forall_impl; [|exact Hpre']. cbv beta.
          intros v Hv. now apply Hskip.
        - apply Z.eqb_eq in Hi'. rewrite Hi'.
          now apply negb_true_iff, String.eqb_neq. }
      rewrite Hs in Hf. rewrite (find_first _ pre u post) in Hf.
      * now injection Hf as ->.
      * exact Hpre.
      * apply Z.eqb_eq in Ei. rewrite Ei.
        now apply negb_true_iff, String.eqb_neq.
    + intros _. exists pre, u, post. repeat split; auto.
      eapply Forall_impl; [|exact Hpre]. cbv beta.
      intros v Hv. now apply Hskip.
  - split; [|split; [|split; [|split]]].
    + reflexivity.
    + congruence.
    + intros (u & Hin & Hi & Hn). exfalso.
      apply (find_none _ _ E) in Hin. simpl in Hin.
      apply Z.eqb_eq in Hi. rewrite Hi in Hin.
      apply negb_false_iff, String.eqb_eq in Hin. contradiction.
    + intros pre u post Hs Hi Hn Hpre. exfalso.
      assert (Hin : In u (st_users (m_state s)))
        by (rewrite Hs; apply in_elt).
      apply (find_none _ _ E) in Hin. cbv beta in Hin.
      apply Hskip in Hin as [Hin|Hin]; contradiction.
    + congruence.
Qed.

Lemma GetVoiceChannelFromServerId_first (serverId : Z) (s : MumbleClient) :
  let g := fun u =>
             if user_serverId u =? serverId then
               match channel_by_id (user_channelId u)
                                   (st_channels (m_state s)) with
               | Some (_, ch) => ch_name ch
               | None => EmptyString
               end
             else EmptyString in
  GetVoiceChannelFromServerId serverId s
  = match find (fun u => negb (String.eqb (g u) EmptyString))
               (st_users (m_state s)) with
    | Some u => g u
    | None => EmptyString
    end.
Proof.
  intros g. unfold GetVoiceChannelFromServerId.
  rewrite (fold_left_same _
             (fun ret u =>
                if negb (String.eqb ret EmptyString) then ret else g u)).
  2:{ intros ret u. subst g. cbv beta.
      destruct (String.eqb_spec ret EmptyString) as [->|]; simpl;
        [|reflexivity].
      destruct (user_serverId u =? serverId); [|reflexivity].
      now destruct (channel_by_id _ _) as [[cid ch]|]. }
  now rewrite (first_named_fold g).
Qed.

(** X3. [GetVoiceChannelFromServerId] returns a name that is not empty only
    when a stored user has that server id and sits in a stored channel of
    that name; it returns the empty string when no user has the id or when
    the channels of the users who have it are not in the store. *)
Theorem GetVoiceChannelFromServerId_spec (serverId : Z) (s : MumbleClient) :
  (GetVoiceChannelFromServerId serverId s <> EmptyString ->
   exists u cid ch,
     In u (st_users (m_state s)) /\ user_serverId u = serverId /\
     channel_by_id (user_channelId u) (st_channels (m_state s))
     = Some (cid, ch) /\
     cid = user_channelId u /\
     ch_name ch = GetVoiceChannelFromServerId serverId s) /\
  ((forall u, In u (st_users (m_state s)) -> user_serverId u = serverId ->
              channel_by_id (user_channelId u) (st_channels (m_state s))
              = None) ->
   GetVoiceChannelFromServerId serverId s = EmptyString).
Proof.
  rewrite GetVoiceChannelFromServerId_first. cbv zeta.
  destruct (find _ (st_users (m_state s))) as [u|] eqn:E.
  - apply find_some in E as [Hin E].
    destruct (user_serverId u =? serverId) eqn:Ei; [|discriminate].
    apply Z.eqb_eq in Ei.
    destruct (channel_by_id (user_channelId u) (st_channels (m_state s)))
      as [[cid ch]|] eqn:Ec; [|discriminate].
    split.
    + intros _. exists u, cid, ch. repeat split; auto.
      unfold channel_by_id in Ec. apply find_some in Ec as [_ Ec].
      simpl in Ec. now apply Z.eqb_eq in Ec.
    + intros H. rewrite (H u Hin Ei) in Ec. discriminate.
  - split; [congruence | reflexivity].
Qed.

(** X4. [GetTalkers] lists, in the order of the sessions reported, the
    names of those that are in the store, then our own user name when the
    local user talks: a session that is not in the store is skipped, and
    no other name is listed. The list is the names of the users of the
    sessions that are in the store, one for one and in that order, with
    our own user name appended at the end when the local user talks. *)
Theorem GetTalkers_spec (sessions : list Z) (isTalking : bool) (n : string)
    (s : MumbleClient) :
  (In n (GetTalkers sessions isTalking s) <->
   (exists session u, In session sessions /\
                      GetUser session (m_state s) = Some u /\
                      user_name u = n) \/
   (isTalking = true /\ n = st_username (m_state s))) /\
  (List.length (GetTalkers sessions isTalking s)
   <= List.length sessions + if isTalking then 1 else 0)%nat /\
  ((forall session, In session sessions ->
                    GetUser session (m_state s) = None) ->
   GetTalkers sessions isTalking s
   = if isTalking then [st_username (m_state s)] else []) /\
  (exists talkers,
      Forall2 (fun session u => GetUser session (m_state s) = Some u)
              (filter (fun session =>
                         match GetUser session (m_state s) with
                         | Some _ => true
                         | None => false
                         end) sessions)
              talkers /\
      GetTalkers sessions isTalking s
      = map user_name talkers
        ++ if isTalking then [st_username (m_state s)] else []).
Proof.
  unfold GetTalkers. split; [|split; [|split]].
  - rewrite in_app_iff, in_flat_map. split.
    + intros [(session & Hin & Hn) | Hn].
      * left. destruct (GetUser session (m_state s)) as [u|] eqn:E;
          [|contradiction].
        destruct Hn as [<- | []]. now exists session, u.
      * right. destruct isTalking; [|contradiction].
        destruct Hn as [<- | []]. auto.
    + intros [(session & u & Hin & E & <-) | [-> ->]].
      * left. exists session. split; [exact Hin|]. rewrite E. now left.
      * right. now left.
  - rewrite length_app.
    assert (H : (List.length
                   (flat_map (fun session =>
                                match GetUser session (m_state s) with
                                | Some user => [user_name user]
                                | None => []
                                end) sessions)
                 <= List.length sessions)%nat).
    { induction sessions as [|x r IH]; [simpl; lia|].
      cbn [flat_map]. rewrite length_app.
      destruct (GetUser x (m_state s)); simpl in *; lia. }
    destruct isTalking; simpl; lia.
  - intros H.
    replace (flat_map _ sessions) with (@nil string); [reflexivity|].
    symmetry. induction sessions as [|x r IH]; [reflexivity|].
    cbn [flat_map]. rewrite (H x (or_introl eq_refl)). simpl.
    apply IH. intros y Hy. apply H. now right.
  - assert (H : exists talkers,
               Forall2 (fun session u => GetUser session (m_state s) = Some u)
                       (filter (fun session =>
                                  match GetUser session (m_state s) with
                                  | Some _ => true
                                  | None => false
                                  end) sessions)
                       talkers /\
               flat_map (fun session =>
                           match GetUser session (m_state s) with
                           | Some user => [user_name user]
                           | None => []
                           end) sessions
               = map user_name talkers).
    { induction sessions as [|x r IH].
      - exists []. split; [constructor | reflexivity].
      - destruct IH as (talkers & Hall & Heq). cbn [flat_map filter].
        destruct (GetUser x (m_state s)) as [u|] eqn:E.
        + exists (u :: talkers). split; [now constructor|].
          cbn [map app]. now rewrite Heq.
        + exists talkers. split; [exact Hall | exact Heq]. }
    destruct H as (talkers & Hall & Heq).
    exists talkers. split; [exact Hall|]. now rewrite Heq.
Qed.

(** ** Incoming voice and the position queue *)

(** Case analysis on a scrutinee that holds no other case analysis. *)
Ltac split_innermost :=
  match goal with
  | |- context [match ?x with _ => _ end] =>
      lazymatch x with
      | context [match _ with _ => _ end] => fail
      | _ => destruct x; cbv iota beta
      end
  end.

Section Voice.

Context {crypto_ops : CryptoOps} {pds_ops : PacketDataStreamOps}.

Lemma HandleVoice_frame (now : Z) (data : list Byte.byte) (s : MumbleClient) :
  let s' := HandleVoice now data s in
  tls_out s' = tls_out s /\
  udp_out s' = udp_out s /\
  m_connectionInfo s' = m_connectionInfo s /\
  m_tlsClient s' = m_tlsClient s /\
  m_crypto s' = m_crypto s /\
  m_state s' = m_state s /\
  m_curManualChannel s' = m_curManualChannel s /\
  m_curChannelListens s' = m_curChannelListens s /\
  m_pendingVoiceTargetUpdates s' = m_pendingVoiceTargetUpdates s.
Proof.
  unfold HandleVoice, HandleVoice_opus. cbv zeta.
  repeat split_innermost; repeat split; reflexivity.
Qed.

Lemma HandleVoice_growth (now : Z) (data : list Byte.byte) (s : MumbleClient) :
  let s' := HandleVoice now data s in
  (exists calls, audio_out s' = audio_out s ++ calls /\
                 (List.length calls <= 2)%nat /\
                 (List.length
                    (filter (fun c => match c with
                                      | HandleClientVoiceData _ _ _ _ => true
                                      | _ => false
                                      end) calls) <= 1)%nat) /\
  (exists updates, m_positionUpdates s' = m_positionUpdates s ++ updates /\
                   (List.length updates <= 1)%nat).
Proof.
  unfold HandleVoice, HandleVoice_opus. cbv zeta.
  repeat split_innermost; proj;
    (split;
     [ first [ exists []; rewrite app_nil_r; split; [reflexivity|];
               simpl; split; lia
             | eexists [_]; split; [reflexivity|]; simpl; split; lia
             | eexists [_; _]; rewrite <- app_assoc; split; [reflexivity|];
               simpl; split; lia ]
     | first [ exists []; rewrite app_nil_r; split; [reflexivity|]; simpl; lia
             | eexists [_]; split; [reflexivity|]; simpl; lia ] ]).
Qed.

(** X5. Whatever the payload, [HandleVoice] writes nothing to the TLS
    session or to the UDP socket and leaves the connection, the crypto
    state, the store and the desired state as they were; it makes at most
    two calls into the audio output, at most one of them
    [HandleClientVoiceData], and queues at most one position update. A payload whose kind is neither 1 nor 4, an empty payload
    included, and a voice packet from a session that is not in the store
    leave the client unchanged. *)
Theorem HandleVoice_effects (now : Z) (data : list Byte.byte) (s : MumbleClient) :
  let s' := HandleVoice now data s in
  let kind := Z.shiftr (fst (pds_next8 data)) 5 in
  let sessionId := fst (pds_get_u64 (snd (pds_next8 data))) in
  (tls_out s' = tls_out s /\ udp_out s' = udp_out s /\
   m_connectionInfo s' = m_connectionInfo s /\ m_crypto s' = m_crypto s /\
   m_state s' = m_state s /\
   m_curManualChannel s' = m_curManualChannel s /\
   m_curChannelListens s' = m_curChannelListens s /\
   m_pendingVoiceTargetUpdates s' = m_pendingVoiceTargetUpdates s) /\
  (exists calls, audio_out s' = audio_out s ++ calls /\
                 (List.length calls <= 2)%nat /\
                 (List.length
                    (filter (fun c => match c with
                                      | HandleClientVoiceData _ _ _ _ => true
                                      | _ => false
                                      end) calls) <= 1)%nat) /\
  (exists updates, m_positionUpdates s' = m_positionUpdates s ++ updates /\
                   (List.length updates <= 1)%nat) /\
  (kind <> 1 -> kind <> 4 -> s' = s) /\
  (kind = 4 -> GetUser (u32 sessionId) (m_state s) = None -> s' = s) /\
  HandleVoice now [] s = s.
Proof.
  cbv zeta.
  destruct (HandleVoice_frame now data s)
    as (F1 & F2 & F3 & _ & F5 & F6 & F7 & F8 & F9).
  destruct (HandleVoice_growth now data s) as (G1 & G2).
  split; [repeat split; assumption|]. split; [exact G1|]. split; [exact G2|].
  split; [|split].
  - intros H1 H4. unfold HandleVoice.
    destruct (pds_next8 data) as [header p0]. cbn [fst snd] in *.
    apply Z.eqb_neq in H1. apply Z.eqb_neq in H4. rewrite H1.
    destruct (pds_get_u64 p0) as [sid p1].
    destruct (pds_get_u64 p1) as [seq p2]. now rewrite H4.
  - intros H4 Hu. unfold HandleVoice.
    destruct (pds_next8 data) as [header p0]. cbn [fst snd] in *.
    rewrite H4. cbn [Z.eqb Pos.eqb negb].
    destruct (pds_get_u64 p0) as [sid p1]. cbn [fst] in Hu.
    destruct (pds_get_u64 p1) as [seq p2].
    unfold HandleVoice_opus. now rewrite Hu.
  - unfold HandleVoice. cbn [pds_next8].
    change (Z.shiftr 0 5 =? 1) with false. cbv iota.
    destruct (pds_get_u64 []) as [sid p1].
    destruct (pds_get_u64 p1) as [seq p2]. reflexivity.
Qed.

End Voice.

Lemma RunFrame_calls_bound (hook : option (string -> option (Z * Z * Z)))
    (st : MumbleClientState) (queue : list (Z * (Z * Z * Z))) :
  (List.length
     (flat_map
        (fun update =>
           match GetUser (u32 (fst update)) st with
           | Some user =>
               [(user,
                 match hook with
                 | Some h => match h (user_name user) with
                             | Some newPos => newPos
                             | None => snd update
                             end
                 | None => snd update
                 end)]
           | None => []
           end) queue) <= List.length queue)%nat.
Proof.
  induction queue as [|u r IH]; [simpl; lia|].
  cbn [flat_map]. rewrite length_app.
  destruct (GetUser (u32 (fst u)) st); simpl in *; lia.
Qed.

(** X6. [RunFrame] empties the position queue: a second [RunFrame] makes no
    call. It makes at most one [HandleClientPosition] call per queued
    update, each for a stored user whose session is that of an update, with
    the position of the update or, when the hook gives one for that user's
    name, the hook's; updates of sessions that are not in the store are
    dropped. *)
Theorem RunFrame_drains (hook : option (string -> option (Z * Z * Z)))
    (s : MumbleClient) :
  m_positionUpdates (snd (RunFrame hook s)) = [] /\
  fst (RunFrame hook (snd (RunFrame hook s))) = [] /\
  m_state (snd (RunFrame hook s)) = m_state s /\
  (List.length (fst (RunFrame hook s))
   <= List.length (m_positionUpdates s))%nat /\
  (forall user pos,
      In (user, pos) (fst (RunFrame hook s)) ->
      exists update,
        In update (m_positionUpdates s) /\
        GetUser (u32 (fst update)) (m_state s) = Some user /\
        (pos = snd update \/
         exists h, hook = Some h /\ h (user_name user) = Some pos)) /\
  ((forall update, In update (m_positionUpdates s) ->
                   GetUser (u32 (fst update)) (m_state s) = None) ->
   fst (RunFrame hook s) = []).
Proof.
  unfold RunFrame. cbn [fst snd]. proj.
  split; [reflexivity|]. split; [reflexivity|]. split; [reflexivity|].
  split; [apply RunFrame_calls_bound|]. split.
  - intros user pos Hin. apply in_flat_map in Hin as (update & Hu & Hin).
    exists update. split; [exact Hu|].
    destruct (GetUser (u32 (fst update)) (m_state s)) as [u|]; [|contradiction].
    destruct Hin as [Hin | []]. injection Hin as -> <-.
    split; [reflexivity|].
    destruct hook as [h|]; [|now left].
    destruct (h (user_name user)) as [p|] eqn:E; [|now left].
    right. now exists h.
  - intros H. induction (m_positionUpdates s) as [|u r IH]; [reflexivity|].
    cbn [flat_map]. rewrite (H u (or_introl eq_refl)). simpl.
    apply IH. intros y Hy. apply H. now right.
Qed.

(** ** The ping history *)

Lemma array_get_cons (x : Z) (r : list Z) (j : Z) :
  array_get (x :: r) j
  = if j =? 0 then x else if j <? 0 then 0 else array_get r (j - 1).
Proof.
  unfold array_get. destruct (Z.eqb_spec j 0) as [->|Hn]; [reflexivity|].
  destruct (Z.ltb_spec j 0) as [Hl|Hl]; [reflexivity|].
  destruct (Z.ltb_spec (j - 1) 0) as [Hl'|Hl']; [lia|].
  replace (Z.to_nat j) with (S (Z.to_nat (j - 1))) by lia. reflexivity.
Qed.

Lemma array_set_length (a : list Z) (i v : Z) :
  List.length (array_set a i v) = List.length a.
Proof.
  revert i. induction a as [|x r IH]; intros i; [reflexivity|].
  simpl. destruct (i =? 0); simpl; [reflexivity | now rewrite IH].
Qed.

Lemma array_get_set_eq (a : list Z) (i v : Z) :
  0 <= i < size_of a -> array_get (array_set a i v) i = v.
Proof.
  unfold size_of. revert i. induction a as [|x r IH]; intros i Hi.
  - simpl in Hi. lia.
  - cbn [array_set]. destruct (Z.eqb_spec i 0) as [->|Hn]; [reflexivity|].
    rewrite array_get_cons.
    destruct (Z.eqb_spec i 0); [contradiction|].
    destruct (Z.ltb_spec i 0); [lia|].
    apply IH. cbn [List.length] in Hi. lia.
Qed.

Lemma array_get_set_ne (a : list Z) (i j v : Z) :
  i <> j -> array_get (array_set a i v) j = array_get a j.
Proof.
  revert i j. induction a as [|x r IH]; intros i j Hne; [reflexivity|].
  cbn [array_set]. destruct (Z.eqb_spec i 0) as [->|Hn].
  - rewrite !array_get_cons. destruct (Z.eqb_spec j 0); [congruence|].
    reflexivity.
  - rewrite !array_get_cons. destruct (j =? 0); [reflexivity|].
    destruct (j <? 0); [reflexivity|]. apply IH. lia.
Qed.

Lemma indices_snoc (lo : Z) (k : nat) :
  indices lo (S k) = indices lo k ++ [lo + Z.of_nat k].
Proof.
  revert lo. induction k as [|k IH]; intros lo.
  - simpl. now rewrite Z.add_0_r.
  - change (indices lo (S (S k))) with (lo :: indices (lo + 1) (S k)).
    rewrite IH. cbn [indices app]. f_equal. f_equal. f_equal. lia.
Qed.

(** The loop "move pings down", after its first [k] rounds. *)
Lemma move_down_rounds (a : list Z) (k : nat) :
  (S k <= List.length a)%nat ->
  let a' := fold_left (fun a i => array_set a (i - 1) (array_get a i))
                      (indices 1 k) a in
  List.length a' = List.length a /\
  forall j, (0 <= j < Z.of_nat k -> array_get a' j = array_get a (j + 1)) /\
            (~ 0 <= j < Z.of_nat k -> array_get a' j = array_get a j).
Proof.
  induction k as [|k IH]; intros Hk; cbv zeta.
  - simpl. split; [reflexivity|]. intros j. split; [lia | reflexivity].
  - rewrite indices_snoc, fold_left_app. cbn [fold_left].
    destruct IH as [Hlen Hget]; [lia|].
    set (a' := fold_left _ (indices 1 k) a) in *.
    replace (1 + Z.of_nat k - 1) with (Z.of_nat k) by lia.
    split; [now rewrite array_set_length|].
    assert (Hnew : array_get a' (1 + Z.of_nat k) = array_get a (1 + Z.of_nat k)).
    { apply Hget. lia. }
    intros j. destruct (Z.eq_dec j (Z.of_nat k)) as [->|Hne].
    + split; [|lia]. intros _.
      rewrite array_get_set_eq, Hnew; [f_equal; lia|].
      unfold size_of. rewrite Hlen. lia.
    + rewrite array_get_set_ne by congruence. split.
      * intros Hj. apply Hget. lia.
      * intros Hj. apply Hget. lia.
Qed.

(** X7. [store_ping], the code that [HandleVoice] and [HandlePing] share,
    keeps the length of the history. While the history has room, the
    sample goes to the slot of its rank and the other slots stay; once it
    is full, every sample moves down one slot, the oldest is dropped and
    the new sample takes the last slot: no slot outside the array is
    written. *)
Theorem store_ping_history (timeDelta : Z) (st : PingStats) :
  pings st <> [] ->
  1 <= pingCount st < 2 ^ 32 ->
  size_of (pings st) < 2 ^ 32 ->
  let n := size_of (pings st) in
  let st' := store_ping timeDelta st in
  List.length (pings st') = List.length (pings st) /\
  pingCount st' = pingCount st /\
  (pingCount st <= n ->
   array_get (pings st') (pingCount st - 1) = u32 timeDelta /\
   forall j, j <> pingCount st - 1 ->
             array_get (pings st') j = array_get (pings st) j) /\
  (pingCount st > n ->
   array_get (pings st') (n - 1) = u32 timeDelta /\
   forall j, 0 <= j < n - 1 ->
             array_get (pings st') j = array_get (pings st) (j + 1)).
Proof.
  intros Hne Hc Hn n st'.
  assert (Hpos : 0 < n).
  { subst n. unfold size_of. destruct (pings st); [congruence|].
    cbn [List.length]. lia. }
  assert (Hu : u32 (pingCount st - 1) = pingCount st - 1).
  { unfold u32. apply Z.mod_small. lia. }
  assert (Hu64 : u64 (n - 1) = n - 1).
  { unfold u64. apply Z.mod_small. lia. }
  subst st'. unfold store_ping. cbv zeta. fold n. rewrite Hu, Hu64.
  cbn [pings pingCount].
  destruct (Z.geb_spec (pingCount st - 1) n) as [Hfull|Hroom].
  - destruct (move_down_rounds (pings st) (Z.to_nat (n - 1))) as [Hlen Hget].
    { subst n. unfold size_of in *. lia. }
    split; [now rewrite array_set_length|]. split; [reflexivity|].
    split; [lia|]. intros _. split.
    + apply array_get_set_eq. unfold size_of. rewrite Hlen. fold (size_of (pings st)).
      fold n. lia.
    + intros j Hj. rewrite array_get_set_ne by lia. apply Hget. lia.
  - split; [now rewrite array_set_length|]. split; [reflexivity|].
    split; [|lia]. intros _. split.
    + apply array_get_set_eq. fold n. lia.
    + intros j Hj. apply array_get_set_ne. congruence.
Qed.

(** ** More on the reconciler tick *)

Lemma pings_in_channelWrites (s : MumbleClient) :
  filter is_ping (messages (channelWrites s)) = [].
Proof.
  rewrite messages_channelWrites. destruct (channelDue s); [|reflexivity].
  unfold joinOrCreate. destruct (channel_named _ _) as [[cid ch]|]; reflexivity.
Qed.

Lemma pings_in_listenWrites (st : MumbleClientState) (cur last : StrSet) :
  filter is_ping (messages (listenWrites st cur last)) = [].
Proof.
  rewrite messages_listenWrites. cbv zeta. now destruct (negb _ || negb _).
Qed.

Lemma pings_in_voiceTargetWrites (st : MumbleClientState)
    (pending : list (Z * VoiceTargetConfig)) :
  filter is_ping (messages (voiceTargetWrites st pending)) = [].
Proof.
  rewrite messages_voiceTargetWrites.
  induction pending as [|e r IH]; [reflexivity | exact IH].
Qed.

(** The pings among the messages of an active tick. *)
Lemma pings_of_tick (now : Z) (s s' : MumbleClient) :
  ActiveTick now s s' ->
  filter is_ping (emitted s s')
  = if pingDue now s && negb (pingTimedOut now s)
    then [MumbleProto.MPing (pingMessage now s)]
    else [].
Proof.
  intros T. rewrite (emitted_app _ _ _ (tick_tls_out _ _ _ T)).
  rewrite !messages_app, !filter_app.
  rewrite pings_in_channelWrites, pings_in_listenWrites,
    pings_in_voiceTargetWrites. cbn [app].
  rewrite messages_pingWrites.
  now destruct (pingDue now s && negb (pingTimedOut now s)).
Qed.

Lemma set_tls_out_same (x : MumbleClient) : set_tls_out (tls_out x) x = x.
Proof. now destruct x. Qed.

Section MoreTick.

Context {crypto_ops : CryptoOps} {pds_ops : PacketDataStreamOps}.

(** A tick of a client that is not active, in full. *)
Lemma idleTimerEvent_inactive_eq (now : Z) (s : MumbleClient) :
  lockedIsActive s = false ->
  idleTimerEvent now s
  = Some (if negb (addressFamily (m_connectionInfo s) =? 0)
          then set_m_idleTimer false (set_m_connectTimer (Some 2500) s)
          else s).
Proof.
  intros H. unfold idleTimerEvent. rewrite H.
  now destruct (negb (addressFamily (m_connectionInfo s) =? 0)).
Qed.

(** The blocks of an active tick before the ping block touch only
    [m_lastManualChannel], [m_lastChannelListens],
    [m_pendingVoiceTargetUpdates] and the TLS log. *)
Lemma tick_decompose (now : Z) (s : MumbleClient) :
  lockedIsActive s = true ->
  exists s3,
    idleTimerEvent now s = pingCadence now s3 /\
    lockedIsActive s3 = true /\
    forall (A : Type) (f : MumbleClient -> A),
      (forall v x, f (set_tls_out v x) = f x) ->
      (forall v x, f (set_m_lastManualChannel v x) = f x) ->
      (forall v x, f (set_m_lastChannelListens v x) = f x) ->
      (forall v x, f (set_m_pendingVoiceTargetUpdates v x) = f x) ->
      f s3 = f s.
Proof.
  intros H. unfold idleTimerEvent. rewrite H.
  rewrite (reconcileChannel_active s H). cbn [bind].
  set (s1 := if channelDue s then _ else s).
  assert (H1 : lockedIsActive s1 = true).
  { rewrite <- H. subst s1. destruct (channelDue s); [|reflexivity].
    now apply lockedIsActive_same. }
  rewrite (reconcileListens_active s1 H1). cbn [bind].
  set (s2 := set_tls_out _ _).
  assert (H2 : lockedIsActive s2 = true).
  { rewrite <- H1. now apply lockedIsActive_same. }
  rewrite (flushVoiceTargets_active s2 H2). cbn [bind].
  set (s3 := set_m_pendingVoiceTargetUpdates _ _).
  exists (trackSelfChannel s3). split; [reflexivity|]. split.
  - rewrite <- H2. apply lockedIsActive_same;
      unfold trackSelfChannel; destruct (selfChannelName (m_state s3));
      reflexivity.
  - intros A f Ft Fc Fl Fp.
    assert (E3 : f (trackSelfChannel s3) = f s3).
    { unfold trackSelfChannel. destruct (selfChannelName (m_state s3)); auto. }
    rewrite E3. subst s3 s2. rewrite Fp, !Ft, Fl.
    subst s1. destruct (channelDue s); [|reflexivity]. now rewrite Ft, Fc.
Qed.

Lemma SendUDP_out (buf : list Byte.byte) (s : MumbleClient) :
  udp_out (SendUDP buf s)
  = udp_out s
    ++ if IsInitialized (m_crypto s) && (size_of buf <=? kMaxUdpPacket)
       then [{| dg_buf := fst (Encrypt (m_crypto s) buf);
                dg_len := size_of buf + 4 |}]
       else [].
Proof.
  unfold SendUDP. cbv zeta.
  destruct (IsInitialized (m_crypto s)); simpl; [|now rewrite app_nil_r].
  rewrite Z.gtb_ltb, Z.leb_antisym.
  destruct (kMaxUdpPacket <? size_of buf); simpl; [now rewrite app_nil_r|].
  now destruct (Encrypt (m_crypto s) buf).
Qed.

Lemma SendUDP_hasUdp (buf : list Byte.byte) (s : MumbleClient) :
  m_hasUdp (SendUDP buf s) = m_hasUdp s.
Proof.
  unfold SendUDP. cbv zeta.
  destruct (negb (IsInitialized (m_crypto s))); [reflexivity|].
  destruct (size_of buf >? kMaxUdpPacket); [reflexivity|].
  now destruct (Encrypt (m_crypto s) buf).
Qed.

(** X8. Every tick of an active client whose ping is due queues one UDP
    ping, the encrypted [0x20] header and time stamp, provided the crypto
    state has keys: it does so whether or not [m_hasUdp] is set, and also
    on the tick that resets the connection. A tick whose ping is not due
    queues nothing. *)
Theorem tick_udp_ping (now : Z) (s : MumbleClient) :
  lockedIsActive s = true ->
  size_of (udpPingPayload now) <= kMaxUdpPacket ->
  exists s',
    idleTimerEvent now s = Some s' /\
    m_hasUdp s' = m_hasUdp s /\
    datagrams s s'
    = if (now >? m_nextPing s) && IsInitialized (m_crypto s)
      then [{| dg_buf := fst (Encrypt (m_crypto s) (udpPingPayload now));
               dg_len := size_of (udpPingPayload now) + 4 |}]
      else [].
Proof.
  intros Ha Hsz. destruct (tick_decompose now s Ha) as (s3 & E & H3 & F).
  rewrite E. unfold pingCadence.
  rewrite (F _ m_nextPing) by reflexivity.
  destruct (now >? m_nextPing s).
  - cbv zeta.
    set (s2 := set_m_inFlightTcpPings _ _).
    assert (Hsend : exists v, Send_proto MumbleMessageType.Ping
                                (MumbleProto.MPing (pingMessage now s2)) s2
                              = Some (set_tls_out v s2)).
    { destruct (isConnected (m_connectionInfo s2)) eqn:Hc.
      - exists (tls_out s2 ++ frame_of MumbleMessageType.Ping
                                 (Proto (MumbleProto.MPing (pingMessage now s2)))).
        apply Send_proto_active. unfold lockedIsActive. rewrite Hc.
        subst s2. proj.
        assert (Ht : m_tlsClient
                       (if (m_inFlightTcpPings s3 >=? 4)
                           && (now - m_timeSinceJoin s3 >? k20s)
                        then set_m_connectionInfo
                               (set_isConnected false false
                                  (m_connectionInfo s3)) s3
                        else s3) = m_tlsClient s3)
          by (destruct (_ && _); reflexivity).
        rewrite Ht. unfold lockedIsActive in H3.
        apply andb_true_iff in H3 as [H3 _]. now rewrite H3.
      - exists (tls_out s2). rewrite Send_proto_disconnected by exact Hc.
        apply f_equal. symmetry. apply set_tls_out_same. }
    destruct Hsend as (v & ->). cbn [bind].
    eexists. split; [reflexivity|]. proj.
    assert (Hu : forall (A : Type) (f : MumbleClient -> A),
               (forall w x, f (set_tls_out w x) = f x) ->
               (forall w x, f (set_m_inFlightTcpPings w x) = f x) ->
               (forall w x, f (set_m_connectionInfo w x) = f x) ->
               f (set_tls_out v s2) = f s3).
    { intros A f F1 F2 F3. rewrite F1. subst s2. rewrite F2.
      destruct (_ && _); [apply F3 | reflexivity]. }
    split.
    + rewrite SendUDP_hasUdp, (Hu _ m_hasUdp) by reflexivity.
      now apply (F _ m_hasUdp).
    + unfold datagrams. proj. rewrite SendUDP_out.
      rewrite (Hu _ udp_out), (Hu _ m_crypto) by reflexivity.
      rewrite (F _ udp_out), (F _ m_crypto) by reflexivity.
      rewrite skipn_length_app. cbn [andb].
      fold (udpPingPayload now).
      apply Z.leb_le in Hsz. rewrite Hsz, andb_true_r. reflexivity.
  - eexists. split; [reflexivity|].
    split; [now apply (F _ m_hasUdp)|].
    unfold datagrams. rewrite (F _ udp_out) by reflexivity.
    rewrite <- (app_nil_r (udp_out s)) at 2. now rewrite skipn_length_app.
Qed.

End MoreTick.

Section TickMessages.

Context {crypto_ops : CryptoOps} {pds_ops : PacketDataStreamOps}.

(** X9. The messages of one tick of an active client come in a fixed
    order: at most one channel move, then at most one listen update, then
    one [VoiceTarget] per pending entry, then at most one [Ping]; nothing
    else is written. The [Ping] is missing exactly when the ping is not
    due or when the tick has just reset the connection. *)
Theorem tick_messages_in_order (now : Z) (s : MumbleClient) :
  lockedIsActive s = true ->
  exists s' move listen ping,
    idleTimerEvent now s = Some s' /\
    emitted s s'
    = move ++ listen
      ++ map (fun e => MumbleProto.MVoiceTarget
                         (voiceTargetFor (m_state s) (fst e) (snd e)))
             (m_pendingVoiceTargetUpdates s)
      ++ ping /\
    (List.length move <= 1)%nat /\ forallb is_channelMove move = true /\
    (List.length listen <= 1)%nat /\ forallb is_listenUpdate listen = true /\
    (List.length ping <= 1)%nat /\ forallb is_ping ping = true /\
    (ping = [] <->
     ~ now > m_nextPing s \/
     (m_inFlightTcpPings s >= 4 /\ now - m_timeSinceJoin s > k20s)).
Proof.
  intros Ha. destruct (idleTimerEvent_active now s Ha) as (s' & E & T).
  exists s', (messages (channelWrites s)),
    (messages (listenWrites (m_state s) (m_curChannelListens s)
                            (m_lastChannelListens s))),
    (messages (pingWrites now s)).
  split; [exact E|]. split.
  - rewrite (emitted_app _ _ _ (tick_tls_out _ _ _ T)).
    now rewrite !messages_app, messages_voiceTargetWrites.
  - rewrite messages_channelWrites, messages_listenWrites, messages_pingWrites.
    cbv zeta.
    split; [destruct (channelDue s); simpl; lia|].
    split; [destruct (channelDue s); [|reflexivity]; cbn [forallb];
            now rewrite joinOrCreate_channelMove|].
    split; [destruct (negb _ || negb _); simpl; lia|].
    split; [now destruct (negb _ || negb _)|].
    unfold pingDue, pingTimedOut.
    split; [destruct (_ && negb _); simpl; lia|].
    split; [now destruct (_ && negb _)|].
    destruct (Z.gtb_spec now (m_nextPing s)) as [Hd|Hd];
      destruct (Z.geb_spec (m_inFlightTcpPings s) 4) as [Hi|Hi];
      destruct (Z.gtb_spec (now - m_timeSinceJoin s) k20s) as [Ht|Ht];
      cbn [andb negb]; split; intros H; try discriminate; try reflexivity;
      try lia; try (right; lia); try (left; lia);
      destruct H as [H | [H1 H2]]; lia.
Qed.

Lemma pingTimes_inactive (ts : list Z) (s : MumbleClient) :
  lockedIsActive s = false -> pingTimes ts s = [].
Proof.
  revert s. induction ts as [|t r IH]; intros s H; [reflexivity|].
  cbn [pingTimes]. rewrite (idleTimerEvent_inactive_eq t s H).
  set (s' := if negb _ then _ else s).
  assert (Ht : tls_out s' = tls_out s)
    by (subst s'; destruct (negb _); reflexivity).
  assert (Hi : lockedIsActive s' = false).
  { rewrite <- H. subst s'. destruct (negb _); [|reflexivity].
    now apply lockedIsActive_same. }
  now rewrite (emitted_same _ _ Ht), (IH s' Hi).
Qed.

Lemma pingTimes_spaced (ts : list Z) (s : MumbleClient) :
  StronglySorted (fun a b => b - a > kPingInterval) (pingTimes ts s) /\
  Forall (fun e => e > m_nextPing s) (pingTimes ts s).
Proof.
  revert s. induction ts as [|t r IH]; intros s.
  - simpl. split; constructor.
  - destruct (lockedIsActive s) eqn:Ha.
    2:{ rewrite (pingTimes_inactive _ _ Ha). split; constructor. }
    cbn [pingTimes].
    destruct (idleTimerEvent_active t s Ha) as (s' & E & T). rewrite E.
    rewrite (pings_of_tick t s s' T).
    destruct (IH s') as [Hs Hf].
    pose proof (tick_nextPing _ _ _ T) as Hn.
    pose proof (tick_isConnected _ _ _ T) as Hc.
    unfold pingDue, pingTimedOut in *.
    destruct (Z.gtb_spec t (m_nextPing s)) as [Hd|Hd]; cbn [andb] in *.
    + destruct ((m_inFlightTcpPings s >=? 4)
                && (t - m_timeSinceJoin s >? k20s)); cbn [negb map filter app] in *.
      * rewrite (pingTimes_inactive r s'); [split; constructor|].
        unfold lockedIsActive. rewrite Hc. apply andb_false_r.
      * rewrite Hn in Hf. split.
        -- constructor; [exact Hs|]. eapply Forall_impl; [|exact Hf].
           intros e He. cbv beta in He. lia.
        -- constructor; [lia|]. eapply Forall_impl; [|exact Hf].
           intros e He. cbv beta in He. unfold kPingInterval in *. lia.
    + cbn [map filter app]. rewrite Hn in Hf. now split.
Qed.

(** X10. Along any run of ticks, whatever their times, two [Ping] messages
    are more than 1000 ms apart: no window of 1000 ms holds two. *)
Theorem pings_at_most_once_per_interval (ts : list Z) (w : Z)
    (s : MumbleClient) :
  StronglySorted (fun a b => b - a > kPingInterval) (pingTimes ts s) /\
  (List.length (inWindow w (pingTimes ts s)) <= 1)%nat.
Proof.
  destruct (pingTimes_spaced ts s) as [Hs _].
  split; [exact Hs | now apply spaced_window].
Qed.

Lemma runTicks_step (t : Z) (r : list Z) (s s' : MumbleClient) :
  idleTimerEvent t s = Some s' ->
  falls (connected s) (map connected (runTicks (t :: r) s))
  = ((if connected s && negb (connected s') then 1 else 0)
     + falls (connected s') (map connected (runTicks r s')))%nat.
Proof.
  intros E. cbn [runTicks]. rewrite E. reflexivity.
Qed.

Lemma runTicks_no_timeout_early (ts : list Z) (s : MumbleClient) :
  Forall (fun t => t - m_timeSinceJoin s <= k20s) ts ->
  falls (connected s) (map connected (runTicks ts s)) = O.
Proof.
  revert s. induction ts as [|t r IH]; intros s Hall; [reflexivity|].
  inversion Hall as [|? ? Ht Hr]; subst.
  destruct (lockedIsActive s) eqn:Ha.
  - destruct (idleTimerEvent_active t s Ha) as (s' & E & T).
    rewrite (runTicks_step _ _ _ _ E).
    assert (Hc : connected s' = true).
    { unfold connected. rewrite (tick_isConnected _ _ _ T).
      unfold pingTimedOut.
      replace (t - m_timeSinceJoin s >? k20s) with false
        by (symmetry; rewrite Z.gtb_ltb; now apply Z.ltb_ge).
      now rewrite !andb_false_r. }
    rewrite Hc, andb_false_r. cbn [Nat.add]. rewrite <- Hc. apply IH.
    now rewrite (tick_timeSinceJoin _ _ _ T).
  - rewrite (runTicks_step _ _ _ _ (idleTimerEvent_inactive_eq t s Ha)).
    set (s' := if negb _ then _ else s).
    assert (Hc : connected s' = connected s)
      by (subst s'; destruct (negb _); reflexivity).
    assert (Hj : m_timeSinceJoin s' = m_timeSinceJoin s)
      by (subst s'; destruct (negb _); reflexivity).
    rewrite Hc.
    replace (connected s && negb (connected s)) with false
      by (destruct (connected s); reflexivity).
    cbn [Nat.add]. rewrite <- Hc. apply IH. now rewrite Hj.
Qed.

Lemma runTicks_no_timeout_few (ts : list Z) (s : MumbleClient) :
  0 <= m_inFlightTcpPings s ->
  m_inFlightTcpPings s + Z.of_nat (List.length ts) <= 4 ->
  falls (connected s) (map connected (runTicks ts s)) = O.
Proof.
  revert s. induction ts as [|t r IH]; intros s H0 Hlen; [reflexivity|].
  cbn [List.length] in Hlen. rewrite Nat2Z.inj_succ in Hlen.
  destruct (lockedIsActive s) eqn:Ha.
  - destruct (idleTimerEvent_active t s Ha) as (s' & E & T).
    rewrite (runTicks_step _ _ _ _ E).
    assert (Hc : connected s' = true).
    { unfold connected. rewrite (tick_isConnected _ _ _ T).
      unfold pingTimedOut.
      replace (m_inFlightTcpPings s >=? 4) with false
        by (symmetry; rewrite Z.geb_leb; apply Z.leb_gt; lia).
      now rewrite andb_false_r. }
    rewrite Hc, andb_false_r. cbn [Nat.add]. rewrite <- Hc.
    pose proof (tick_inFlight _ _ _ T) as Hi.
    assert (Hu : u32 (m_inFlightTcpPings s + 1) = m_inFlightTcpPings s + 1)
      by (unfold u32; apply Z.mod_small; lia).
    rewrite Hu in Hi.
    apply IH; destruct (pingDue t s); lia.
  - rewrite (runTicks_step _ _ _ _ (idleTimerEvent_inactive_eq t s Ha)).
    set (s' := if negb _ then _ else s).
    assert (Hc : connected s' = connected s)
      by (subst s'; destruct (negb _); reflexivity).
    assert (Hj : m_inFlightTcpPings s' = m_inFlightTcpPings s)
      by (subst s'; destruct (negb _); reflexivity).
    rewrite Hc.
    replace (connected s && negb (connected s)) with false
      by (destruct (connected s); reflexivity).
    cbn [Nat.add]. rewrite <- Hc. apply IH; rewrite Hj; lia.
Qed.

(** X11. Ticks alone never reset the connection of a session that is at
    most 20 s old, however many pings are unanswered; nor, at any age, do
    they within the first four ticks after a ping from the server. *)
Theorem no_ping_timeout_early_or_before_four (now : Z)
    (ping : MumbleProto.Ping) (ts : list Z) (s : MumbleClient) :
  (Forall (fun t => t - m_timeSinceJoin s <= k20s) ts ->
   falls (connected s) (map connected (runTicks ts s)) = O) /\
  ((List.length ts <= 4)%nat ->
   falls (connected (HandlePing now ping s))
         (map connected (runTicks ts (HandlePing now ping s))) = O).
Proof.
  split.
  - apply runTicks_no_timeout_early.
  - intros Hlen. apply runTicks_no_timeout_few;
      rewrite HandlePing_inFlight; lia.
Qed.

End TickMessages.

(** ** More on the listen-channel reconciliation *)

Lemma no_member_nil {A} (l : list A) : (forall x, ~ In x l) -> l = [].
Proof.
  destruct l as [|x r]; [reflexivity|]. intros H. exfalso.
  apply (H x). now left.
Qed.

(** Two ordered sets with the same names are the same list. *)
Lemma set_ok_ext (a b : StrSet) :
  set_ok a -> set_ok b -> (forall x, In x a <-> In x b) -> a = b.
Proof.
  unfold set_ok. revert b. induction a as [|x a IH]; intros b Ha Hb H.
  - symmetry. apply no_member_nil. intros y Hy. now apply H in Hy.
  - destruct b as [|y b].
    + exfalso. apply (H x). now left.
    + apply set_ok_inv in Ha as [Ha Hx]. apply set_ok_inv in Hb as [Hb Hy].
      rewrite Forall_forall in Hx, Hy.
      assert (x = y).
      { destruct (proj1 (H x) (or_introl eq_refl)) as [<-|Hxb]; [reflexivity|].
        destruct (proj2 (H y) (or_introl eq_refl)) as [<-|Hya]; [reflexivity|].
        exfalso. exact (str_lt_irrefl _ (str_lt_trans _ _ _ (Hx _ Hya) (Hy _ Hxb))). }
      subst y. f_equal. apply IH; auto.
      intros z. split; intros Hz.
      * destruct (proj1 (H z) (or_intror Hz)) as [<-|Hzb]; [|exact Hzb].
        exfalso. exact (str_lt_irrefl _ (Hx _ Hz)).
      * destruct (proj2 (H z) (or_intror Hz)) as [<-|Hza]; [|exact Hza].
        exfalso. exact (str_lt_irrefl _ (Hy _ Hz)).
Qed.

Lemma insert_resolved_none (st : MumbleClientState) (names : list string)
    (l : StrSet) :
  filter (resolves st) names = [] -> insert_resolved st names l = l.
Proof.
  revert l. induction names as [|n r IH]; intros l H; [reflexivity|].
  rewrite insert_resolved_cons. cbn [filter] in H. unfold resolves in H at 1.
  destruct (negb (findCh st n =? u32 (-1))); [discriminate|]. now apply IH.
Qed.

Lemma listenDeltas_last_spec (st : MumbleClientState) (cur last : StrSet) :
  set_ok cur -> set_ok last ->
  let last' := snd (listenDeltas st cur last) in
  set_ok last' /\
  forall x, In x last' <->
            (In x last /\ In x cur) \/
            (In x cur /\ ~ In x last /\ resolves st x = true).
Proof.
  intros Hcur Hlast. cbv zeta. rewrite listenDeltas_eq. cbn [snd].
  destruct (erase_all_spec (set_difference last cur) last Hlast) as [Hok1 Hin1].
  destruct (insert_resolved_spec st (set_difference cur last) _ Hok1)
    as [Hok2 Hin2].
  split; [exact Hok2|]. intros x.
  rewrite Hin2, Hin1, !set_difference_In by assumption. split.
  - intros [[Hl Hn] | [[Hc Hn] Hr]]; [left | right; auto].
    split; [exact Hl|].
    destruct (in_dec string_dec x cur) as [Hc|Hc]; [exact Hc|].
    exfalso. apply Hn. now split.
  - intros [[Hl Hc] | (Hc & Hn & Hr)]; [left | right; auto].
    split; [exact Hl|]. intros [_ Hn]. contradiction.
Qed.

(** Reconciling again, with nothing changed, finds nothing to do. *)
Lemma listenDeltas_idem (st : MumbleClientState) (cur last : StrSet) :
  set_ok cur -> set_ok last ->
  let last' := snd (listenDeltas st cur last) in
  listenDeltas st cur last' = ([], [], last').
Proof.
  intros Hcur Hlast last'.
  destruct (listenDeltas_last_spec st cur last Hcur Hlast) as [Hok Hin].
  fold last' in Hok, Hin.
  assert (Hrem : set_difference last' cur = []).
  { apply no_member_nil. intros x Hx.
    apply set_difference_In in Hx as [Hx Hn]; auto.
    apply Hin in Hx as [[_ Hc] | [Hc _]]; contradiction. }
  assert (Hadd : filter (resolves st) (set_difference cur last') = []).
  { apply no_member_nil. intros x Hx. apply filter_In in Hx as [Hx Hr].
    apply set_difference_In in Hx as [Hc Hn]; auto.
    apply Hn, Hin.
    destruct (in_dec string_dec x last) as [Hl|Hl]; [left | right]; auto. }
  rewrite listenDeltas_eq, Hrem. unfold resolved_ids at 1 2. rewrite Hadd.
  cbn [filter map]. unfold erase_all. cbn [fold_left].
  now rewrite insert_resolved_none.
Qed.

Section MoreListens.

Context {crypto_ops : CryptoOps} {pds_ops : PacketDataStreamOps}.

(** X12. After a tick of an active client has reconciled the listen
    channels, a second tick with the listen set and the store unchanged
    emits no listen update and leaves [m_lastChannelListens] as the first
    tick left it: names that did not resolve are looked up again, without
    any message, until the store knows them. *)
Theorem listen_update_not_repeated (now now2 : Z) (s : MumbleClient) :
  lockedIsActive s = true ->
  set_ok (m_curChannelListens s) ->
  set_ok (m_lastChannelListens s) ->
  exists s1 s2,
    idleTimerEvent now s = Some s1 /\
    idleTimerEvent now2 s1 = Some s2 /\
    filter is_listenUpdate (emitted s1 s2) = [] /\
    m_lastChannelListens s2 = m_lastChannelListens s1.
Proof.
  intros Ha Hcur Hlast.
  destruct (idleTimerEvent_active now s Ha) as (s1 & E1 & T1).
  exists s1.
  destruct (lockedIsActive s1) eqn:Ha1.
  - destruct (idleTimerEvent_active now2 s1 Ha1) as (s2 & E2 & T2).
    exists s2. split; [exact E1|]. split; [exact E2|].
    pose proof (listenDeltas_idem (m_state s) (m_curChannelListens s)
                  (m_lastChannelListens s) Hcur Hlast) as Hid.
    cbv zeta in Hid.
    rewrite <- (tick_lastChannelListens _ _ _ T1) in Hid.
    rewrite <- (tick_state _ _ _ T1), <- (tick_curChannelListens _ _ _ T1) in Hid.
    split.
    + rewrite (listenUpdates_of_tick now2 s1 s2 T2), messages_listenWrites.
      cbv zeta. now rewrite Hid.
    + rewrite (tick_lastChannelListens _ _ _ T2). now rewrite Hid.
  - rewrite (idleTimerEvent_inactive_eq now2 s1 Ha1).
    eexists. split; [exact E1|]. split; [reflexivity|].
    split.
    + rewrite emitted_same; [reflexivity|]. now destruct (negb _).
    + now destruct (negb _).
Qed.

(** X13. When every name to add resolves, one tick of an active client
    brings [m_lastChannelListens] to the listen set asked for. *)
Theorem listen_sets_converge (now : Z) (s : MumbleClient) :
  lockedIsActive s = true ->
  set_ok (m_curChannelListens s) ->
  set_ok (m_lastChannelListens s) ->
  (forall x, In x (m_curChannelListens s) ->
             ~ In x (m_lastChannelListens s) ->
             resolves (m_state s) x = true) ->
  exists s',
    idleTimerEvent now s = Some s' /\
    m_lastChannelListens s' = m_curChannelListens s.
Proof.
  intros Ha Hcur Hlast Hres.
  destruct (idleTimerEvent_active now s Ha) as (s' & E & T).
  exists s'. split; [exact E|].
  rewrite (tick_lastChannelListens _ _ _ T).
  destruct (listenDeltas_last_spec (m_state s) (m_curChannelListens s)
              (m_lastChannelListens s) Hcur Hlast) as [Hok Hin].
  apply set_ok_ext; auto. intros x. rewrite Hin. split.
  - intros [[_ Hc] | [Hc _]]; exact Hc.
  - intros Hc.
    destruct (in_dec string_dec x (m_lastChannelListens s)) as [Hl|Hl];
      [left | right]; auto.
Qed.

(** X14. Once a tick of an active client has seen our user in a named
    channel, asking for that channel with [SetChannel] emits nothing at
    the next tick: [m_lastManualChannel] follows the channel we are in. *)
Theorem SetChannel_to_own_channel_is_silent (now now2 : Z) (name : string)
    (s : MumbleClient) :
  lockedIsActive s = true ->
  selfChannelName (m_state s) = Some name ->
  exists s1 s2,
    idleTimerEvent now s = Some s1 /\
    m_lastManualChannel s1 = name /\
    idleTimerEvent now2 (SetChannel name s1) = Some s2 /\
    filter is_channelMove (emitted (SetChannel name s1) s2) = [].
Proof.
  intros Ha Hself.
  destruct (idleTimerEvent_active now s Ha) as (s1 & E1 & T1).
  exists s1.
  assert (Hl : m_lastManualChannel s1 = name)
    by now rewrite (tick_lastManualChannel _ _ _ T1), Hself.
  set (s1' := SetChannel name s1).
  assert (Ht : tls_out s1' = tls_out s1 /\
               m_lastManualChannel s1' = m_lastManualChannel s1 /\
               lockedIsActive s1' = lockedIsActive s1 /\
               (lockedIsActive s1' = true -> m_curManualChannel s1' = name)).
  { subst s1'. unfold SetChannel.
    destruct (isConnected (m_connectionInfo s1)) eqn:Hc; cbn [negb].
    - destruct (String.eqb_spec name (m_curManualChannel s1)) as [->|Hn];
        repeat split; auto.
    - repeat split; auto. intros H. unfold lockedIsActive in H.
      rewrite Hc, andb_false_r in H. discriminate. }
  destruct Ht as (Ht & Hl' & Hact & Hcur).
  destruct (lockedIsActive s1') eqn:Ha1.
  - destruct (idleTimerEvent_active now2 s1' Ha1) as (s2 & E2 & T2).
    exists s2. repeat split; auto.
    rewrite (channelMoves_of_tick now2 s1' s2 T2). unfold channelDue.
    now rewrite (Hcur eq_refl), Hl', Hl, String.eqb_refl.
  - rewrite (idleTimerEvent_inactive_eq now2 s1' Ha1).
    eexists. repeat split; auto.
    rewrite emitted_same; [reflexivity|]. now destruct (negb _).
Qed.

End MoreListens.

(** ** Voice targets: updates made before a tick *)

Lemma map_assign_twice {V} (k : Z) (v1 v2 : V) (m : list (Z * V)) :
  map_assign k v2 (map_assign k v1 m) = map_assign k v2 m.
Proof.
  induction m as [|[k' v'] r IH]; cbn [map_assign].
  - now rewrite Z.ltb_irrefl, Z.eqb_refl.
  - destruct (Z.ltb_spec k k') as [Hlt|Hge]; cbn [map_assign].
    + now rewrite Z.ltb_irrefl, Z.eqb_refl.
    + destruct (Z.eqb_spec k k') as [->|Hne]; cbn [map_assign].
      * now rewrite Z.ltb_irrefl, Z.eqb_refl.
      * destruct (Z.ltb_spec k k'); [lia|].
        destruct (Z.eqb_spec k k'); [lia|]. now rewrite IH.
Qed.

Lemma map_assign_In {V} (k : Z) (v : V) (m : list (Z * V)) (e : Z * V) :
  In e (map_assign k v m) -> e = (k, v) \/ In e m.
Proof.
  induction m as [|[k' v'] r IH]; cbn [map_assign].
  - intros [<-|[]]. now left.
  - destruct (k <? k'); [|destruct (k =? k')].
    + intros [<-|H]; auto.
    + intros [<-|H]; auto. right. now right.
    + intros [<-|H]; [right; now left|].
      destruct (IH H) as [->|Hin]; auto. right. now right.
Qed.

Lemma map_assign_ok {V} (k : Z) (v : V) (m : list (Z * V)) :
  map_ok m -> map_ok (map_assign k v m).
Proof.
  unfold map_ok. induction m as [|[k' v'] r IH]; intros Hm; cbn [map_assign].
  - repeat constructor.
  - cbn [map fst] in Hm. apply StronglySorted_inv in Hm as [Hr Hall].
    destruct (Z.ltb_spec k k') as [Hlt|Hge].
    + cbn [map fst]. constructor.
      * constructor; assumption.
      * constructor; [exact Hlt|].
        eapply Forall_impl; [|exact Hall]. cbv beta. intros a Ha. lia.
    + destruct (Z.eqb_spec k k') as [->|Hne].
      * cbn [map fst]. constructor; assumption.
      * cbn [map fst]. constructor; [now apply IH|].
        apply Forall_forall. intros a Ha. apply in_map_iff in Ha as (e & <- & He).
        apply map_assign_In in He as [->|He]; [cbn; lia|].
        rewrite Forall_forall in Hall. apply Hall. now apply in_map.
Qed.

Lemma filter_key_above {V} (k : Z) (m : list (Z * V)) :
  Forall (Z.lt k) (map fst m) -> filter (fun e => fst e =? k) m = [].
Proof.
  induction m as [|[k' v'] r IH]; intros H; [reflexivity|].
  cbn [map fst] in H. apply Forall_cons_iff in H as [Hk Hr].
  cbn [filter fst]. destruct (Z.eqb_spec k' k); [lia|]. now apply IH.
Qed.

Lemma map_assign_once {V} (k : Z) (v : V) (m : list (Z * V)) :
  map_ok m -> filter (fun e => fst e =? k) (map_assign k v m) = [(k, v)].
Proof.
  unfold map_ok. induction m as [|[k' v'] r IH]; intros Hm; cbn [map_assign].
  - cbn [filter fst]. now rewrite Z.eqb_refl.
  - cbn [map fst] in Hm. apply StronglySorted_inv in Hm as [Hr Hall].
    destruct (Z.ltb_spec k k') as [Hlt|Hge].
    + cbn [filter fst]. rewrite Z.eqb_refl.
      destruct (Z.eqb_spec k' k); [lia|]. f_equal.
      apply filter_key_above. eapply Forall_impl; [|exact Hall].
      cbv beta. intros a Ha. lia.
    + destruct (Z.eqb_spec k k') as [->|Hne].
      * cbn [filter fst]. rewrite Z.eqb_refl. f_equal.
        now apply filter_key_above.
      * cbn [filter fst]. destruct (Z.eqb_spec k' k); [lia|]. now apply IH.
Qed.

Lemma map_find_assign_ne {V} (k j : Z) (v : V) (m : list (Z * V)) :
  j <> k -> map_find j (map_assign k v m) = map_find j m.
Proof.
  intros Hne. unfold map_find.
  induction m as [|[k' v'] r IH]; cbn [map_assign].
  - cbn [find fst]. now destruct (Z.eqb_spec k j); [lia|].
  - destruct (k <? k'); [|destruct (Z.eqb_spec k k') as [->|Hk]].
    + cbn [find fst]. destruct (Z.eqb_spec k j); [lia|]. reflexivity.
    + cbn [find fst]. destruct (Z.eqb_spec k' j); [lia|]. reflexivity.
    + cbn [find fst]. destruct (k' =? j); [reflexivity|]. exact IH.
Qed.

Section MoreVoiceTargets.

Context {crypto_ops : CryptoOps} {pds_ops : PacketDataStreamOps}.

(** X15. Two [UpdateVoiceTarget] calls for one target id before a tick
    leave one pending entry for that id, holding the later config, and do
    not touch the entries of other ids; the tick of an active client then
    writes one [VoiceTarget] per pending entry, in id order, and leaves
    nothing pending. *)
Theorem voice_target_last_update_wins (now idx : Z) (c1 c2 : VoiceTargetConfig)
    (s : MumbleClient) :
  lockedIsActive s = true ->
  map_ok (m_pendingVoiceTargetUpdates s) ->
  let s0 := UpdateVoiceTarget idx c2 (UpdateVoiceTarget idx c1 s) in
  map_ok (m_pendingVoiceTargetUpdates s0) /\
  filter (fun e => fst e =? idx) (m_pendingVoiceTargetUpdates s0) = [(idx, c2)] /\
  (forall k, k <> idx ->
             map_find k (m_pendingVoiceTargetUpdates s0)
             = map_find k (m_pendingVoiceTargetUpdates s)) /\
  exists s',
    idleTimerEvent now s0 = Some s' /\
    voiceTargets (emitted s0 s')
    = map (fun e => voiceTargetFor (m_state s) (fst e) (snd e))
          (m_pendingVoiceTargetUpdates s0) /\
    m_pendingVoiceTargetUpdates s' = [].
Proof.
  intros Ha Hok s0.
  assert (Hp : m_pendingVoiceTargetUpdates s0
               = map_assign idx c2 (m_pendingVoiceTargetUpdates s)).
  { subst s0. unfold UpdateVoiceTarget. proj. apply map_assign_twice. }
  assert (Ha0 : lockedIsActive s0 = true) by exact Ha.
  rewrite Hp.
  split; [now apply map_assign_ok|].
  split; [now apply map_assign_once|].
  split; [intros k Hk; now apply map_find_assign_ne|].
  destruct (idleTimerEvent_active now s0 Ha0) as (s' & E & T).
  exists s'. split; [exact E|]. split.
  - rewrite (voiceTargets_of_tick now s0 s' T). now rewrite Hp.
  - exact (tick_pending _ _ _ T).
Qed.

End MoreVoiceTargets.

Lemma voice_target_last_update_wins_witness :
  filter (fun e => fst e =? 1)
         (m_pendingVoiceTargetUpdates
            (UpdateVoiceTarget 1 {| users := ["me"%string]; channels := [] |}
               (UpdateVoiceTarget 1 {| users := []; channels := [] |}
                  Sample.whisper)))
  = [(1, {| users := ["me"%string]; channels := [] |})].
Proof.
  refine (proj1 (proj2
            (@voice_target_last_update_wins Sample.crypto Sample.pds 100 1
               {| users := []; channels := [] |}
               {| users := ["me"%string]; channels := [] |}
               Sample.whisper _ _))).
  - reflexivity.
  - unfold map_ok. vm_compute. repeat constructor.
Defined.

(** ** The connection life cycle *)

Section LifeCycle.

Context {crypto_ops : CryptoOps} {pds_ops : PacketDataStreamOps}.

Lemma idle_tick_not_connected (now : Z) (s : MumbleClient) :
  isConnected (m_connectionInfo s) = false ->
  exists s',
    idleTimerEvent now s = Some s' /\
    tls_out s' = tls_out s /\ udp_out s' = udp_out s /\
    (addressFamily (m_connectionInfo s) <> 0 ->
     m_connectTimer s' = Some 2500 /\ m_idleTimer s' = false) /\
    (addressFamily (m_connectionInfo s) = 0 -> s' = s).
Proof.
  intros Hc.
  rewrite (idleTimerEvent_inactive_eq now s (not_connected_not_active s Hc)).
  eexists. split; [reflexivity|].
  destruct (Z.eqb_spec (addressFamily (m_connectionInfo s)) 0) as [H0|H0];
    cbn [negb]; repeat split; auto; try contradiction; try lia.
Qed.

Lemma SetChannel_not_connected (name : string) (s : MumbleClient) :
  isConnected (m_connectionInfo s) = false -> SetChannel name s = s.
Proof. unfold SetChannel. now intros ->. Qed.

Lemma SendUDP_tls_out (buf : list Byte.byte) (s : MumbleClient) :
  tls_out (SendUDP buf s) = tls_out s.
Proof.
  unfold SendUDP. cbv zeta.
  destruct (negb (IsInitialized (m_crypto s))); [reflexivity|].
  destruct (size_of buf >? kMaxUdpPacket); [reflexivity|].
  now destruct (Encrypt (m_crypto s) buf).
Qed.

(** X16. When the connection is lost (TCP error, TCP end, or a TLS alert
    that is fatal or a close notify), the client marks itself as not
    connected: what is sent on the control channel is dropped without
    error, [SetChannel] is ignored, and the next idle tick writes nothing;
    with an address set it arms the connect timer for 2500 ms and stops
    the idle timer, without one it does nothing. An alert that is neither
    fatal nor a close notify changes nothing. *)
Theorem connection_lost_then_reconnect (now : Z) (w : TlsWrite)
    (name : string) (s : MumbleClient) :
  (forall s1,
      s1 = ConnectionLost s \/ s1 = OnAlert true s ->
      isConnected (m_connectionInfo s1) = false /\
      isConnecting (m_connectionInfo s1) = false /\
      Send w s1 = Some s1 /\
      SetChannel name s1 = s1 /\
      exists s2,
        idleTimerEvent now s1 = Some s2 /\
        tls_out s2 = tls_out s /\ udp_out s2 = udp_out s /\
        (addressFamily (m_connectionInfo s) <> 0 ->
         m_connectTimer s2 = Some 2500 /\ m_idleTimer s2 = false) /\
        (addressFamily (m_connectionInfo s) = 0 -> s2 = s1)) /\
  m_idleTimer (ConnectionLost s) = true /\
  m_connectTimer (OnAlert true s) = Some 2500 /\
  OnAlert false s = s.
Proof.
  split; [|repeat split].
  intros s1 Hs1.
  assert (Hc : isConnected (m_connectionInfo s1) = false)
    by (destruct Hs1 as [-> | ->]; reflexivity).
  assert (Hf : addressFamily (m_connectionInfo s1)
               = addressFamily (m_connectionInfo s))
    by (destruct Hs1 as [-> | ->]; reflexivity).
  assert (Ht : tls_out s1 = tls_out s /\ udp_out s1 = udp_out s)
    by (destruct Hs1 as [-> | ->]; split; reflexivity).
  destruct Ht as [Ht Hu].
  split; [exact Hc|].
  split; [destruct Hs1 as [-> | ->]; reflexivity|].
  split; [now apply Send_disconnected|].
  split; [now apply SetChannel_not_connected|].
  destruct (idle_tick_not_connected now s1 Hc) as (s2 & E & Ht2 & Hu2 & Hre & Hno).
  exists s2. rewrite Hf in Hre, Hno.
  repeat split; try congruence; try (now apply Hre); now apply Hno.
Qed.

(** X17. [DisconnectAsync] is final: afterwards both timers are stopped,
    control sends are dropped without error, [SetChannel] is ignored, an
    idle tick changes nothing (no reconnect is armed, as the address is
    cleared), and a voice packet writes nothing to the TLS session. *)
Theorem DisconnectAsync_is_final (now : Z) (w : TlsWrite) (name : string)
    (buf : list Byte.byte) (s : MumbleClient) :
  let s1 := DisconnectAsync s in
  m_connectTimer s1 = None /\ m_idleTimer s1 = false /\
  Send w s1 = Some s1 /\
  SetChannel name s1 = s1 /\
  idleTimerEvent now s1 = Some s1 /\
  (exists s2, SendVoice buf s1 = Some s2 /\ tls_out s2 = tls_out s) /\
  tls_out s1 = tls_out s /\ udp_out s1 = udp_out s.
Proof.
  intros s1.
  assert (Hc : isConnected (m_connectionInfo s1) = false) by reflexivity.
  assert (Ht : tls_out s1 = tls_out s)
    by (subst s1; unfold DisconnectAsync; now destruct (m_tlsClient s)).
  assert (Hu : udp_out s1 = udp_out s)
    by (subst s1; unfold DisconnectAsync; now destruct (m_tlsClient s)).
  split; [reflexivity|]. split; [reflexivity|].
  split; [now apply Send_disconnected|].
  split; [now apply SetChannel_not_connected|].
  split.
  { destruct (idle_tick_not_connected now s1 Hc) as (s2 & E & _ & _ & _ & Hno).
    rewrite E. f_equal. now apply Hno. }
  split; [|split; assumption].
  unfold SendVoice. destruct (negb (m_hasUdp s1)).
  - exists s1. split; [|exact Ht].
    unfold Send_typed.
    rewrite (Send_disconnected
               (WHeader MumbleMessageType.UDPTunnel (Raw buf)) s1 Hc).
    cbn [bind]. now apply Send_disconnected.
  - eexists. split; [reflexivity|]. now rewrite SendUDP_tls_out.
Qed.

Lemma zeroed_history (a : list Z) :
  pingAverage {| pingAverage := 0; pingVariance := 0; pingCount := 0;
                 pings := map (fun _ => 0) a |} = 0%Q /\
  pingVariance {| pingAverage := 0; pingVariance := 0; pingCount := 0;
                  pings := map (fun _ => 0) a |} = 0%Q /\
  pingCount {| pingAverage := 0; pingVariance := 0; pingCount := 0;
               pings := map (fun _ => 0) a |} = 0 /\
  List.length (pings {| pingAverage := 0; pingVariance := 0; pingCount := 0;
                        pings := map (fun _ => 0) a |}) = List.length a /\
  (forall j, array_get (pings {| pingAverage := 0; pingVariance := 0;
                                 pingCount := 0;
                                 pings := map (fun _ => 0) a |}) j = 0).
Proof.
  cbn [pingAverage pingVariance pingCount pings].
  split; [reflexivity|]. split; [reflexivity|].
  split; [reflexivity|]. split; [apply length_map|].
  intros j. unfold array_get.
  destruct (j <? 0); [reflexivity|].
  destruct (nth_in_or_default (Z.to_nat j) (map (fun _ : Z => 0) a) 0)
    as [Hin| ->]; [|reflexivity].
  apply in_map_iff in Hin as (x & Hx & _). now rewrite <- Hx.
Qed.

Ltac ConnectAsync_field :=
  match goal with
  | s0 := ConnectAsync _ _ ?s |- _ =>
      subst s0; unfold ConnectAsync; cbv zeta;
      change (m_curManualChannel (set_m_connectionInfo _ s))
        with (m_curManualChannel s);
      now destruct (String.eqb (m_curManualChannel s) EmptyString)
  end.

(** X18. [ConnectAsync] never leaves the wanted channel empty. A client
    that had no wanted channel asks for "Root"; one that had keeps it and
    has "Root" recorded as the channel it is in, so that a wanted channel
    other than "Root" is asked for again at the next tick of an active
    client that knows the channels. The TCP ping statistics start from
    zero (average, variance, count and every slot of the history, which
    keeps its length); the UDP ones are kept. *)
Theorem ConnectAsync_asks_for_channel (now family : Z) (userName : string)
    (s : MumbleClient) :
  let s0 := ConnectAsync family userName s in
  m_curManualChannel s0 <> EmptyString /\
  (m_curManualChannel s = EmptyString ->
   m_curManualChannel s0 = "Root"%string /\
   m_lastManualChannel s0 = m_lastManualChannel s) /\
  (m_curManualChannel s <> EmptyString ->
   m_curManualChannel s0 = m_curManualChannel s /\
   m_lastManualChannel s0 = "Root"%string) /\
  (pingAverage (m_tcpPing s0) = 0%Q /\
   pingVariance (m_tcpPing s0) = 0%Q /\
   pingCount (m_tcpPing s0) = 0 /\
   List.length (pings (m_tcpPing s0)) = List.length (pings (m_tcpPing s)) /\
   (forall j, array_get (pings (m_tcpPing s0)) j = 0)) /\
  m_udpPing s0 = m_udpPing s /\
  st_username (m_state s0) = userName /\
  m_connectTimer s0 = Some 50 /\
  (lockedIsActive s = true ->
   st_channels (m_state s) <> [] ->
   m_curManualChannel s <> EmptyString ->
   m_curManualChannel s <> "Root"%string ->
   exists s',
     idleTimerEvent now s0 = Some s' /\
     filter is_channelMove (emitted s0 s')
     = [snd (joinOrCreate (m_state s0) (m_curManualChannel s))]).
Proof.
  intros s0.
  assert (Hcur : m_curManualChannel s0
                 = if String.eqb (m_curManualChannel s) EmptyString
                   then "Root"%string else m_curManualChannel s) by ConnectAsync_field.
  assert (Hlast : m_lastManualChannel s0
                  = if String.eqb (m_curManualChannel s) EmptyString
                    then m_lastManualChannel s else "Root"%string)
    by ConnectAsync_field.
  assert (Htcp : m_tcpPing s0
                 = {| pingAverage := 0; pingVariance := 0; pingCount := 0;
                      pings := map (fun _ => 0) (pings (m_tcpPing s)) |})
    by ConnectAsync_field.
  assert (Hudp : m_udpPing s0 = m_udpPing s) by ConnectAsync_field.
  assert (Hst : m_state s0 = set_st_username userName (m_state s))
    by ConnectAsync_field.
  assert (Hact : lockedIsActive s0 = lockedIsActive s).
  { unfold lockedIsActive.
    replace (m_tlsClient s0) with (m_tlsClient s) by ConnectAsync_field.
    replace (isConnected (m_connectionInfo s0))
      with (isConnected (m_connectionInfo s)) by ConnectAsync_field.
    reflexivity. }
  rewrite Hcur, Hlast, Htcp, Hudp, Hst.
  destruct (String.eqb_spec (m_curManualChannel s) EmptyString) as [He|Hne].
  - split; [discriminate|]. split; [intros _; split; reflexivity|].
    split; [intros H; now contradiction H|].
    split; [apply zeroed_history|]. split; [reflexivity|].
    split; [reflexivity|]. split; [ConnectAsync_field|].
    intros _ _ H. now contradiction H.
  - split; [exact Hne|]. split; [intros H; contradiction|].
    split; [intros _; split; reflexivity|].
    split; [apply zeroed_history|]. split; [reflexivity|].
    split; [reflexivity|]. split; [ConnectAsync_field|].
    intros Ha Hch _ Hroot. rewrite <- Hact in Ha.
    destruct (idleTimerEvent_active now s0 Ha) as (s' & E & T).
    exists s'. split; [exact E|].
    rewrite (channelMoves_of_tick now s0 s' T).
    assert (Hdue : channelDue s0 = true).
    { unfold channelDue. rewrite Hcur, Hlast, Hst.
      apply String.eqb_neq in Hroot. rewrite Hroot.
      cbn [set_st_username st_channels].
      destruct (st_channels (m_state s)); [congruence|reflexivity]. }
    now rewrite Hdue, Hcur, Hst.
Qed.

(** X19. The TCP connect event marks the client as connected, at the time
    [now], with no ping in flight. With the TLS client just constructed the
    session is not active yet: control sends are dropped without error and
    an idle tick would only arm the reconnect, which is why the idle timer
    is not started here. When the construction failed on a client that
    never had a TLS client, the client is marked as connected all the
    same, and a control send then dereferences the null [m_tlsClient]. *)
Theorem ConnectEvent_before_handshake (now now2 : Z) (created : bool)
    (w : TlsWrite) (s : MumbleClient) :
  let s1 := ConnectEvent now created s in
  isConnected (m_connectionInfo s1) = true /\
  isConnecting (m_connectionInfo s1) = false /\
  m_timeSinceJoin s1 = now /\
  m_inFlightTcpPings s1 = 0 /\
  m_idleTimer s1 = m_idleTimer s /\
  (created = true ->
   lockedIsActive s1 = false /\
   Send w s1 = Some s1 /\
   exists s2,
     idleTimerEvent now2 s1 = Some s2 /\ tls_out s2 = tls_out s /\
     (addressFamily (m_connectionInfo s) <> 0 ->
      m_connectTimer s2 = Some 2500 /\ m_idleTimer s2 = false)) /\
  (created = false -> m_tlsClient s = None -> Send w s1 = None).
Proof.
  intros s1. subst s1. unfold ConnectEvent. cbv zeta.
  destruct created.
  - split; [reflexivity|]. split; [reflexivity|]. split; [reflexivity|].
    split; [reflexivity|]. split; [reflexivity|].
    split; [|discriminate]. intros _.
    match goal with
    | |- lockedIsActive ?x = _ /\ _ => set (s1 := x)
    end.
    assert (Hna : lockedIsActive s1 = false) by reflexivity.
    split; [exact Hna|]. split; [reflexivity|].
    rewrite (idleTimerEvent_inactive_eq now2 s1 Hna).
    eexists. split; [reflexivity|].
    change (addressFamily (m_connectionInfo s1))
      with (addressFamily (m_connectionInfo s)).
    destruct (Z.eqb_spec (addressFamily (m_connectionInfo s)) 0) as [H0|H0];
      cbn [negb]; repeat split; auto; contradiction.
  - split; [reflexivity|]. split; [reflexivity|]. split; [reflexivity|].
    split; [reflexivity|]. split; [reflexivity|].
    split; [discriminate|].
    intros _ Hn. apply Send_null_session; [reflexivity|exact Hn].
Qed.

(** X20. A voice packet leaves by one path only. Without UDP it is written
    to the TLS session as one [UDPTunnel] frame, whatever its size, and no
    datagram is sent; with UDP nothing is written to the TLS session and
    at most one datagram is sent, none when the packet is longer than 1024
    bytes or the cipher has no keys. *)
Theorem SendVoice_one_path (buf : list Byte.byte) (s : MumbleClient) :
  lockedIsActive s = true ->
  exists s',
    SendVoice buf s = Some s' /\
    (m_hasUdp s = false ->
     written s s' = frame_of MumbleMessageType.UDPTunnel (Raw buf) /\
     datagrams s s' = []) /\
    (m_hasUdp s = true ->
     written s s' = [] /\
     datagrams s s'
     = if IsInitialized (m_crypto s) && (size_of buf <=? kMaxUdpPacket)
       then [{| dg_buf := fst (Encrypt (m_crypto s) buf);
                dg_len := size_of buf + 4 |}]
       else []).
Proof.
  intros Ha. unfold SendVoice. destruct (m_hasUdp s) eqn:Hu; cbn [negb].
  - eexists. split; [reflexivity|]. split; [discriminate|]. intros _. split.
    + apply written_app. rewrite SendUDP_tls_out. now rewrite app_nil_r.
    + unfold datagrams. rewrite SendUDP_out. apply skipn_length_app.
  - unfold Send_typed. rewrite (Send_active _ _ Ha). cbn [bind].
    rewrite Send_active by exact Ha.
    eexists. split; [reflexivity|]. split; [|discriminate]. intros _. split.
    + apply written_app. proj. now rewrite <- app_assoc.
    + unfold datagrams. proj.
      rewrite <- (app_nil_r (udp_out s)) at 2. apply skipn_length_app.
Qed.

End LifeCycle.

(** ** The UDP ping, there and back *)

Section Echo.

Context {crypto_ops : CryptoOps} {pds_ops : PacketDataStreamOps}.

(** X21. The UDP ping that a tick sends at [now], when it comes back at
    [now2], is taken by [HandleVoice] as a ping: while the history has
    room, the UDP ping count goes up by one and the round-trip time
    [now2 - now] is stored in the slot of that ping, the other slots
    staying as they were; nothing is written and no audio call is made. *)
Theorem udp_ping_echo_measured (now now2 : Z) (s : MumbleClient) :
  fst (pds_get_u64 (pds_put_u64 (u64 now))) = u64 now ->
  0 <= now <= now2 ->
  now2 - now < 2 ^ 32 ->
  now < 2 ^ 64 ->
  0 <= pingCount (m_udpPing s) < size_of (pings (m_udpPing s)) ->
  size_of (pings (m_udpPing s)) < 2 ^ 32 ->
  let s' := HandleVoice now2 (udpPingPayload now) s in
  pingCount (m_udpPing s') = pingCount (m_udpPing s) + 1 /\
  array_get (pings (m_udpPing s')) (pingCount (m_udpPing s)) = now2 - now /\
  (forall j, j <> pingCount (m_udpPing s) ->
             array_get (pings (m_udpPing s')) j
             = array_get (pings (m_udpPing s)) j) /\
  tls_out s' = tls_out s /\ udp_out s' = udp_out s /\
  audio_out s' = audio_out s /\ m_positionUpdates s' = m_positionUpdates s.
Proof.
  intros Hcodec Hnow Hrt Hn64 Hc Hsz s'.
  assert (Hs' : s' = set_m_udpPing
                       (store_ping (now2 - now) (bump_count (m_udpPing s))) s).
  { subst s'. unfold HandleVoice, udpPingPayload. cbn [pds_next8].
    change (Z.shiftr (Z.of_N (Byte.to_N Byte.x20)) 5 =? 1) with true.
    cbv iota. destruct (pds_get_u64 (pds_put_u64 (u64 now))) as [ts rest] eqn:E.
    cbn [fst] in Hcodec. subst ts.
    assert (Hu : u64 now = now) by (unfold u64; apply Z.mod_small; lia).
    rewrite Hu.
    assert (Hd : u64 (now2 - now) = now2 - now)
      by (unfold u64; apply Z.mod_small; lia).
    now rewrite Hd. }
  rewrite Hs'. proj.
  set (st := m_udpPing s) in *.
  assert (Hb : u32 (pingCount st + 1) = pingCount st + 1)
    by (unfold u32; apply Z.mod_small; lia).
  assert (Hu : u32 (pingCount st + 1 - 1) = pingCount st).
  { replace (pingCount st + 1 - 1) with (pingCount st) by lia.
    unfold u32. apply Z.mod_small. lia. }
  assert (Hd32 : u32 (now2 - now) = now2 - now)
    by (unfold u32; apply Z.mod_small; lia).
  unfold store_ping, bump_count. cbv zeta. cbn [pings pingCount].
  rewrite Hb, Hu, Hd32.
  destruct (Z.geb_spec (pingCount st) (size_of (pings st))) as [Hfull|Hroom];
    [lia|].
  split; [reflexivity|].
  split; [apply array_get_set_eq; lia|].
  split; [|repeat split].
  intros j Hj. apply array_get_set_ne. congruence.
Qed.

End Echo.

(** ** Instances *)

Lemma store_ping_history_witness :
  array_get (pings (store_ping 7 (bump_count Sample.noStats))) 0 = 7.
Proof.
  refine (proj1 (proj1 (proj2 (proj2
            (store_ping_history 7 (bump_count Sample.noStats) _ _ _))) _)).
  - discriminate.
  - change (1 <= 1 < 2 ^ 32). lia.
  - change (12 < 2 ^ 32). lia.
  - change (1 <= 12). lia.
Defined.

Lemma tick_udp_ping_witness :
  exists s',
    @idleTimerEvent Sample.crypto Sample.pds 100 Sample.client = Some s' /\
    m_hasUdp s' = m_hasUdp Sample.client /\
    datagrams Sample.client s'
    = if (100 >? m_nextPing Sample.client)
         && IsInitialized (m_crypto Sample.client)
      then [{| dg_buf :=
                 fst (@Encrypt Sample.crypto (m_crypto Sample.client)
                        (@udpPingPayload Sample.pds 100));
               dg_len := size_of (@udpPingPayload Sample.pds 100) + 4 |}]
      else [].
Proof.
  apply (@tick_udp_ping Sample.crypto Sample.pds 100 Sample.client).
  - reflexivity.
  - vm_compute. discriminate.
Defined.

Lemma tick_messages_in_order_witness :
  exists s' move listen ping,
    @idleTimerEvent Sample.crypto Sample.pds 100 Sample.whisper = Some s' /\
    emitted Sample.whisper s'
    = move ++ listen
      ++ map (fun e => MumbleProto.MVoiceTarget
                         (voiceTargetFor (m_state Sample.whisper)
                                         (fst e) (snd e)))
             (m_pendingVoiceTargetUpdates Sample.whisper)
      ++ ping /\
    (List.length move <= 1)%nat /\ forallb is_channelMove move = true /\
    (List.length listen <= 1)%nat /\ forallb is_listenUpdate listen = true /\
    (List.length ping <= 1)%nat /\ forallb is_ping ping = true /\
    (ping = [] <->
     ~ 100 > m_nextPing Sample.whisper \/
     (m_inFlightTcpPings Sample.whisper >= 4 /\
      100 - m_timeSinceJoin Sample.whisper > k20s)).
Proof.
  apply (@tick_messages_in_order Sample.crypto Sample.pds 100 Sample.whisper).
  reflexivity.
Defined.

Lemma no_ping_timeout_early_or_before_four_witness :
  falls (connected Sample.client)
        (map connected
             (@runTicks Sample.crypto Sample.pds [1500; 3000; 4500]
                Sample.client))
  = O.
Proof.
  refine (proj1 (@no_ping_timeout_early_or_before_four Sample.crypto
                   Sample.pds 0 Sample.lostPing [1500; 3000; 4500]
                   Sample.client) _).
  repeat constructor; vm_compute; discriminate.
Defined.

Lemma listen_update_not_repeated_witness :
  exists s1 s2,
    @idleTimerEvent Sample.crypto Sample.pds 100 Sample.listening = Some s1 /\
    @idleTimerEvent Sample.crypto Sample.pds 600 s1 = Some s2 /\
    filter is_listenUpdate (emitted s1 s2) = [] /\
    m_lastChannelListens s2 = m_lastChannelListens s1.
Proof.
  apply (@listen_update_not_repeated Sample.crypto Sample.pds 100 600
           Sample.listening).
  - reflexivity.
  - vm_compute. repeat constructor.
  - vm_compute. repeat constructor.
Defined.

Lemma listen_sets_converge_witness :
  exists s',
    @idleTimerEvent Sample.crypto Sample.pds 100 Sample.listening = Some s' /\
    m_lastChannelListens s' = m_curChannelListens Sample.listening.
Proof.
  apply (@listen_sets_converge Sample.crypto Sample.pds 100 Sample.listening).
  - reflexivity.
  - vm_compute. repeat constructor.
  - vm_compute. repeat constructor.
  - intros x Hx _. vm_compute in Hx. destruct Hx as [<-|[]]. reflexivity.
Defined.

Lemma SetChannel_to_own_channel_is_silent_witness :
  exists s1 s2,
    @idleTimerEvent Sample.crypto Sample.pds 100 Sample.client = Some s1 /\
    m_lastManualChannel s1 = "Root"%string /\
    @idleTimerEvent Sample.crypto Sample.pds 600 (SetChannel "Root" s1)
    = Some s2 /\
    filter is_channelMove (emitted (SetChannel "Root" s1) s2) = [].
Proof.
  apply (@SetChannel_to_own_channel_is_silent Sample.crypto Sample.pds 100 600
           "Root"%string Sample.client).
  - reflexivity.
  - reflexivity.
Defined.

Lemma ConnectAsync_asks_for_channel_witness :
  exists s',
    @idleTimerEvent Sample.crypto Sample.pds 100
      (ConnectAsync 2 "me" Sample.client) = Some s' /\
    filter is_channelMove (emitted (ConnectAsync 2 "me" Sample.client) s')
    = [snd (joinOrCreate (m_state (ConnectAsync 2 "me" Sample.client))
                         (m_curManualChannel Sample.client))].
Proof.
  refine (proj2 (proj2 (proj2 (proj2 (proj2 (proj2 (proj2
            (@ConnectAsync_asks_for_channel Sample.crypto Sample.pds 100 2
               "me"%string Sample.client))))))) _ _ _ _).
  - reflexivity.
  - discriminate.
  - discriminate.
  - discriminate.
Defined.

Lemma ConnectEvent_before_handshake_witness :
  Send (WPayload (Raw []))
       (ConnectEvent 100 true Sample.offline)
  = Some (ConnectEvent 100 true Sample.offline).
Proof.
  refine (proj1 (proj2 (proj1 (proj2 (proj2 (proj2 (proj2 (proj2
            (@ConnectEvent_before_handshake Sample.crypto Sample.pds 100 600
               true (WPayload (Raw [])) Sample.offline)))))) _))).
  reflexivity.
Defined.

Lemma SendVoice_one_path_witness :
  exists s',
    @SendVoice Sample.crypto [Byte.x80; Byte.x01] Sample.client = Some s' /\
    (m_hasUdp Sample.client = false ->
     written Sample.client s'
     = frame_of MumbleMessageType.UDPTunnel (Raw [Byte.x80; Byte.x01]) /\
     datagrams Sample.client s' = []) /\
    (m_hasUdp Sample.client = true ->
     written Sample.client s' = [] /\
     datagrams Sample.client s'
     = if IsInitialized (m_crypto Sample.client)
          && (size_of [Byte.x80; Byte.x01] <=? kMaxUdpPacket)
       then [{| dg_buf :=
                  fst (@Encrypt Sample.crypto (m_crypto Sample.client)
                         [Byte.x80; Byte.x01]);
                dg_len := size_of [Byte.x80; Byte.x01] + 4 |}]
       else []).
Proof.
  apply (@SendVoice_one_path Sample.crypto [Byte.x80; Byte.x01] Sample.client).
  reflexivity.
Defined.

Lemma udp_ping_echo_measured_witness :
  array_get
    (pings (m_udpPing (@HandleVoice Sample.pds 140
                         (@udpPingPayload Sample.pds 100) Sample.client)))
    (pingCount (m_udpPing Sample.client))
  = 140 - 100.
Proof.
  refine (proj1 (proj2
            (@udp_ping_echo_measured Sample.pds 100 140 Sample.client
               _ _ _ _ _ _))).
  - vm_compute. reflexivity.
  - lia.
  - lia.
  - lia.
  - change (0 <= 0 < 12). lia.
  - change (12 < 2 ^ 32). lia.
Defined.
